(** * qfx-converter: a shallow embedding of [qfx_converter.py] and
      [verify_conversion.py], and the properties of conversion, extraction
      and verification.

    Documents are Python [str] values.  They are modelled as lists of
    characters with code points below 256 ([ascii]); in that range the
    class [\d] of Python's [re] is exactly [0-9].  The [re] calls of the
    program are modelled by a small backtracking matcher over the regular
    expressions the program uses, [float] and [repr] by a binary64 model
    over [spec_float]. *)

From Stdlib Require Import List Ascii String ZArith Lia Bool Arith.
From Stdlib Require Import QArith Qreduction.
From Stdlib Require Import Floats.SpecFloat.
Import ListNotations.

Local Open Scope nat_scope.
Local Open Scope list_scope.

(** ** Documents and exceptions *)

Definition document := list ascii.

(** A string literal of the source, as a list of characters. *)
Definition str (s : string) : document := list_ascii_of_string s.

Definition ascii_eqb (a b : ascii) : bool := Ascii.eqb a b.

(** [a == b] on strings. *)
Definition list_eqb (a b : list ascii) : bool :=
  if list_eq_dec ascii_dec a b then true else false.

Inductive exn : Type :=
| ValueError (msg : string).

Inductive result (A : Type) : Type :=
| Ok (a : A)
| Raise (e : exn).

Arguments Ok {A} a.
Arguments Raise {A} e.

Definition bind {A B : Type} (m : result A) (k : A -> result B) : result B :=
  match m with
  | Ok a => k a
  | Raise e => Raise e
  end.

Notation "x <- m ;; k" := (bind m (fun x => k))
  (at level 61, m at next level, right associativity).

(** [[f(x) for x in l]] where [f] may raise: the first failure aborts. *)
Fixpoint mapM {A B : Type} (f : A -> result B) (l : list A) : result (list B) :=
  match l with
  | [] => Ok []
  | a :: l' => b <- f a ;; bs <- mapM f l' ;; Ok (b :: bs)
  end.

(** ** The regular expressions of the program *)

Module Re.

(** The fragment of [re] syntax that occurs in the source: literal text,
    a quantified character class ([\d{8}], [\d+], [\d*], [\.?], [[^<]+]),
    concatenation and a capturing group. *)
Inductive regex : Type :=
| Str (l : list ascii)
| Rep (p : ascii -> bool) (lo : nat) (hi : option nat)
| Cat (r1 r2 : regex)
| Grp (r : regex).

Definition is_digit (c : ascii) : bool :=
  let n := nat_of_ascii c in (48 <=? n) && (n <=? 57).

Definition not_lt (c : ascii) : bool := negb (ascii_eqb c "<"%char).

Definition is_dot (c : ascii) : bool := ascii_eqb c "."%char.

Fixpoint strip_prefix (l s : list ascii) : option (list ascii) :=
  match l with
  | [] => Some s
  | a :: l' =>
      match s with
      | [] => None
      | c :: s' => if ascii_eqb a c then strip_prefix l' s' else None
      end
  end.

Definition hi_allows (hi : option nat) : bool :=
  match hi with
  | Some O => false
  | _ => true
  end.

(** Greedy repetition of a character class: the remainders after taking
    [k] characters, for every admissible [k], longest first (the order in
    which a backtracking engine tries them). *)
Fixpoint rep (p : ascii -> bool) (lo : nat) (hi : option nat)
    (s : list ascii) : list (list ascii) :=
  let here := match lo with O => [s] | S _ => [] end in
  match s with
  | [] => here
  | c :: s' =>
      if p c && hi_allows hi
      then rep p (pred lo) (option_map pred hi) s' ++ here
      else here
  end.

(** All ways of matching [r] at the start of [s], in the order of
    preference of a backtracking engine; each comes with the text of
    group 1 (if set) and the rest of the subject. *)
Fixpoint all (r : regex) (g : option (list ascii)) (s : list ascii)
    : list (option (list ascii) * list ascii) :=
  match r with
  | Str l =>
      match strip_prefix l s with
      | Some rest => [(g, rest)]
      | None => []
      end
  | Rep p lo hi => map (fun rest => (g, rest)) (rep p lo hi s)
  | Cat r1 r2 => flat_map (fun gr => all r2 (fst gr) (snd gr)) (all r1 g s)
  | Grp r1 =>
      map (fun gr => (Some (firstn (List.length s - List.length (snd gr)) s), snd gr))
          (all r1 g s)
  end.

(** [pattern.match(s)]: the preferred match at the start of [s]. *)
Definition match_at (r : regex) (s : list ascii)
    : option (option (list ascii) * list ascii) :=
  hd_error (all r None s).

(** [re.search(pattern, s)]: the match at the leftmost position that has
    one; the result is group 1. *)
Fixpoint search (r : regex) (s : list ascii) : option (option (list ascii)) :=
  match match_at r s with
  | Some (g, _) => Some g
  | None =>
      match s with
      | [] => None
      | _ :: s' => search r s'
      end
  end.

(** The scan shared by [re.findall] and [re.sub]: the subject cut into
    the non-overlapping matches, found left to right, and the characters
    between them.  [skip] counts the characters of the current match still
    to be passed.  The patterns of the program start with a literal [<]
    and never match the empty string. *)
Inductive token : Type :=
| Lit (c : ascii)
| Hit (whole : list ascii) (grp : option (list ascii)).

Fixpoint scan (r : regex) (s : list ascii) (skip : nat) : list token :=
  match s with
  | [] => []
  | c :: s' =>
      match skip with
      | S k => scan r s' k
      | O =>
          match match_at r s with
          | Some (g, rest) =>
              match List.length s - List.length rest with
              | O => Lit c :: scan r s' 0
              | S k => Hit (firstn (S k) s) g :: scan r s' k
              end
          | None => Lit c :: scan r s' 0
          end
      end
  end.

Definition tokens (r : regex) (s : list ascii) : list token := scan r s 0.

(** What [findall] reports for a match: group 1 when the pattern has a
    group, the whole match otherwise. *)
Definition reported (whole : list ascii) (g : option (list ascii)) : list ascii :=
  match g with
  | Some x => x
  | None => whole
  end.

Fixpoint hits (ts : list token) : list (list ascii) :=
  match ts with
  | [] => []
  | Lit _ :: ts' => hits ts'
  | Hit w g :: ts' => reported w g :: hits ts'
  end.

(** [re.findall(pattern, s)] *)
Definition findall (r : regex) (s : list ascii) : list (list ascii) :=
  hits (tokens r s).

(** [re.sub(pattern, repl, s)] with a replacement function that may
    raise; the calls happen in document order. *)
Fixpoint sub_tokens (f : list ascii -> result (list ascii)) (ts : list token)
    : result (list ascii) :=
  match ts with
  | [] => Ok []
  | Lit c :: ts' => out <- sub_tokens f ts' ;; Ok (c :: out)
  | Hit w g :: ts' =>
      new <- f (reported w g) ;; out <- sub_tokens f ts' ;; Ok (new ++ out)
  end.

Definition sub_fn (r : regex) (f : list ascii -> result (list ascii))
    (s : list ascii) : result (list ascii) :=
  sub_tokens f (tokens r s).

(** [re.sub(pattern, repl, s)] with a literal replacement text. *)
Fixpoint sub_lit_tokens (repl : list ascii) (ts : list token) : list ascii :=
  match ts with
  | [] => []
  | Lit c :: ts' => c :: sub_lit_tokens repl ts'
  | Hit _ _ :: ts' => repl ++ sub_lit_tokens repl ts'
  end.

Definition sub (r : regex) (repl : list ascii) (s : list ascii) : list ascii :=
  sub_lit_tokens repl (tokens r s).

End Re.

Import Re.

(** ** The patterns of the source *)

(** [<DTSTART>(\d{8})\d+\.?\d*</DTSTART>] and the same for [DTEND] *)
Definition timestamp_re (tag : string) : regex :=
  Cat (Str (str ("<" ++ tag ++ ">")%string))
    (Cat (Grp (Rep is_digit 8 (Some 8)))
      (Cat (Rep is_digit 1 None)
        (Cat (Rep is_dot 0 (Some 1))
          (Cat (Rep is_digit 0 None)
               (Str (str ("</" ++ tag ++ ">")%string)))))).

Definition DTSTART_re : regex := timestamp_re "DTSTART".
Definition DTEND_re : regex := timestamp_re "DTEND".

(** [<FID>(\d+)</FID>] *)
Definition FID_re : regex :=
  Cat (Str (str "<FID>")) (Cat (Grp (Rep is_digit 1 None)) (Str (str "</FID>"))).

(** [<INTU\.BID>(\d+)</INTU\.BID>] *)
Definition INTU_BID_re : regex :=
  Cat (Str (str "<INTU.BID>"))
      (Cat (Grp (Rep is_digit 1 None)) (Str (str "</INTU.BID>"))).

(** [<TRNAMT>([^<]+)</TRNAMT>] *)
Definition TRNAMT_re : regex :=
  Cat (Str (str "<TRNAMT>"))
      (Cat (Grp (Rep not_lt 1 None)) (Str (str "</TRNAMT>"))).

(** [<STMTTRN>] *)
Definition STMTTRN_re : regex := Str (str "<STMTTRN>").

(** [<FID>12139</FID>] and [<INTU\.BID>12139</INTU\.BID>] *)
Definition FID_12139_re : regex := Str (str "<FID>12139</FID>").
Definition INTU_BID_12139_re : regex := Str (str "<INTU.BID>12139</INTU.BID>").


(** ** Python's [float]: binary64 values, [float(text)] and [repr] *)

Module Float.

Local Open Scope Z_scope.

(** The parameters of binary64. *)
Definition prec : Z := 53.
Definition emax : Z := 1024.

Definition float : Type := spec_float.

Definition is_nan (x : float) : bool :=
  match x with
  | S754_nan => true
  | _ => false
  end.

Definition neg (x : float) : float := SFopp x.
Definition add (x y : float) : float := SFadd prec emax x y.
Definition fabs (x : float) : float := SFabs x.

(** [x > y] on floats; false when either is a NaN. *)
Definition gt (x y : float) : bool := SFltb y x.

(** The binary64 nearest to the positive rational [n/d], ties to even.
    With [K] large enough, [W] is the integer part of [n/d * 2^K], its
    binary length gives the exponent [st - K] of the last kept bit, and
    [q], [r] are the quotient and remainder of [n/d] by [2^(st - K)]. *)
Definition round_pos (sign : bool) (n d : Z) : float :=
  let K := Z.log2_up d + 1074 in
  let a := n * 2 ^ K in
  let W := a / d in
  let st := Z.max (Z.log2 W - 52) (K - 1074) in
  let b := d * 2 ^ st in
  let q := a / b in
  let r := a mod b in
  let up := (b <? 2 * r) || ((2 * r =? b) && Z.odd q) in
  let m := if up then q + 1 else q in
  let me := if m =? 2 ^ 53 then (2 ^ 52, st - K + 1) else (m, st - K) in
  if fst me =? 0 then S754_zero sign
  else if 971 <? snd me then S754_infinity sign
  else S754_finite sign (Z.to_pos (fst me)) (snd me).

(** The rational [M * 10^E]. *)
Definition dec_value (M E : Z) : Q :=
  Qmake (M * 10 ^ Z.max E 0) (Z.to_pos (10 ^ Z.max (- E) 0)).

(** The float of the decimal [(-1)^sign * M * 10^E], [0 <= M]. *)
Definition of_decimal (sign : bool) (M E : Z) : float :=
  if M =? 0 then S754_zero sign
  else
    let v := Qred (dec_value M E) in
    round_pos sign (Qnum v) (Zpos (Qden v)).

(** *** Reading a number: [float(text)] *)

Definition code (c : ascii) : Z := Z.of_nat (nat_of_ascii c).

Definition is_digit (c : ascii) : bool := (48 <=? code c) && (code c <=? 57).

(** The characters [float] strips at both ends: tab, line feed, vertical
    tab, form feed, carriage return, space, and the two whitespace code
    points above 127, NEL and no-break space. *)
Definition is_space (c : ascii) : bool :=
  let n := code c in
  ((9 <=? n) && (n <=? 13)) || (n =? 32) || (n =? 133) || (n =? 160).

Fixpoint lstrip (s : list ascii) : list ascii :=
  match s with
  | [] => []
  | c :: s' => if is_space c then lstrip s' else s
  end.

Definition strip (s : list ascii) : list ascii :=
  rev (lstrip (rev (lstrip s))).

(** An underscore is allowed only between two digits. *)
Fixpoint underscores_ok (prev_digit : bool) (s : list ascii) : bool :=
  match s with
  | [] => true
  | c :: s' =>
      if ascii_eqb c "_"
      then prev_digit
           && match s' with
              | c' :: _ => is_digit c'
              | [] => false
              end
           && underscores_ok false s'
      else underscores_ok (is_digit c) s'
  end.

Definition remove_underscores (s : list ascii) : list ascii :=
  filter (fun c => negb (ascii_eqb c "_")) s.

Definition lower (c : ascii) : ascii :=
  let n := nat_of_ascii c in
  if ((65 <=? n) && (n <=? 90))%nat then ascii_of_nat (n + 32) else c.

Definition parse_sign (s : list ascii) : bool * list ascii :=
  match s with
  | c :: s' =>
      if ascii_eqb c "-" then (true, s')
      else if ascii_eqb c "+" then (false, s')
      else (false, s)
  | [] => (false, s)
  end.

Fixpoint span_digits (s : list ascii) : list ascii * list ascii :=
  match s with
  | c :: s' =>
      if is_digit c
      then let '(ds, rest) := span_digits s' in (c :: ds, rest)
      else ([], s)
  | [] => ([], [])
  end.

Definition digit_val (c : ascii) : Z := code c - 48.

(** The number written by a list of decimal digits. *)
Definition digits_val (ds : list ascii) : Z :=
  fold_left (fun acc c => 10 * acc + digit_val c) ds 0.

(** [inf], [infinity] and [nan], in any letter case. *)
Definition parse_special (sign : bool) (s : list ascii) : option float :=
  let l := map lower s in
  if list_eqb l (str "inf") || list_eqb l (str "infinity")
  then Some (S754_infinity sign)
  else if list_eqb l (str "nan") then Some S754_nan
  else None.

(** digits, an optional point and digits (at least one digit in all),
    an optional exponent; the result is the pair [(M, E)]. *)
Definition parse_number (s : list ascii) : option (Z * Z) :=
  let '(ip, r1) := span_digits s in
  let '(fp, r2) :=
    match r1 with
    | c :: r => if ascii_eqb c "." then span_digits r else ([], r1)
    | [] => ([], r1)
    end in
  match ip ++ fp with
  | [] => None
  | _ :: _ =>
      let M := digits_val (ip ++ fp) in
      let F := Z.of_nat (List.length fp) in
      match r2 with
      | [] => Some (M, - F)
      | c :: r3 =>
          if ascii_eqb c "e" || ascii_eqb c "E"
          then
            let '(es, r4) := parse_sign r3 in
            let '(ed, r5) := span_digits r4 in
            match ed, r5 with
            | _ :: _, [] =>
                let X := digits_val ed in
                Some (M, (if es then - X else X) - F)
            | _, _ => None
            end
          else None
      end
  end.

(** [float(text)] *)
Definition of_string (text : list ascii) : result float :=
  let s := strip text in
  if underscores_ok false s
  then
    let '(sign, body) := parse_sign (remove_underscores s) in
    match parse_special sign body with
    | Some x => Ok x
    | None =>
        match parse_number body with
        | Some (M, E) => Ok (of_decimal sign M E)
        | None => Raise (ValueError "could not convert string to float")
        end
    end
  else Raise (ValueError "could not convert string to float").

(** *** Writing a number: [repr(x)] *)

Definition digit_char (d : Z) : ascii := ascii_of_nat (Z.to_nat (48 + d)).

Fixpoint to_digits_fuel (fuel : nat) (n : Z) (acc : list ascii) : list ascii :=
  match fuel with
  | O => acc
  | S f =>
      let acc' := digit_char (n mod 10) :: acc in
      if n <? 10 then acc' else to_digits_fuel f (n / 10) acc'
  end.

(** The decimal digits of [n], [0 <= n], most significant first. *)
Definition to_digits (n : Z) : list ascii :=
  to_digits_fuel (S (Z.to_nat (Z.log2 n))) n [].

(** The exact decimal [(M, E)] of [m * 2^e]. *)
Definition exact_decimal (m : positive) (e : Z) : Z * Z :=
  if 0 <=? e then (Zpos m * 2 ^ e, 0) else (Zpos m * 5 ^ (- e), e).

Definition reads_back (m : positive) (e : Z) (c E : Z) : bool :=
  match of_decimal false c E with
  | S754_finite _ m' e' => Pos.eqb m' m && (e' =? e)
  | _ => false
  end.

(** The decimal with [p] fewer digits than [M] that reads back as the
    float and is nearest to it, if there is one. *)
Definition candidate (m : positive) (e : Z) (M E : Z) (p : nat) : option (Z * Z) :=
  let P := 10 ^ Z.of_nat p in
  let lo := M / P in
  let hi := lo + 1 in
  let E' := E + Z.of_nat p in
  let ok_lo := (0 <? lo) && reads_back m e lo E' in
  let ok_hi := reads_back m e hi E' in
  let dl := 2 * (M mod P) in
  let lo_nearer := (dl <? P) || ((dl =? P) && Z.even lo) in
  if ok_lo && ok_hi then Some (if lo_nearer then lo else hi, E')
  else if ok_lo then Some (lo, E')
  else if ok_hi then Some (hi, E')
  else None.

(** The shortest decimal that reads back as the float: digits are dropped
    from the exact decimal as long as the result still reads back. *)
Fixpoint shortest (m : positive) (e : Z) (M E : Z) (p : nat) : Z * Z :=
  match p with
  | O => (M, E)
  | S p' =>
      match candidate m e M E p with
      | Some c => c
      | None => shortest m e M E p'
      end
  end.

Fixpoint strip_zeros_rev (r : list ascii) : list ascii :=
  match r with
  | c :: r' => if ascii_eqb c "0" then strip_zeros_rev r' else r
  | [] => []
  end.

(** The digits without trailing zeros *)
Definition strip_trailing_zeros (ds : list ascii) : list ascii :=
  rev (strip_zeros_rev (rev ds)).

Definition zeros (n : nat) : list ascii := repeat "0"%char n.

(** The exponent of the [e] notation: a sign and at least two digits. *)
Definition format_exp (x : Z) : list ascii :=
  let ds := to_digits (Z.abs x) in
  (if x <? 0 then "-"%char else "+"%char)
    :: (if (List.length ds <? 2)%nat then "0"%char :: ds else ds).

(** The text of the digits [ds] with the decimal point after [decpt] of
    them: [e] notation when [decpt <= -4] or [decpt > 16], and [.0] added
    to a whole number otherwise. *)
Definition format_digits (ds : list ascii) (decpt : Z) : list ascii :=
  let n := Z.of_nat (List.length ds) in
  if (decpt <=? -4) || (16 <? decpt) then
    match ds with
    | [] => []
    | d :: [] => d :: "e"%char :: format_exp (decpt - 1)
    | d :: tl => d :: "."%char :: tl ++ "e"%char :: format_exp (decpt - 1)
    end
  else if decpt <=? 0 then
    str "0." ++ zeros (Z.to_nat (- decpt)) ++ ds
  else if n <=? decpt then
    ds ++ zeros (Z.to_nat (decpt - n)) ++ str ".0"
  else
    firstn (Z.to_nat decpt) ds ++ "."%char :: skipn (Z.to_nat decpt) ds.

Definition with_sign (sign : bool) (s : list ascii) : list ascii :=
  if sign then "-"%char :: s else s.

(** [repr(x)] *)
Definition repr (x : float) : list ascii :=
  match x with
  | S754_nan => str "nan"
  | S754_infinity s => with_sign s (str "inf")
  | S754_zero s => with_sign s (str "0.0")
  | S754_finite s m e =>
      let '(M, E) := exact_decimal m e in
      let '(c, E') := shortest m e M E (pred (List.length (to_digits M))) in
      let ds := to_digits c in
      with_sign s (format_digits (strip_trailing_zeros ds)
                                 (Z.of_nat (List.length ds) + E'))
  end.

End Float.


(** ** qfx_converter.py *)

(** [match.group(1)] *)
Definition group1 (g : option (list ascii)) : list ascii :=
  match g with
  | Some x => x
  | None => []
  end.

(** [extract_date_range(qfx_content)] *)
Definition extract_date_range (qfx_content : document)
    : result (list ascii * list ascii) :=
  let start_match := search DTSTART_re qfx_content in
  let end_match := search DTEND_re qfx_content in
  match start_match, end_match with
  | Some gs, Some ge =>
      let start_date := group1 gs in
      let end_date := group1 ge in
      Ok (start_date, end_date)
  | _, _ => Raise (ValueError "Could not find date range in QFX file")
  end.

(** The dictionary built by [extract_key_elements]; its four keys are
    fixed. *)
Record elements : Type := {
  FID : list ascii;
  INTU_BID : list ascii;
  amounts : list Float.float;
  transaction_count : nat
}.

(** [extract_key_elements(qfx_content)], the same function in both files.
    The filter [if amounts] of the comprehension is evaluated only when
    the list has an element and so is always true. *)
Definition extract_key_elements (qfx_content : document) : result elements :=
  let fid_match := search FID_re qfx_content in
  let fid := match fid_match with
             | Some g => group1 g
             | None => str "Not found"
             end in
  let intu_match := search INTU_BID_re qfx_content in
  let intu := match intu_match with
              | Some g => group1 g
              | None => str "Not found"
              end in
  let amounts := findall TRNAMT_re qfx_content in
  amts <- mapM Float.of_string amounts ;;
  let transactions := findall STMTTRN_re qfx_content in
  Ok {| FID := fid; INTU_BID := intu; amounts := amts;
        transaction_count := List.length transactions |}.

(** The literal [0.01] of the source. *)
Definition tolerance : Float.float := S754_finite false 5764607523034235 (-59).

(** [abs(orig + conv) > 0.01] *)
Definition off_by_more (orig conv : Float.float) : bool :=
  Float.gt (Float.fabs (Float.add orig conv)) tolerance.

(** The [for] loop of [verify_conversion] over the zipped amounts, which
    leaves at the first pair that is off. *)
Fixpoint signs_loop (pairs : list (Float.float * Float.float)) : bool :=
  match pairs with
  | [] => true
  | (orig, conv) :: rest =>
      if off_by_more orig conv then false else signs_loop rest
  end.

Definition nonempty {A : Type} (l : list A) : bool :=
  match l with
  | [] => false
  | _ :: _ => true
  end.

(** The four checks and the overall flag computed by
    [verify_conversion]. *)
Record report : Type := {
  fid_changed : bool;
  intu_changed : bool;
  count_same : bool;
  signs_reversed : bool;
  success : bool
}.

Definition check (orig_elements conv_elements : elements) : report :=
  let fid_changed :=
    negb (list_eqb (FID orig_elements) (FID conv_elements)) in
  let intu_changed :=
    negb (list_eqb (INTU_BID orig_elements) (INTU_BID conv_elements)) in
  let count_same :=
    Nat.eqb (transaction_count orig_elements) (transaction_count conv_elements) in
  let signs_reversed :=
    if nonempty (amounts orig_elements) && nonempty (amounts conv_elements)
    then signs_loop (combine (amounts orig_elements) (amounts conv_elements))
    else true in
  {| fid_changed := fid_changed; intu_changed := intu_changed;
     count_same := count_same; signs_reversed := signs_reversed;
     success := fid_changed && intu_changed && count_same && signs_reversed |}.

(** [verify_conversion(original_content, converted_content)]: the report
    whose [success] field is the value returned (the other fields are the
    ones printed). *)
Definition verify_report (original_content converted_content : document)
    : result report :=
  orig_elements <- extract_key_elements original_content ;;
  conv_elements <- extract_key_elements converted_content ;;
  Ok (check orig_elements conv_elements).

Definition verify_conversion (original_content converted_content : document)
    : result bool :=
  r <- verify_report original_content converted_content ;;
  Ok (success r).

(** The callback [reverse_amount] of [convert_qfx], on the text of
    group 1. *)
Definition reverse_amount (group_1 : list ascii) : result (list ascii) :=
  amount <- Float.of_string group_1 ;;
  let reversed_amount := Float.neg amount in
  Ok (str "<TRNAMT>" ++ Float.repr reversed_amount ++ str "</TRNAMT>").

(** [convert_qfx(input_content)] *)
Definition convert_qfx (input_content : document) : result document :=
  let converted := input_content in
  let converted := sub FID_12139_re (str "<FID>10898</FID>") converted in
  let converted :=
    sub INTU_BID_12139_re (str "<INTU.BID>10898</INTU.BID>") converted in
  sub_fn TRNAMT_re reverse_amount converted.

(** ** verify_conversion.py *)

(** The loop of [main] over the first five pairs: it has no [break]. *)
Definition signs_first5 (orig_amounts conv_amounts : list Float.float) : bool :=
  fold_left
    (fun signs_reversed oc =>
       if off_by_more (fst oc) (snd oc) then false else signs_reversed)
    (combine (firstn 5 orig_amounts) (firstn 5 conv_amounts))
    true.

(** The flag [all_good] computed by [main] of the standalone script from
    the contents of the two files. *)
Definition standalone_all_good (original_content converted_content : document)
    : result bool :=
  orig_elements <- extract_key_elements original_content ;;
  conv_elements <- extract_key_elements converted_content ;;
  let signs_reversed :=
    signs_first5 (amounts orig_elements) (amounts conv_elements) in
  Ok (negb (list_eqb (FID orig_elements) (FID conv_elements))
      && negb (list_eqb (INTU_BID orig_elements) (INTU_BID conv_elements))
      && Nat.eqb (transaction_count orig_elements)
                 (transaction_count conv_elements)
      && signs_reversed).

(** ** The vocabulary of the matcher *)

(** [n] repetitions are within the upper bound of a quantifier. *)
Definition hi_ok (hi : option nat) (n : nat) : Prop :=
  match hi with
  | Some h => n <= h
  | None => True
  end.

(** The shape shared by the patterns of the tagged fields: an opening
    tag, a captured run of a class, a closing tag. *)
Definition field_re (a : list ascii) (p : ascii -> bool) (b : list ascii)
    : regex :=
  Cat (Str a) (Cat (Grp (Rep p 1 None)) (Str b)).

(** ** Rewriting spans of a document *)

(** A text in which no span of a family can start or continue: every [<]
    is followed, inside the text, by a character outside [P]. *)
Fixpoint safe (P : ascii -> bool) (l : list ascii) : bool :=
  match l with
  | [] => true
  | c :: l' =>
      (if ascii_eqb c "<"
       then match l' with
            | c2 :: _ => negb (P c2)
            | [] => false
            end
       else true)
      && safe P l'
  end.

Section Rewriting.

Variable span : list ascii -> list ascii -> Prop.

(** [rewrites s s']: [s'] is [s] with some spans [w] replaced by [w'],
    where [span w w'], and every character outside them kept. *)
Inductive rewrites : document -> document -> Prop :=
| rw_nil : rewrites [] []
| rw_keep (c : ascii) (s s' : document) :
    rewrites s s' -> rewrites (c :: s) (c :: s')
| rw_span (w w' : list ascii) (s s' : document) :
    span w w' -> rewrites s s' -> rewrites (w ++ s) (w' ++ s').

(** The spans, old and new, start with [<] and the same character of
    [P]. *)
Definition starts (P : ascii -> bool) : Prop :=
  forall w w', span w w' ->
    exists c u u', w = "<"%char :: c :: u /\ w' = "<"%char :: c :: u'
                   /\ P c = true.

End Rewriting.

(** The spans of the three passes of [convert_qfx], each with the text
    that replaces it. *)
Definition fid_span (w w' : list ascii) : Prop :=
  w = str "<FID>12139</FID>" /\ w' = str "<FID>10898</FID>".

Definition bid_span (w w' : list ascii) : Prop :=
  w = str "<INTU.BID>12139</INTU.BID>" /\ w' = str "<INTU.BID>10898</INTU.BID>".

(** The enclosed text of an amount field: [[^<]+]. *)
Definition amount_text (t : list ascii) : Prop :=
  t <> [] /\ forallb not_lt t = true.

(** An amount field with the enclosed text [t]. *)
Definition amt_field (t : list ascii) : list ascii :=
  str "<TRNAMT>" ++ t ++ str "</TRNAMT>".

Definition amt_span (w w' : list ascii) : Prop :=
  exists t v,
    amount_text t /\ Float.of_string t = Ok v
    /\ w = amt_field t
    /\ w' = amt_field (Float.repr (Float.neg v)).

(** The spans [convert_qfx] may change, with what they become. *)
Definition field_span (w w' : list ascii) : Prop :=
  (fid_span w w' \/ bid_span w w') \/ amt_span w w'.

(** The second characters of the tags involved. *)
Definition is_F (c : ascii) : bool := ascii_eqb c "F".

Definition is_I (c : ascii) : bool := ascii_eqb c "I".

Definition is_T (c : ascii) : bool := ascii_eqb c "T".

Definition is_S (c : ascii) : bool := ascii_eqb c "S".

Definition is_FI (c : ascii) : bool := is_F c || is_I c.

(** An amount field after its first character. *)
Definition amt_tail (t : list ascii) : list ascii :=
  str "TRNAMT>" ++ t ++ str "</TRNAMT>".

(** [r] matches at no position of [s]. *)
Definition no_match (r : regex) (s : list ascii) : Prop :=
  forall pre suf, s = pre ++ suf -> match_at r suf = None.

Definition is_FIT (c : ascii) : bool := is_FI c || is_T c.

(** ** Floats

    A float of binary64 in canonical form. *)
Definition valid (x : Float.float) : Prop :=
  valid_binary Float.prec Float.emax x = true.

(** The characters [repr] writes for a finite number. *)
Definition num_char (c : ascii) : bool :=
  Float.is_digit c || ascii_eqb c "." || ascii_eqb c "e" || ascii_eqb c "+"
  || ascii_eqb c "-".

(** The sign character of an exponent. *)
Definition sign_char (es : bool) : ascii := if es then "-"%char else "+"%char.

(** ** Documents

    The amounts of a document, read in document order. *)
Definition amounts_of (D : document) : result (list Float.float) :=
  mapM Float.of_string (findall TRNAMT_re D).

(** [v] is a number. *)
Definition not_nan (v : Float.float) : Prop := Float.is_nan v = false.

(** A valid document: the enclosed text of every amount field can be read
    as a number. *)
Definition valid_document (D : document) : Prop :=
  exists vs, amounts_of D = Ok vs /\ Forall not_nan vs.

(** Sample documents. *)
Definition two_amounts : document :=
  str "<STMTTRN><TRNAMT>-42.50</TRNAMT><STMTTRN><TRNAMT>10.00</TRNAMT>".

(** Any character but the one of a closing tag. *)
Definition not_slash (c : ascii) : bool := negb (ascii_eqb c "/").

(** An institution field, primary or secondary, with the enclosed text
    [v]. *)
Definition id_field (secondary : bool) (v : list ascii) : list ascii :=
  if secondary
  then str "<INTU.BID>" ++ v ++ str "</INTU.BID>"
  else str "<FID>" ++ v ++ str "</FID>".

Definition mixed_document : document :=
  str "<FID>12139</FID> <FID>9</FID><INTU.BID>12139</INTU.BID><STMTTRN><TRNAMT>-42.50</TRNAMT>".

(** [l] is a substring of [D]. *)
Definition occurs (l : list ascii) (D : document) : Prop :=
  exists pre post, D = pre ++ l ++ post.

(** [D] has an amount field. *)
Definition has_amount_field (D : document) : Prop :=
  exists pre t post, amount_text t /\ D = pre ++ amt_field t ++ post.

(** The suffixes of [s], and the decision of [no_match] over them. *)
Fixpoint tails (s : list ascii) : list (list ascii) :=
  s :: match s with
       | [] => []
       | _ :: s' => tails s'
       end.

Definition no_matchb (r : regex) (s : list ascii) : bool :=
  forallb (fun suf => match match_at r suf with
                      | None => true
                      | Some _ => false
                      end) (tails s).

Definition plain_document : document :=
  str "<FID>10898</FID><INTU.BID>99</INTU.BID><STMTTRN><DTPOSTED>20240105</DTPOSTED>".

Definition zero_document : document :=
  str "<TRNAMT>0.00</TRNAMT><TRNAMT>-0.00</TRNAMT>".

Definition malformed_amount : document :=
  str "<STMTTRN><TRNAMT>10.00</TRNAMT><STMTTRN><TRNAMT>ten</TRNAMT>".

Definition six_original : document :=
  str "<FID>12139</FID><INTU.BID>12139</INTU.BID><STMTTRN><TRNAMT>1.00</TRNAMT><STMTTRN><TRNAMT>1.00</TRNAMT><STMTTRN><TRNAMT>1.00</TRNAMT><STMTTRN><TRNAMT>1.00</TRNAMT><STMTTRN><TRNAMT>1.00</TRNAMT><STMTTRN><TRNAMT>1.00</TRNAMT>".

Definition six_converted : document :=
  str "<FID>10898</FID><INTU.BID>10898</INTU.BID><STMTTRN><TRNAMT>-1.0</TRNAMT><STMTTRN><TRNAMT>-1.0</TRNAMT><STMTTRN><TRNAMT>-1.0</TRNAMT><STMTTRN><TRNAMT>-1.0</TRNAMT><STMTTRN><TRNAMT>-1.0</TRNAMT><STMTTRN><TRNAMT>1.0</TRNAMT>".

(** ** Timestamps

    The enclosed text the pattern of [extract_date_range] accepts: eight
    digits, at least one more digit, an optional point, further digits. *)
Definition timestamp_text (body : list ascii) : Prop :=
  exists d t1 dot t2,
    body = d ++ t1 ++ dot ++ t2
    /\ List.length d = 8 /\ forallb Re.is_digit d = true
    /\ forallb Re.is_digit t1 = true /\ t1 <> []
    /\ forallb is_dot dot = true /\ List.length dot <= 1
    /\ forallb Re.is_digit t2 = true.

(** A field [tag] with the enclosed text [body]. *)
Definition timestamp_field (tag : string) (body : list ascii) : list ascii :=
  str ("<" ++ tag ++ ">")%string ++ body ++ str ("</" ++ tag ++ ">")%string.

(** [D] has a field [tag] with a timestamp text. *)
Definition has_timestamp (tag : string) (D : document) : Prop :=
  exists pre body post,
    D = pre ++ timestamp_field tag body ++ post /\ timestamp_text body.

(** [date] is the first eight characters of the leftmost field [tag] of
    [D] with a timestamp text. *)
Definition first_timestamp (tag : string) (D : document) (date : list ascii)
    : Prop :=
  exists pre body post,
    D = pre ++ timestamp_field tag body ++ post
    /\ timestamp_text body
    /\ date = firstn 8 body
    /\ forall pre2 body2 post2,
         D = pre2 ++ timestamp_field tag body2 ++ post2 ->
         timestamp_text body2 -> List.length pre <= List.length pre2.

(** ** The rest of qfx_converter.py *)

(** [<DTPOSTED>(\d{4})\d+\.?\d*</DTPOSTED>] *)
Definition DTPOSTED_re : regex :=
  Cat (Str (str "<DTPOSTED>"))
    (Cat (Grp (Rep Re.is_digit 4 (Some 4)))
      (Cat (Rep Re.is_digit 1 None)
        (Cat (Rep is_dot 0 (Some 1))
          (Cat (Rep Re.is_digit 0 None)
               (Str (str "</DTPOSTED>")))))).

(** [int(text)] in base ten: surrounding whitespace is dropped, a sign may
    come first, and single underscores may stand between digits.  The
    message of the error, which quotes the text, is shortened. *)
Definition py_int (text : list ascii) : result Z :=
  let s := Float.strip text in
  if Float.underscores_ok false s
  then
    let '(sign, body) := Float.parse_sign (Float.remove_underscores s) in
    match body with
    | [] => Raise (ValueError "invalid literal for int() with base 10")
    | _ :: _ =>
        if forallb Float.is_digit body
        then Ok (if sign then (- Float.digits_val body)%Z
                 else Float.digits_val body)
        else Raise (ValueError "invalid literal for int() with base 10")
    end
  else Raise (ValueError "invalid literal for int() with base 10").

(** [str(n)] of an integer. *)
Definition py_str (n : Z) : list ascii :=
  if (n <? 0)%Z then "-"%char :: Float.to_digits (- n) else Float.to_digits n.

(** [max(l)] of a list that is not empty. *)
Definition py_max (first : Z) (others : list Z) : Z :=
  fold_left Z.max others first.

(** [extract_latest_year(qfx_content)] *)
Definition extract_latest_year (qfx_content : document) : result (list ascii) :=
  let date_matches := findall DTPOSTED_re qfx_content in
  match date_matches with
  | [] =>
      range <- extract_date_range qfx_content ;;
      let end_date := snd range in
      Ok (firstn 4 end_date)
  | _ :: _ =>
      years <- mapM py_int date_matches ;;
      match years with
      | [] => Raise (ValueError "max() arg is an empty sequence")
      | y :: ys => Ok (py_str (py_max y ys))
      end
  end.

(** The text [f.read()] returns for a file opened in text mode, which is
    how [main] opens its input: every line ending of the file, [\r\n] or
    [\r] alone, has become [\n]. *)
Fixpoint universal_newlines (raw : list ascii) : document :=
  match raw with
  | [] => []
  | c :: rest =>
      if ascii_eqb c "013"
      then "010"%char
             :: match rest with
                | c' :: rest' =>
                    if ascii_eqb c' "010" then universal_newlines rest'
                    else universal_newlines rest
                | [] => []
                end
      else c :: universal_newlines rest
  end.

(** The arguments of the command line that [main] uses after parsing. *)
Record arguments : Type := {
  output_dir : option (list ascii);
  output_file : option (list ascii);
  no_verify : bool
}.

(** The calls [main] makes on the file system, in order: [mkdir] on the
    output directory, and the opening and writing of the output file,
    with the text handed to [write]. *)
Inductive effect : Type :=
| MakeDirs (dir : list ascii)
| WriteFile (dir file : list ascii) (content : document).

(** How the calls of one run turn out: whether [mkdir] succeeds, whether
    the output file can be opened and written, and whether printing to
    the standard output succeeds.  A call that fails raises an exception,
    which [main] catches. *)
Record outcomes : Type := {
  mkdir_ok : bool;
  write_ok : bool;
  print_ok : bool
}.

(** The truth value of an optional text: [None] and the empty text are
    false. *)
Definition given (a : option (list ascii)) : option (list ascii) :=
  match a with
  | Some (c :: t) => Some (c :: t)
  | _ => None
  end.

(** [main] of qfx_converter.py once the command line is parsed, as the
    list of the calls it makes on the file system and its exit status.
    [input] is the text of the input file as it is stored, [None] when
    the file does not exist or cannot be read; the file is read in text
    mode.  Every exception is caught and gives the status 1, also when
    the message cannot be printed.  The directory is the text handed to
    [Path]. *)
Definition main (env : outcomes) (args : arguments)
    (input : option (list ascii)) : list effect * nat :=
  match input with
  | None => ([], 1)
  | Some raw =>
      let qfx_content := universal_newlines raw in
      match extract_date_range qfx_content with
      | Raise _ => ([], 1)
      | Ok (start_date, end_date) =>
          match extract_latest_year qfx_content with
          | Raise _ => ([], 1)
          | Ok latest_year =>
              let dir := match given (output_dir args) with
                         | Some d => d
                         | None => str "./" ++ latest_year
                         end in
              if negb (mkdir_ok env) then ([MakeDirs dir], 1)
              else
                let output_filename :=
                  match given (output_file args) with
                  | Some f => f
                  | None => start_date ++ str "-" ++ end_date
                              ++ str "_transactions.QFX"
                  end in
                match convert_qfx qfx_content with
                | Raise _ => ([MakeDirs dir], 1)
                | Ok converted_content =>
                    let effects :=
                      [MakeDirs dir;
                       WriteFile dir output_filename converted_content] in
                    if negb (write_ok env) then (effects, 1)
                    else if negb (print_ok env) then (effects, 1)
                    else if no_verify args then (effects, 0)
                    else
                      match verify_conversion qfx_content converted_content
                      with
                      | Raise _ => (effects, 1)
                      | Ok verification_success =>
                          if verification_success then (effects, 0)
                          else (effects, 1)
                      end
                end
          end
      end
  end.

(** A character that is no line ending. *)
Definition not_newline (c : ascii) : bool :=
  negb (ascii_eqb c "013") && negb (ascii_eqb c "010").

(** The head of a text, when it has one, is no line feed. *)
Definition no_lf_head (b : list ascii) : Prop :=
  match b with
  | c :: _ => ascii_eqb c "010" = false
  | [] => True
  end.

(** A decimal number in the words of the specification: an optional sign,
    digits with at most one point among them, at least one digit. *)
Definition spec_decimal_number (t : list ascii) : bool :=
  let '(_, body) := Float.parse_sign t in
  let '(ip, r1) := Float.span_digits body in
  let '(fp, r2) :=
    match r1 with
    | c :: r => if ascii_eqb c "." then Float.span_digits r else ([], r1)
    | [] => ([], r1)
    end in
  nonempty (ip ++ fp)
  && match r2 with
     | [] => true
     | _ :: _ => false
     end.

(** ** The vocabulary of the further properties *)

(** The fixed remap of an institution value. *)
Definition remap (v : list ascii) : list ascii :=
  if list_eqb v (str "12139") then str "10898" else v.

(** The pattern of an institution field, primary or secondary, the second
    character of its tag, and the value [extract_key_elements] files under
    its key. *)
Definition id_re (secondary : bool) : regex :=
  if secondary then INTU_BID_re else FID_re.

Definition id_char (secondary : bool) : ascii :=
  if secondary then "I"%char else "F"%char.

Definition id_P (secondary : bool) (c : ascii) : bool :=
  ascii_eqb c (id_char secondary).

Definition id_of (secondary : bool) (el : elements) : list ascii :=
  if secondary then INTU_BID el else FID el.

(** The span of the pass over an institution tag. *)
Definition id_span (secondary : bool) (w w' : list ascii) : Prop :=
  w = id_field secondary (str "12139")
  /\ w' = id_field secondary (str "10898").

(** [D] has an institution field holding digits, and [v] is the value of
    the leftmost one. *)
Definition has_id (secondary : bool) (D : document) : Prop :=
  exists pre v post,
    D = pre ++ id_field secondary v ++ post
    /\ v <> [] /\ forallb Re.is_digit v = true.

Definition first_id (secondary : bool) (D : document) (v : list ascii)
    : Prop :=
  exists pre post,
    D = pre ++ id_field secondary v ++ post
    /\ v <> [] /\ forallb Re.is_digit v = true
    /\ forall pre2 v2 post2,
         D = pre2 ++ id_field secondary v2 ++ post2 ->
         v2 <> [] -> forallb Re.is_digit v2 = true ->
         List.length pre <= List.length pre2.

(** The shape shared by the patterns of the dated fields: an opening tag,
    [n] captured digits, at least one more digit, an optional point,
    further digits, a closing tag. *)
Definition stamp_re (n : nat) (a b : list ascii) : regex :=
  Cat (Str a)
    (Cat (Grp (Rep Re.is_digit n (Some n)))
      (Cat (Rep Re.is_digit 1 None)
        (Cat (Rep is_dot 0 (Some 1))
          (Cat (Rep Re.is_digit 0 None) (Str b))))).

(** The enclosed text such a pattern accepts. *)
Definition stamp_text (n : nat) (body : list ascii) : Prop :=
  exists d t1 dot t2,
    body = d ++ t1 ++ dot ++ t2
    /\ List.length d = n /\ forallb Re.is_digit d = true
    /\ forallb Re.is_digit t1 = true /\ t1 <> []
    /\ forallb is_dot dot = true /\ List.length dot <= 1
    /\ forallb Re.is_digit t2 = true.

Definition is_D (c : ascii) : bool := ascii_eqb c "D".

(** [year] is the first four digits of a posted-date field of [D]. *)
Definition posted_year (D : document) (year : list ascii) : Prop :=
  exists pre body post,
    D = pre ++ (str "<DTPOSTED>" ++ body ++ str "</DTPOSTED>") ++ post
    /\ stamp_text 4 body /\ year = firstn 4 body.

(** A pattern that never matches the empty text. *)
Definition consuming (r : regex) : Prop :=
  forall s g rest, match_at r s = Some (g, rest) ->
    exists w, w <> [] /\ s = w ++ rest.

(** A sample document with all the fields the program reads. *)
Definition statement : document :=
  str "<FID>12139</FID><INTU.BID>12139</INTU.BID><DTSTART>20240101000000</DTSTART><DTEND>20240131000000</DTEND><STMTTRN><DTPOSTED>20240105120000</DTPOSTED><TRNAMT>-42.50</TRNAMT><STMTTRN><DTPOSTED>20231230120000</DTPOSTED><TRNAMT>10.00</TRNAMT>".

(** * Proofs *)

(** ** The matcher *)

Section MatcherFacts.

Lemma ascii_eqb_eq (a b : ascii) : ascii_eqb a b = true <-> a = b.
Proof. apply Ascii.eqb_eq. Qed.

Lemma ascii_eqb_refl (a : ascii) : ascii_eqb a a = true.
Proof. apply Ascii.eqb_refl. Qed.

Lemma ascii_eqb_neq (a b : ascii) : ascii_eqb a b = false <-> a <> b.
Proof. apply Ascii.eqb_neq. Qed.

Lemma strip_prefix_app (l rest : list ascii) :
  strip_prefix l (l ++ rest) = Some rest.
Proof.
  induction l as [|a l IH]; simpl; [reflexivity|].
  now rewrite ascii_eqb_refl.
Qed.

Lemma strip_prefix_inv (l s rest : list ascii) :
  strip_prefix l s = Some rest -> s = l ++ rest.
Proof.
  revert s; induction l as [|a l IH]; simpl; intros s H.
  - now injection H.
  - destruct s as [|c s]; [discriminate|].
    destruct (ascii_eqb a c) eqn:E; [|discriminate].
    apply ascii_eqb_eq in E; subst c.
    now rewrite (IH _ H).
Qed.

Lemma strip_prefix_iff (l s rest : list ascii) :
  strip_prefix l s = Some rest <-> s = l ++ rest.
Proof.
  split; [apply strip_prefix_inv|].
  intros ->; apply strip_prefix_app.
Qed.

Lemma in_rep (p : ascii -> bool) (s : list ascii) :
  forall lo hi rest,
    In rest (rep p lo hi s) <->
    exists pre, s = pre ++ rest /\ forallb p pre = true
                /\ lo <= List.length pre /\ hi_ok hi (List.length pre).
Proof.
  induction s as [|c s IH]; intros lo hi rest.
  - simpl. destruct lo; simpl.
    + split.
      * intros [<-|[]]. exists []. repeat split; auto.
        destruct hi; simpl; lia.
      * intros (pre & E & _). symmetry in E.
        apply app_eq_nil in E. destruct E as [_ ->]. now left.
    + split; [intros []|].
      intros (pre & E & _ & L & _). symmetry in E.
      apply app_eq_nil in E. destruct E as [-> _]. simpl in L; lia.
  - cbn [rep].
    assert (Hhere : forall r, In r (match lo with O => [c :: s] | S _ => [] end)
                     <-> (lo = 0 /\ r = c :: s)).
    { intros r. destruct lo; simpl; split.
      - intros [<-|[]]; auto.
      - intros [_ ->]; auto.
      - intros [].
      - intros [E _]; discriminate. }
    destruct (p c && hi_allows hi) eqn:Epc.
    + apply andb_prop in Epc. destruct Epc as [Ep Eh].
      rewrite in_app_iff, IH, Hhere. split.
      * intros [(pre & E & Hp & Hlo & Hhi)|[-> ->]].
        -- exists (c :: pre). subst s. simpl. rewrite Ep, Hp.
           repeat split; auto; [lia|].
           destruct hi as [[|h]|]; simpl in *; try discriminate; try lia; auto.
        -- exists []. repeat split; auto. destruct hi; simpl; lia.
      * intros (pre & E & Hp & Hlo & Hhi).
        destruct pre as [|c' pre].
        -- right. simpl in *. split; [lia|auto].
        -- left. simpl in E. injection E as -> ->.
           simpl in Hp. apply andb_prop in Hp. destruct Hp as [_ Hp].
           exists pre. repeat split; auto; simpl in *; [lia|].
           destruct hi as [[|h]|]; simpl in *; try lia; auto.
    + rewrite Hhere. split.
      * intros [-> ->]. exists []. repeat split; auto.
        destruct hi; simpl; lia.
      * intros (pre & E & Hp & Hlo & Hhi).
        destruct pre as [|c' pre]; simpl in *; [split; [lia|auto]|].
        injection E as -> ->.
        apply andb_prop in Hp. destruct Hp as [Hp _].
        rewrite Hp in Epc. simpl in Epc.
        destruct hi as [[|h]|]; simpl in *; try discriminate; lia.
Qed.

Lemma in_all_Str (l : list ascii) g s g' rest :
  In (g', rest) (all (Str l) g s) <-> g' = g /\ s = l ++ rest.
Proof.
  simpl. destruct (strip_prefix l s) as [r|] eqn:E.
  - apply strip_prefix_inv in E. subst s. simpl. split.
    + intros [H|[]]. injection H as <- <-. auto.
    + intros [-> H]. apply app_inv_head in H. subst. now left.
  - split; [intros []|]. intros [_ ->].
    rewrite strip_prefix_app in E. discriminate.
Qed.

Lemma in_all_Rep p lo hi g s g' rest :
  In (g', rest) (all (Rep p lo hi) g s) <->
  g' = g /\ exists pre, s = pre ++ rest /\ forallb p pre = true
                        /\ lo <= List.length pre /\ hi_ok hi (List.length pre).
Proof.
  simpl. rewrite in_map_iff. split.
  - intros (r & E & H). injection E as <- <-. split; auto. now apply in_rep.
  - intros [-> H]. exists rest. split; auto. now apply in_rep.
Qed.

Lemma in_all_Cat r1 r2 g s x :
  In x (all (Cat r1 r2) g s) <->
  exists g1 rest1, In (g1, rest1) (all r1 g s) /\ In x (all r2 g1 rest1).
Proof.
  simpl. rewrite in_flat_map. split.
  - intros ([g1 rest1] & H1 & H2). now exists g1, rest1.
  - intros (g1 & rest1 & H1 & H2). now exists (g1, rest1).
Qed.

Lemma in_all_Grp r g s g' rest :
  In (g', rest) (all (Grp r) g s) <->
  exists g1, In (g1, rest) (all r g s)
             /\ g' = Some (firstn (List.length s - List.length rest) s).
Proof.
  simpl. rewrite in_map_iff. split.
  - intros ([g1 r1] & E & H). simpl in E. injection E as <- <-. now exists g1.
  - intros (g1 & H & ->). now exists (g1, rest).
Qed.

Lemma firstn_app_exact (A : Type) (pre rest : list A) :
  firstn (List.length (pre ++ rest) - List.length rest) (pre ++ rest) = pre.
Proof.
  rewrite length_app.
  replace (List.length pre + List.length rest - List.length rest)
    with (List.length pre + 0) by lia.
  rewrite firstn_app_2. simpl. apply app_nil_r.
Qed.

Lemma match_at_in r s x : match_at r s = Some x -> In x (all r None s).
Proof.
  unfold match_at. destruct (all r None s); simpl; [discriminate|].
  intros H. injection H as ->. now left.
Qed.

Lemma match_at_unique r s x :
  In x (all r None s) ->
  (forall y, In y (all r None s) -> y = x) ->
  match_at r s = Some x.
Proof.
  unfold match_at. destruct (all r None s) as [|y l]; simpl; [intros []|].
  intros _ H. f_equal. apply H. now left.
Qed.

Lemma match_at_none r s :
  match_at r s = None <-> forall x, ~ In x (all r None s).
Proof.
  unfold match_at. destruct (all r None s) as [|y l]; simpl; split; auto.
  - discriminate.
  - intros H. exfalso. apply (H y). now left.
Qed.

End MatcherFacts.

(** ** The scan *)

Lemma scan_skip (r : regex) (l rest : list ascii) :
  scan r (l ++ rest) (List.length l) = scan r rest 0.
Proof.
  induction l as [|c l IH]; simpl; [reflexivity|apply IH].
Qed.

Lemma tokens_hit (r : regex) (w rest : list ascii) g :
  w <> [] ->
  match_at r (w ++ rest) = Some (g, rest) ->
  tokens r (w ++ rest) = Hit w g :: tokens r rest.
Proof.
  intros Hw Hm. unfold tokens.
  destruct w as [|c w]; [congruence|].
  change ((c :: w) ++ rest) with (c :: (w ++ rest)) in *.
  cbn [scan]. rewrite Hm.
  assert (E : List.length (c :: w ++ rest) - List.length rest
              = S (List.length w)).
  { cbn [List.length]. rewrite length_app. lia. }
  rewrite E.
  f_equal.
  - f_equal. change (c :: w ++ rest) with ((c :: w) ++ rest).
    change (S (List.length w)) with (List.length (c :: w)).
    replace (List.length (c :: w)) with (List.length (c :: w) + 0) by lia.
    rewrite firstn_app_2. simpl. now rewrite app_nil_r.
  - apply scan_skip.
Qed.

Lemma tokens_lit (r : regex) (c : ascii) (s : list ascii) :
  match_at r (c :: s) = None ->
  tokens r (c :: s) = Lit c :: tokens r s.
Proof.
  intros Hm. unfold tokens. cbn [scan]. now rewrite Hm.
Qed.

Lemma tokens_nil (r : regex) : tokens r [] = [].
Proof. reflexivity. Qed.

(** *** Fields: an opening tag, a run of a class, a closing tag *)

Lemma run_unique (p : ascii -> bool) (c0 : ascii) :
  p c0 = false ->
  forall x1 x2 y1 y2,
    forallb p x1 = true -> forallb p x2 = true ->
    x1 ++ c0 :: y1 = x2 ++ c0 :: y2 ->
    x1 = x2 /\ y1 = y2.
Proof.
  intros Hc. induction x1 as [|a x1 IH]; intros [|b x2] y1 y2 H1 H2 E;
    simpl in *.
  - injection E as ->. auto.
  - injection E as <- _. apply andb_prop in H2. destruct H2 as [H2 _].
    congruence.
  - injection E as -> _. apply andb_prop in H1. destruct H1 as [H1 _].
    congruence.
  - injection E as <- E.
    apply andb_prop in H1. apply andb_prop in H2.
    destruct (IH x2 y1 y2) as [-> ->]; tauto.
Qed.

Lemma in_field_re a p b s g rest :
  In (g, rest) (all (field_re a p b) None s) <->
  exists body, s = a ++ body ++ b ++ rest /\ forallb p body = true
               /\ body <> [] /\ g = Some body.
Proof.
  unfold field_re. rewrite in_all_Cat. split.
  - intros (g1 & r1 & H1 & H2).
    apply in_all_Str in H1. destruct H1 as [-> ->].
    apply in_all_Cat in H2. destruct H2 as (g2 & r2 & H2 & H3).
    apply in_all_Grp in H2. destruct H2 as (g3 & H2 & ->).
    apply in_all_Rep in H2. destruct H2 as (-> & pre & -> & Hp & Hlo & _).
    apply in_all_Str in H3. destruct H3 as [-> ->].
    rewrite firstn_app_exact.
    exists pre. repeat split; auto.
    destruct pre; simpl in *; [lia|congruence].
  - intros (body & -> & Hp & Hne & ->).
    exists None, (body ++ b ++ rest). split; [now apply in_all_Str|].
    apply in_all_Cat. exists (Some body), (b ++ rest). split.
    + apply in_all_Grp. exists None. split.
      * apply in_all_Rep. split; auto. exists body. repeat split; auto.
        destruct body; simpl; [congruence|lia].
      * now rewrite firstn_app_exact.
    + now apply in_all_Str.
Qed.

Lemma match_field_re a p c0 b s g rest :
  p c0 = false ->
  match_at (field_re a p (c0 :: b)) s = Some (g, rest) <->
  exists body, s = a ++ body ++ (c0 :: b) ++ rest /\ forallb p body = true
               /\ body <> [] /\ g = Some body.
Proof.
  intros Hc. split.
  - intros H. apply match_at_in in H. now apply in_field_re.
  - intros (body & -> & Hp & Hne & ->).
    apply match_at_unique.
    + apply in_field_re. now exists body.
    + intros [g' rest'] H. apply in_field_re in H.
      destruct H as (body' & E & Hp' & _ & ->).
      apply app_inv_head in E. simpl in E.
      destruct (run_unique p c0 Hc _ _ _ _ Hp Hp' E) as [<- E'].
      apply app_inv_head in E'. now subst.
Qed.

Lemma match_Str l s g rest :
  match_at (Str l) s = Some (g, rest) <-> g = None /\ s = l ++ rest.
Proof.
  split.
  - intros H. apply match_at_in in H. now apply in_all_Str in H.
  - intros [-> ->]. unfold match_at. simpl. now rewrite strip_prefix_app.
Qed.

(** ** Rewriting spans of a document *)

Section RewritingFacts.

Variable span : list ascii -> list ascii -> Prop.
Variable P : ascii -> bool.
Hypothesis Hstarts : starts span P.

Lemma rewrites_flip (s s' : document) :
  rewrites span s s' -> rewrites (fun a b => span b a) s' s.
Proof.
  induction 1; [constructor|now constructor|now constructor].
Qed.

Lemma rewrites_nil_l (s' : document) : rewrites span [] s' -> s' = [].
Proof.
  intros H. inversion H as [| |w w' s0 s0' Hs Hr E1 E2]; [reflexivity|].
  destruct (Hstarts _ _ Hs) as (c & u & u' & -> & _). discriminate.
Qed.

Lemma peel_new (l : list ascii) :
  safe P l = true ->
  forall s t', rewrites span s (l ++ t') ->
    exists t, s = l ++ t /\ rewrites span t t'.
Proof.
  induction l as [|c l IH]; intros Hsafe s t' H.
  - now exists s.
  - simpl in Hsafe. apply andb_prop in Hsafe. destruct Hsafe as [Hc Hl].
    simpl in H.
    inversion H as [|c' s0 s0' Hr E1 E2|w w' s0 s0' Hs Hr E1 E2]; subst.
    + destruct (IH Hl _ _ Hr) as (t & -> & Ht). now exists t.
    + destruct (Hstarts _ _ Hs) as (c1 & u & u' & -> & -> & Hp).
      simpl in E2. injection E2 as <- E2.
      rewrite ascii_eqb_refl in Hc.
      destruct l as [|c2 l]; [discriminate|].
      simpl in E2. injection E2 as <- _.
      rewrite Hp in Hc. discriminate.
Qed.

End RewritingFacts.

Section RewritingSymmetry.

Variable span : list ascii -> list ascii -> Prop.
Variable P : ascii -> bool.
Hypothesis Hstarts : starts span P.

Lemma starts_flip : starts (fun a b => span b a) P.
Proof.
  intros w w' H. destruct (Hstarts _ _ H) as (c & u & u' & -> & -> & Hp).
  now exists c, u', u.
Qed.

Lemma rewrites_unflip (s s' : document) :
  rewrites (fun a b => span b a) s' s -> rewrites span s s'.
Proof.
  induction 1; [constructor|now constructor|now constructor].
Qed.

Lemma peel_old (l : list ascii) :
  safe P l = true ->
  forall t s', rewrites span (l ++ t) s' ->
    exists t', s' = l ++ t' /\ rewrites span t t'.
Proof.
  intros Hsafe t s' H.
  apply rewrites_flip in H.
  destruct (peel_new _ _ starts_flip l Hsafe _ _ H) as (t' & -> & Ht).
  exists t'. split; [reflexivity|now apply rewrites_unflip].
Qed.

Lemma rewrites_nil_r (s : document) : rewrites span s [] -> s = [].
Proof.
  intros H. apply rewrites_flip in H.
  now apply (rewrites_nil_l _ _ starts_flip) in H.
Qed.

Lemma rewrites_mono (span2 : list ascii -> list ascii -> Prop) s s' :
  (forall w w', span w w' -> span2 w w') ->
  rewrites span s s' -> rewrites span2 s s'.
Proof.
  intros Hi. induction 1; [constructor|now constructor|].
  constructor; auto.
Qed.

End RewritingSymmetry.

Lemma safe_app (P : ascii -> bool) (a b : list ascii) :
  safe P a = true -> safe P b = true -> safe P (a ++ b) = true.
Proof.
  induction a as [|c a IH]; simpl; intros Ha Hb; [assumption|].
  apply andb_prop in Ha. destruct Ha as [Hc Ha].
  rewrite (IH Ha Hb), andb_true_r.
  destruct (ascii_eqb c "<"); [|reflexivity].
  destruct a; [discriminate|assumption].
Qed.

Lemma safe_no_lt (P : ascii -> bool) (t : list ascii) :
  forallb not_lt t = true -> safe P t = true.
Proof.
  induction t as [|c t IH]; simpl; [reflexivity|].
  intros H. apply andb_prop in H. destruct H as [Hc Ht].
  rewrite (IH Ht), andb_true_r.
  unfold not_lt in Hc. now destruct (ascii_eqb c "<").
Qed.

(** Two successive passes are one rewriting by the spans of both, when
    neither pass can touch a span of the other. *)
Lemma rewrites_compose (A B : list ascii -> list ascii -> Prop)
    (PA PB : ascii -> bool) :
  starts A PA -> starts B PB ->
  (forall w w', A w w' -> safe PB w' = true) ->
  (forall w w', B w w' -> safe PA w = true) ->
  forall s s1 s2,
    rewrites A s s1 -> rewrites B s1 s2 ->
    rewrites (fun w w' => A w w' \/ B w w') s s2.
Proof.
  intros HA HB HAB HBA.
  assert (Hind : forall n s s1 s2, List.length s1 <= n ->
            rewrites A s s1 -> rewrites B s1 s2 ->
            rewrites (fun w w' => A w w' \/ B w w') s s2).
  { induction n as [|n IH]; intros s s1 s2 Hn H1 H2.
    - destruct s1; [|simpl in Hn; lia].
      apply (rewrites_nil_r _ _ HA) in H1. apply (rewrites_nil_l _ _ HB) in H2.
      subst. constructor.
    - inversion H1 as [|c t t1 Hr E1 E2|w w' t t1 Hs Hr E1 E2]; subst.
      + apply (rewrites_nil_l _ _ HB) in H2. subst. constructor.
      + inversion H2 as [|c' u u2 Hr2 E1 E2|w w' u u2 Hs2 Hr2 E1 E2]; subst.
        * constructor. apply (IH t t1 u2); [simpl in Hn; lia|assumption..].
        * rewrite <- E1 in H1.
          destruct (peel_new _ _ HA w (HBA _ _ Hs2) _ _ H1) as (t0 & -> & Ht0).
          constructor; [now right|].
          apply (IH t0 u u2); [|assumption..].
          destruct (HB _ _ Hs2) as (c1 & x & x' & -> & _ & _).
          assert (L : List.length (("<"%char :: c1 :: x) ++ u)
                      = List.length (c :: t1)) by now rewrite E1.
          rewrite length_app in L. simpl in L, Hn. lia.
      + destruct (peel_old _ _ HB w' (HAB _ _ Hs) _ _ H2) as (t2 & -> & Ht2).
        constructor; [now left|].
        apply (IH t t1 t2); [|assumption..].
        destruct (HA _ _ Hs) as (c1 & x & x' & _ & -> & _).
        rewrite length_app in Hn. simpl in Hn. lia. }
  intros s s1 s2. now apply (Hind (List.length s1)).
Qed.

(** ** The three passes of [convert_qfx] as rewritings *)

Lemma amt_field_app (t rest : list ascii) :
  amt_field t ++ rest = str "<TRNAMT>" ++ t ++ str "</TRNAMT>" ++ rest.
Proof. unfold amt_field. now rewrite <- !app_assoc. Qed.

Lemma amt_field_not_nil (t : list ascii) : amt_field t <> [].
Proof. discriminate. Qed.

Lemma match_TRNAMT s g rest :
  match_at TRNAMT_re s = Some (g, rest) <->
  exists body, s = amt_field body ++ rest
               /\ forallb not_lt body = true /\ body <> [] /\ g = Some body.
Proof.
  pose proof (match_field_re (str "<TRNAMT>") not_lt "<" (str "/TRNAMT>")
                             s g rest eq_refl) as H.
  split.
  - intros Hm. apply H in Hm. destruct Hm as (body & E & Hm).
    exists body. now rewrite amt_field_app.
  - intros (body & E & Hm). apply H. exists body.
    now rewrite amt_field_app in E.
Qed.

Lemma sub_Str_rewrites (l repl : list ascii) :
  l <> [] ->
  forall s, rewrites (fun w w' => w = l /\ w' = repl) s (sub (Str l) repl s).
Proof.
  intros Hl.
  assert (Hind : forall n s, List.length s <= n ->
            rewrites (fun w w' => w = l /\ w' = repl) s (sub (Str l) repl s)).
  { induction n as [|n IH]; intros s Hn.
    - destruct s; [constructor|simpl in Hn; lia].
    - destruct (match_at (Str l) s) as [[g rest]|] eqn:E.
      + pose proof E as E'. apply match_Str in E'. destruct E' as [-> ->].
        unfold sub. rewrite (tokens_hit _ _ _ _ Hl E). simpl.
        constructor; [auto|]. apply IH.
        rewrite length_app in Hn. destruct l; [congruence|simpl in Hn; lia].
      + destruct s as [|c s]; [constructor|].
        unfold sub. rewrite (tokens_lit _ _ _ E). simpl.
        constructor. apply IH. simpl in Hn. lia. }
  intros s. now apply (Hind (List.length s)).
Qed.

Lemma bind_Ok {A B : Type} (m : result A) (k : A -> result B) (b : B) :
  bind m k = Ok b -> exists a, m = Ok a /\ k a = Ok b.
Proof.
  destruct m as [a|e]; simpl; [|discriminate]. intros H. now exists a.
Qed.

Lemma reverse_amount_Ok (t new : list ascii) :
  reverse_amount t = Ok new ->
  exists v, Float.of_string t = Ok v
            /\ new = amt_field (Float.repr (Float.neg v)).
Proof.
  unfold reverse_amount. destruct (Float.of_string t) as [v|e]; cbn [bind];
    [|discriminate].
  intros H. exists v. split; [reflexivity|].
  injection H as <-. reflexivity.
Qed.

Lemma sub_fn_rewrites :
  forall s s', sub_fn TRNAMT_re reverse_amount s = Ok s' ->
               rewrites amt_span s s'.
Proof.
  assert (Hind : forall n s s', List.length s <= n ->
            sub_fn TRNAMT_re reverse_amount s = Ok s' ->
            rewrites amt_span s s').
  { induction n as [|n IH]; intros s s' Hn H.
    - destruct s; [|simpl in Hn; lia].
      cbv in H. injection H as <-. constructor.
    - destruct (match_at TRNAMT_re s) as [[g rest]|] eqn:E.
      + pose proof E as E'. apply match_TRNAMT in E'.
        destruct E' as (body & -> & Hp & Hne & ->).
        unfold sub_fn in H.
        rewrite (tokens_hit _ _ _ _ (amt_field_not_nil body) E) in H.
        cbn [sub_tokens reported] in H.
        apply bind_Ok in H. destruct H as (new & Hnew & H).
        apply bind_Ok in H. destruct H as (out & Hout & H).
        injection H as <-.
        apply reverse_amount_Ok in Hnew. destruct Hnew as (v & Hv & ->).
        apply (rw_span amt_span (amt_field body)
                 (amt_field (Float.repr (Float.neg v)))).
        * exists body, v. unfold amount_text. auto.
        * apply IH; [|exact Hout].
          rewrite length_app in Hn. unfold amt_field in Hn.
          rewrite length_app in Hn. simpl in Hn. lia.
      + destruct s as [|c s]; [cbv in H; injection H as <-; constructor|].
        unfold sub_fn in H. rewrite (tokens_lit _ _ _ E) in H.
        cbn [sub_tokens] in H.
        apply bind_Ok in H. destruct H as (out & Hout & H).
        injection H as <-.
        constructor. apply IH; [simpl in Hn; lia|exact Hout]. }
  intros s s'. now apply (Hind (List.length s)).
Qed.

(** *** Documents without matches *)

Lemma no_match_tail r c s : no_match r (c :: s) -> no_match r s.
Proof.
  intros H pre suf ->. now apply (H (c :: pre) suf).
Qed.

Lemma tokens_no_match r s : no_match r s -> tokens r s = map Lit s.
Proof.
  induction s as [|c s IH]; intros H; [reflexivity|].
  rewrite tokens_lit; [|now apply (H [] (c :: s))].
  simpl. f_equal. apply IH. now apply no_match_tail in H.
Qed.

Lemma sub_lit_tokens_Lit repl s : sub_lit_tokens repl (map Lit s) = s.
Proof.
  induction s as [|c s IH]; simpl; [reflexivity|now rewrite IH].
Qed.

Lemma sub_tokens_Lit f s : sub_tokens f (map Lit s) = Ok s.
Proof.
  induction s as [|c s IH]; simpl; [reflexivity|now rewrite IH].
Qed.

(** ** Matches under rewriting *)

Section Inert.

Variable r : regex.
Variable Pr : ascii -> bool.
Variable span : list ascii -> list ascii -> Prop.
Variable P : ascii -> bool.

Hypothesis Hstarts : starts span P.
Hypothesis Hspan_safe :
  forall w w', span w w' -> safe Pr w = true /\ safe Pr w' = true.
Hypothesis Hr :
  forall s g rest, match_at r s = Some (g, rest) ->
    exists w, s = w ++ rest
      /\ (exists c u, w = "<"%char :: c :: u /\ Pr c = true)
      /\ safe P w = true
      /\ forall rest', match_at r (w ++ rest') = Some (g, rest').

Lemma no_match_at_safe (c : ascii) (w t : list ascii) :
  safe Pr (c :: w) = true -> match_at r (c :: w ++ t) = None.
Proof.
  intros Hs. destruct (match_at r (c :: w ++ t)) as [[g rest]|] eqn:E;
    [|reflexivity].
  exfalso. destruct (Hr _ _ _ E) as (w0 & E0 & (c1 & u & -> & Hp) & _).
  simpl in E0. injection E0 as -> E0.
  simpl in Hs. apply andb_prop in Hs. destruct Hs as [Hs _].
  destruct w as [|c2 w]; [discriminate|].
  simpl in E0. injection E0 as -> _.
  rewrite Hp in Hs. discriminate.
Qed.

Lemma hits_through_safe (w t : list ascii) :
  safe Pr w = true -> hits (tokens r (w ++ t)) = hits (tokens r t).
Proof.
  induction w as [|c w IH]; intros Hs; [reflexivity|].
  simpl. rewrite tokens_lit by now apply no_match_at_safe.
  simpl. apply IH. simpl in Hs. apply andb_prop in Hs. tauto.
Qed.

Lemma hits_rewrites :
  forall s s', rewrites span s s' ->
               hits (tokens r s) = hits (tokens r s').
Proof.
  assert (Hind : forall n s s', List.length s <= n -> rewrites span s s' ->
                   hits (tokens r s) = hits (tokens r s')).
  { induction n as [|n IH]; intros s s' Hn H.
    - destruct s; [|simpl in Hn; lia].
      apply (rewrites_nil_l _ _ Hstarts) in H. now subst.
    - destruct (match_at r s) as [[g rest]|] eqn:E.
      + destruct (Hr _ _ _ E) as (w & -> & (c1 & u & -> & Hp) & Hsafe & Hloc).
        destruct (peel_old _ _ Hstarts _ Hsafe _ _ H) as (rest' & -> & Hrest).
        rewrite (tokens_hit r _ rest g) by (discriminate || exact E).
        rewrite (tokens_hit r _ rest' g) by (discriminate || apply Hloc).
        simpl. f_equal. apply IH; [|exact Hrest].
        rewrite length_app in Hn. simpl in Hn. lia.
      + inversion H as [|c t t' Hr0 E1 E2|w w' t t' Hs Hr0 E1 E2]; subst.
        * reflexivity.
        * assert (E' : match_at r (c :: t') = None).
          { destruct (match_at r (c :: t')) as [[g rest']|] eqn:E'; [|reflexivity].
            exfalso.
            destruct (Hr _ _ _ E') as (w & Ew & _ & Hsafe & Hloc).
            rewrite Ew in H.
            destruct (peel_new _ _ Hstarts _ Hsafe _ _ H) as (t0 & Et & _).
            rewrite Et, Hloc in E. discriminate. }
          rewrite (tokens_lit _ _ _ E), (tokens_lit _ _ _ E'). simpl.
          apply IH; [simpl in Hn; lia|exact Hr0].
        * destruct (Hspan_safe _ _ Hs) as [Hw Hw'].
          rewrite (hits_through_safe _ _ Hw), (hits_through_safe _ _ Hw').
          apply IH; [|exact Hr0].
          destruct (Hstarts _ _ Hs) as (c1 & u & u' & -> & _).
          rewrite length_app in Hn. simpl in Hn. lia. }
  intros s s'. now apply (Hind (List.length s)).
Qed.

End Inert.

(** ** Digits *)

Section Digits.

Import Float.
Local Open Scope Z_scope.

Lemma code_range (c : ascii) : 0 <= code c < 256.
Proof.
  unfold code. pose proof (nat_ascii_bounded c). lia.
Qed.

Lemma code_digit_char (d : Z) : 0 <= d < 10 -> code (digit_char d) = 48 + d.
Proof.
  intros H. unfold code, digit_char.
  rewrite nat_ascii_embedding by lia. lia.
Qed.

Lemma is_digit_digit_char (d : Z) : 0 <= d < 10 -> is_digit (digit_char d) = true.
Proof.
  intros H. unfold is_digit. rewrite code_digit_char by assumption.
  apply andb_true_intro. split; apply Z.leb_le; lia.
Qed.

Lemma digit_val_digit_char (d : Z) : 0 <= d < 10 -> digit_val (digit_char d) = d.
Proof.
  intros H. unfold digit_val. rewrite code_digit_char by assumption. lia.
Qed.

Lemma is_digit_range (c : ascii) : is_digit c = true <-> 0 <= digit_val c < 10.
Proof.
  unfold is_digit, digit_val. rewrite andb_true_iff, !Z.leb_le. lia.
Qed.

Lemma code_inj (a b : ascii) : code a = code b -> a = b.
Proof.
  unfold code. intros H. apply Nat2Z.inj in H.
  rewrite <- (ascii_nat_embedding a), <- (ascii_nat_embedding b).
  now rewrite H.
Qed.

Lemma digit_char_digit_val (c : ascii) :
  is_digit c = true -> digit_char (digit_val c) = c.
Proof.
  intros H. apply code_inj. apply is_digit_range in H.
  rewrite code_digit_char by assumption. unfold digit_val. lia.
Qed.

Lemma digits_val_acc (ds : list ascii) (a : Z) :
  fold_left (fun acc c => 10 * acc + digit_val c) ds a
  = a * 10 ^ Z.of_nat (List.length ds) + digits_val ds.
Proof.
  unfold digits_val. revert a.
  induction ds as [|c ds IH]; intros a.
  - simpl. lia.
  - cbn [fold_left List.length]. rewrite IH, (IH (10 * 0 + digit_val c)).
    rewrite Nat2Z.inj_succ, Z.pow_succ_r by lia. ring.
Qed.

Lemma digits_val_app (a b : list ascii) :
  digits_val (a ++ b)
  = digits_val a * 10 ^ Z.of_nat (List.length b) + digits_val b.
Proof.
  unfold digits_val at 1. rewrite fold_left_app.
  fold (digits_val a). apply digits_val_acc.
Qed.

Lemma digits_val_cons (c : ascii) (ds : list ascii) :
  digits_val (c :: ds)
  = digit_val c * 10 ^ Z.of_nat (List.length ds) + digits_val ds.
Proof.
  change (c :: ds) with ([c] ++ ds). rewrite digits_val_app.
  unfold digits_val at 1. simpl fold_left. lia.
Qed.

Lemma digits_val_nonneg (ds : list ascii) :
  forallb is_digit ds = true -> 0 <= digits_val ds.
Proof.
  induction ds as [|c ds IH]; intros H; [unfold digits_val; simpl; lia|].
  simpl in H. apply andb_prop in H. destruct H as [Hc Hd].
  rewrite digits_val_cons. apply is_digit_range in Hc.
  specialize (IH Hd).
  assert (0 <= 10 ^ Z.of_nat (List.length ds)) by (apply Z.pow_nonneg; lia).
  nia.
Qed.

Lemma digits_val_zeros (n : nat) : digits_val (zeros n) = 0.
Proof.
  induction n as [|n IH]; [reflexivity|].
  unfold zeros in *. simpl repeat. rewrite digits_val_cons, IH.
  reflexivity.
Qed.

Lemma forallb_zeros (n : nat) : forallb is_digit (zeros n) = true.
Proof.
  induction n as [|n IH]; [reflexivity|]. unfold zeros in *. simpl.
  exact IH.
Qed.

Lemma length_zeros (n : nat) : List.length (zeros n) = n.
Proof. apply repeat_length. Qed.

(** The digits produced by [to_digits_fuel]. *)
Lemma to_digits_fuel_ok (fuel : nat) :
  forall n acc, 0 <= n < 10 ^ Z.of_nat fuel ->
    exists ds, to_digits_fuel fuel n acc = ds ++ acc
               /\ digits_val ds = n
               /\ forallb is_digit ds = true
               /\ (0 < n -> ds <> []).
Proof.
  induction fuel as [|f IH]; intros n acc Hn.
  - exists []. simpl in *. repeat split; auto; [unfold digits_val; simpl; lia|lia].
  - cbn [to_digits_fuel].
    assert (Hd : 0 <= n mod 10 < 10) by (apply Z.mod_pos_bound; lia).
    destruct (n <? 10) eqn:E.
    + apply Z.ltb_lt in E. exists [digit_char (n mod 10)].
      rewrite Z.mod_small by lia. repeat split.
      * unfold digits_val. simpl. rewrite digit_val_digit_char; lia.
      * simpl. rewrite is_digit_digit_char; [reflexivity|lia].
      * discriminate.
    + apply Z.ltb_ge in E.
      assert (Hq : 0 <= n / 10 < 10 ^ Z.of_nat f).
      { split; [apply Z.div_pos; lia|].
        apply Z.div_lt_upper_bound; [lia|].
        rewrite Nat2Z.inj_succ, Z.pow_succ_r in Hn; lia. }
      destruct (IH (n / 10) (digit_char (n mod 10) :: acc) Hq)
        as (ds & -> & Hv & Hall & Hne).
      exists (ds ++ [digit_char (n mod 10)]). rewrite <- app_assoc.
      repeat split.
      * rewrite digits_val_app, Hv. unfold digits_val at 1. simpl.
        rewrite digit_val_digit_char by lia.
        pose proof (Z.div_mod n 10). lia.
      * rewrite forallb_app, Hall. simpl.
        rewrite is_digit_digit_char; [reflexivity|lia].
      * intros _. destruct ds; discriminate.
Qed.

Lemma to_digits_ok (n : Z) :
  0 <= n ->
  digits_val (to_digits n) = n
  /\ forallb is_digit (to_digits n) = true
  /\ (0 < n -> to_digits n <> []).
Proof.
  intros Hn. unfold to_digits.
  assert (Hb : 0 <= n < 10 ^ Z.of_nat (S (Z.to_nat (Z.log2 n)))).
  { split; [assumption|].
    destruct (Z.eq_dec n 0) as [->|Hz].
    - apply Z.pow_pos_nonneg; lia.
    - pose proof (Z.log2_nonneg n) as Hl.
      destruct (Z.log2_spec n) as [_ Hu]; [lia|].
      rewrite Nat2Z.inj_succ, Z2Nat.id by lia.
      eapply Z.lt_le_trans; [exact Hu|].
      apply Z.pow_le_mono_l. lia. }
  destruct (to_digits_fuel_ok _ n [] Hb) as (ds & E & Hv & Hall & Hne).
  rewrite E, app_nil_r. auto.
Qed.

End Digits.

(** ** The text written by [repr] *)

Section ReprText.

Import Float.
Local Open Scope Z_scope.

Lemma digit_not_lt (c : ascii) : is_digit c = true -> not_lt c = true.
Proof.
  intros H. unfold not_lt.
  destruct (ascii_eqb c "<") eqn:E; [|reflexivity].
  apply ascii_eqb_eq in E. subst c. discriminate.
Qed.

Lemma digits_not_lt (ds : list ascii) :
  forallb is_digit ds = true -> forallb not_lt ds = true.
Proof.
  induction ds as [|c ds IH]; simpl; [reflexivity|].
  intros H. apply andb_prop in H. destruct H as [Hc Hd].
  now rewrite (digit_not_lt _ Hc), IH.
Qed.

Lemma forallb_firstn_skipn (p : ascii -> bool) (n : nat) (l : list ascii) :
  forallb p l = true ->
  forallb p (firstn n l) = true /\ forallb p (skipn n l) = true.
Proof.
  intros H. rewrite <- (firstn_skipn n l), forallb_app in H.
  now apply andb_prop in H.
Qed.

Lemma strip_zeros_rev_spec (r : list ascii) :
  exists k, r = zeros k ++ strip_zeros_rev r
            /\ (forall c t, strip_zeros_rev r = c :: t -> c <> "0"%char).
Proof.
  induction r as [|c r (k & E & H)].
  - exists 0%nat. split; [reflexivity|discriminate].
  - simpl. destruct (ascii_eqb c "0") eqn:Ec.
    + apply ascii_eqb_eq in Ec. subst c. exists (S k). split.
      * change (zeros (S k)) with ("0"%char :: zeros k).
        simpl. f_equal. exact E.
      * exact H.
    + exists 0%nat. split; [reflexivity|].
      intros c' t Et. injection Et as <- _.
      now apply ascii_eqb_neq in Ec.
Qed.

Lemma rev_zeros (k : nat) : rev (zeros k) = zeros k.
Proof.
  unfold zeros. induction k as [|k IH]; [reflexivity|].
  simpl. rewrite IH. clear IH.
  induction k as [|k IH]; [reflexivity|]. simpl. now rewrite IH.
Qed.

Lemma strip_trailing_zeros_spec (ds : list ascii) :
  exists k, ds = strip_trailing_zeros ds ++ zeros k.
Proof.
  unfold strip_trailing_zeros.
  destruct (strip_zeros_rev_spec (rev ds)) as (k & E & _).
  exists k. apply (f_equal (@rev ascii)) in E.
  rewrite rev_involutive, rev_app_distr, rev_zeros in E. exact E.
Qed.

Lemma strip_trailing_zeros_digits (ds : list ascii) :
  forallb is_digit ds = true ->
  forallb is_digit (strip_trailing_zeros ds) = true.
Proof.
  intros H. destruct (strip_trailing_zeros_spec ds) as (k & E).
  rewrite E, forallb_app in H. now apply andb_prop in H.
Qed.

Lemma strip_trailing_zeros_val (ds : list ascii) :
  exists k, ds = strip_trailing_zeros ds ++ zeros k
            /\ digits_val ds
               = digits_val (strip_trailing_zeros ds) * 10 ^ Z.of_nat k.
Proof.
  destruct (strip_trailing_zeros_spec ds) as (k & E).
  exists k. split; [exact E|].
  rewrite E at 1. rewrite digits_val_app, digits_val_zeros, length_zeros.
  lia.
Qed.

Lemma strip_trailing_zeros_not_nil (ds : list ascii) :
  0 < digits_val ds -> strip_trailing_zeros ds <> [].
Proof.
  intros H E. destruct (strip_trailing_zeros_val ds) as (k & _ & Hv).
  rewrite E in Hv. unfold digits_val at 2 in Hv. simpl in Hv. lia.
Qed.

Lemma format_exp_text (x : Z) :
  forallb not_lt (format_exp x) = true.
Proof.
  unfold format_exp.
  destruct (to_digits_ok (Z.abs x) (Z.abs_nonneg x)) as (_ & Hd & _).
  apply digits_not_lt in Hd.
  destruct (x <? 0); destruct (List.length (to_digits (Z.abs x)) <? 2)%nat;
    simpl; now rewrite Hd.
Qed.

Lemma format_digits_text (ds : list ascii) (decpt : Z) :
  forallb is_digit ds = true -> ds <> [] ->
  forallb not_lt (format_digits ds decpt) = true
  /\ format_digits ds decpt <> [].
Proof.
  intros Hd Hne. apply digits_not_lt in Hd.
  unfold format_digits.
  destruct ((decpt <=? -4) || (16 <? decpt)).
  - destruct ds as [|d [|d2 tl]]; [congruence| |].
    + split; [|discriminate]. simpl in *. apply andb_prop in Hd.
      destruct Hd as [-> _]. simpl. apply format_exp_text.
    + split; [|discriminate].
      cbn [forallb] in *. apply andb_prop in Hd. destruct Hd as [-> Hd].
      simpl. rewrite forallb_app. cbn [forallb].
      apply andb_prop in Hd. destruct Hd as [-> ->].
      simpl. apply format_exp_text.
  - destruct (decpt <=? 0).
    + split; [|discriminate]. simpl. rewrite forallb_app, Hd, andb_true_r.
      apply digits_not_lt, forallb_zeros.
    + destruct (Z.of_nat (List.length ds) <=? decpt).
      * split; [|destruct ds; [congruence|discriminate]].
        rewrite !forallb_app, Hd.
        rewrite (digits_not_lt _ (forallb_zeros _)). reflexivity.
      * split; [|intros E; apply app_eq_nil in E; destruct E; discriminate].
        destruct (forallb_firstn_skipn not_lt (Z.to_nat decpt) ds Hd)
          as [H1 H2].
        rewrite forallb_app, H1. simpl. exact H2.
Qed.

Lemma shortest_pos (m : positive) (e M E : Z) (p : nat) :
  0 < M -> 0 < fst (shortest m e M E p).
Proof.
  intros HM. induction p as [|p IH]; [exact HM|].
  cbn [shortest]. unfold candidate.
  set (P := 10 ^ Z.of_nat (S p)).
  set (E' := E + Z.of_nat (S p)).
  assert (HP : 0 < P) by (apply Z.pow_pos_nonneg; lia).
  assert (Hlo : 0 <= M / P) by (apply Z.div_pos; lia).
  clearbody P E'.
  destruct ((0 <? M / P) && reads_back m e (M / P) E') eqn:Elo.
  - apply andb_prop in Elo. destruct Elo as [Elo _]. apply Z.ltb_lt in Elo.
    destruct (reads_back m e (M / P + 1) E'); cbn [andb fst].
    + destruct ((2 * (M mod P) <? P) || (2 * (M mod P) =? P) && Z.even (M / P));
        lia.
    + lia.
  - cbn [andb].
    destruct (reads_back m e (M / P + 1) E'); cbn [fst]; [lia|exact IH].
Qed.

Lemma exact_decimal_pos (m : positive) (e : Z) : 0 < fst (exact_decimal m e).
Proof.
  unfold exact_decimal. destruct (0 <=? e) eqn:E; cbn [fst].
  - apply Z.leb_le in E.
    apply Z.mul_pos_pos; [lia|apply Z.pow_pos_nonneg; lia].
  - apply Z.leb_gt in E.
    apply Z.mul_pos_pos; [lia|apply Z.pow_pos_nonneg; lia].
Qed.

(** The text of a float is never empty and has no [<]: it is the
    enclosed text of an amount field. *)
Lemma repr_amount_text (x : float) : amount_text (repr x).
Proof.
  unfold amount_text.
  destruct x as [s|s| |s m e].
  - destruct s; split; (discriminate || reflexivity).
  - destruct s; split; (discriminate || reflexivity).
  - split; (discriminate || reflexivity).
  - unfold repr.
    pose proof (exact_decimal_pos m e) as HM.
    destruct (exact_decimal m e) as [M E]. simpl in HM.
    pose proof (shortest_pos m e M E
                  (pred (List.length (to_digits M))) HM) as Hc.
    destruct (shortest m e M E (pred (List.length (to_digits M)))) as [c E'].
    simpl in Hc.
    destruct (to_digits_ok c) as (Hv & Hd & _); [lia|].
    destruct (format_digits_text (strip_trailing_zeros (to_digits c))
                (Z.of_nat (List.length (to_digits c)) + E')) as [H1 H2].
    + now apply strip_trailing_zeros_digits.
    + apply strip_trailing_zeros_not_nil. lia.
    + destruct s; simpl; split; auto. discriminate.
Qed.

End ReprText.

(** ** The structure of [convert_qfx] *)

Lemma starts_fid : starts fid_span is_F.
Proof.
  intros w w' [-> ->]. now exists "F"%char, (str "ID>12139</FID>"), (str "ID>10898</FID>").
Qed.

Lemma starts_bid : starts bid_span is_I.
Proof.
  intros w w' [-> ->].
  now exists "I"%char, (str "NTU.BID>12139</INTU.BID>"),
             (str "NTU.BID>10898</INTU.BID>").
Qed.

Lemma starts_amt : starts amt_span is_T.
Proof.
  intros w w' (t & v & _ & _ & -> & ->).
  now exists "T"%char, (str "RNAMT>" ++ t ++ str "</TRNAMT>"),
             (str "RNAMT>" ++ Float.repr (Float.neg v) ++ str "</TRNAMT>").
Qed.

Lemma starts_or (A B : list ascii -> list ascii -> Prop) (PA PB : ascii -> bool) :
  starts A PA -> starts B PB ->
  starts (fun w w' => A w w' \/ B w w') (fun c => PA c || PB c).
Proof.
  intros HA HB w w' [H|H].
  - destruct (HA _ _ H) as (c & u & u' & -> & -> & Hp).
    exists c, u, u'. now rewrite Hp.
  - destruct (HB _ _ H) as (c & u & u' & -> & -> & Hp).
    exists c, u, u'. rewrite Hp. now rewrite orb_true_r.
Qed.

Lemma safe_amt_field (P : ascii -> bool) (t : list ascii) :
  P "T"%char = false -> P "/"%char = false ->
  forallb not_lt t = true -> safe P (amt_field t) = true.
Proof.
  intros HT Hs Ht. unfold amt_field.
  apply safe_app; [simpl; now rewrite HT|].
  apply safe_app; [now apply safe_no_lt|].
  simpl. now rewrite Hs.
Qed.

Lemma amt_span_safe (P : ascii -> bool) (w w' : list ascii) :
  P "T"%char = false -> P "/"%char = false ->
  amt_span w w' -> safe P w = true /\ safe P w' = true.
Proof.
  intros HT Hs (t & v & [_ Ht] & _ & -> & ->). split.
  - now apply safe_amt_field.
  - apply safe_amt_field; auto. apply repr_amount_text.
Qed.

Lemma starts_field_span : starts field_span is_FIT.
Proof.
  unfold field_span, is_FIT, is_FI.
  apply (starts_or _ _ _ _ (starts_or _ _ _ _ starts_fid starts_bid) starts_amt).
Qed.

(** The converted document is the input with exactly the institution
    fields [12139] and the amount fields rewritten. *)
Lemma convert_rewrites (D D' : document) :
  convert_qfx D = Ok D' -> rewrites field_span D D'.
Proof.
  unfold convert_qfx. intros H.
  set (D1 := sub FID_12139_re (str "<FID>10898</FID>") D) in *.
  set (D2 := sub INTU_BID_12139_re (str "<INTU.BID>10898</INTU.BID>") D1) in *.
  assert (H1 : rewrites fid_span D D1)
    by (apply sub_Str_rewrites; discriminate).
  assert (H2 : rewrites bid_span D1 D2)
    by (apply sub_Str_rewrites; discriminate).
  apply sub_fn_rewrites in H.
  assert (H12 : rewrites (fun w w' => fid_span w w' \/ bid_span w w') D D2).
  { apply (rewrites_compose fid_span bid_span is_F is_I
             starts_fid starts_bid) with (s1 := D1); auto.
    - intros w w' [_ ->]. reflexivity.
    - intros w w' [-> _]. reflexivity. }
  apply (rewrites_compose _ amt_span (fun c => is_F c || is_I c) is_T
           (starts_or _ _ _ _ starts_fid starts_bid) starts_amt)
    with (s1 := D2); auto.
  - intros w w' [[_ ->]|[_ ->]]; reflexivity.
  - intros w w' Hs. now apply (amt_span_safe _ w w').
Qed.

Lemma TRNAMT_local :
  forall (P : ascii -> bool), P "T"%char = false -> P "/"%char = false ->
  forall s g rest, match_at TRNAMT_re s = Some (g, rest) ->
    exists w, s = w ++ rest
      /\ (exists c u, w = "<"%char :: c :: u /\ is_T c = true)
      /\ safe P w = true
      /\ forall rest', match_at TRNAMT_re (w ++ rest') = Some (g, rest').
Proof.
  intros P HT Hs s g rest H. apply match_TRNAMT in H.
  destruct H as (body & -> & Hp & Hne & ->).
  exists (amt_field body). repeat split.
  - now exists "T"%char, (str "RNAMT>" ++ body ++ str "</TRNAMT>").
  - now apply safe_amt_field.
  - intros rest'. apply match_TRNAMT. now exists body.
Qed.

Lemma STMTTRN_local :
  forall s g rest, match_at STMTTRN_re s = Some (g, rest) ->
    exists w, s = w ++ rest
      /\ (exists c u, w = "<"%char :: c :: u /\ is_S c = true)
      /\ safe is_FIT w = true
      /\ forall rest', match_at STMTTRN_re (w ++ rest') = Some (g, rest').
Proof.
  intros s g rest H. apply match_Str in H. destruct H as [-> ->].
  exists (str "<STMTTRN>"). split; [reflexivity|].
  split; [now exists "S"%char, (str "TMTTRN>")|].
  split; [reflexivity|].
  intros rest'. now apply match_Str.
Qed.

Lemma field_span_safe_S (w w' : list ascii) :
  field_span w w' -> safe is_S w = true /\ safe is_S w' = true.
Proof.
  intros [[[-> ->]|[-> ->]]|H]; [split; reflexivity..|].
  now apply (amt_span_safe is_S w w').
Qed.

(** The transaction markers are the same before and after. *)
Lemma convert_STMTTRN (D D' : document) :
  convert_qfx D = Ok D' ->
  findall STMTTRN_re D' = findall STMTTRN_re D.
Proof.
  intros H. apply convert_rewrites in H. unfold findall. symmetry.
  apply (hits_rewrites STMTTRN_re is_S field_span is_FIT
           starts_field_span field_span_safe_S STMTTRN_local _ _ H).
Qed.

(** What [sub_fn] does, as a function of the amounts found. *)
Lemma sub_tokens_mapM (ts : list token) :
  match mapM Float.of_string (hits ts) with
  | Ok _ => exists out, sub_tokens reverse_amount ts = Ok out
  | Raise e => sub_tokens reverse_amount ts = Raise e
  end.
Proof.
  induction ts as [|[c|w g] ts IH]; cbn [hits sub_tokens mapM].
  - now exists [].
  - destruct (mapM Float.of_string (hits ts)).
    + destruct IH as (out & ->). now exists (c :: out).
    + now rewrite IH.
  - assert (Er : reverse_amount (reported w g)
                 = bind (Float.of_string (reported w g))
                     (fun v => Ok (amt_field (Float.repr (Float.neg v)))))
      by reflexivity.
    rewrite Er.
    destruct (Float.of_string (reported w g)) as [v|e]; cbn [bind];
      [|reflexivity].
    destruct (mapM Float.of_string (hits ts)); cbn [bind].
    + destruct IH as (out & ->). cbn [bind]. eexists. reflexivity.
    + now rewrite IH.
Qed.

Lemma findall_sub_fn :
  forall s s', sub_fn TRNAMT_re reverse_amount s = Ok s' ->
    exists vs, mapM Float.of_string (findall TRNAMT_re s) = Ok vs
               /\ findall TRNAMT_re s'
                  = map (fun v => Float.repr (Float.neg v)) vs.
Proof.
  assert (Hind : forall n s s', List.length s <= n ->
            sub_fn TRNAMT_re reverse_amount s = Ok s' ->
            exists vs, mapM Float.of_string (findall TRNAMT_re s) = Ok vs
               /\ findall TRNAMT_re s'
                  = map (fun v => Float.repr (Float.neg v)) vs).
  { induction n as [|n IH]; intros s s' Hn H.
    - destruct s; [|simpl in Hn; lia].
      cbv in H. injection H as <-. now exists [].
    - pose proof (sub_fn_rewrites _ _ H) as Hrw.
      destruct (match_at TRNAMT_re s) as [[g rest]|] eqn:E.
      + pose proof E as E'. apply match_TRNAMT in E'.
        destruct E' as (body & -> & Hp & Hne & ->).
        unfold sub_fn in H.
        rewrite (tokens_hit _ _ _ _ (amt_field_not_nil body) E) in H.
        cbn [sub_tokens reported] in H.
        apply bind_Ok in H. destruct H as (new & Hnew & H).
        apply bind_Ok in H. destruct H as (out & Hout & H).
        injection H as <-.
        apply reverse_amount_Ok in Hnew. destruct Hnew as (v & Hv & ->).
        destruct (IH rest out) as (vs & Hvs & Hf); [|exact Hout|].
        { rewrite length_app in Hn. unfold amt_field in Hn.
          rewrite length_app in Hn. simpl in Hn. lia. }
        exists (v :: vs). unfold findall in *.
        rewrite (tokens_hit _ _ _ _ (amt_field_not_nil body) E).
        cbn [hits reported mapM]. rewrite Hv, Hvs. cbn [bind]. split; auto.
        assert (E2 : match_at TRNAMT_re
                       (amt_field (Float.repr (Float.neg v)) ++ out)
                     = Some (Some (Float.repr (Float.neg v)), out)).
        { apply match_TRNAMT. exists (Float.repr (Float.neg v)).
          destruct (repr_amount_text (Float.neg v)). auto. }
        rewrite (tokens_hit _ _ _ _ (amt_field_not_nil _) E2).
        cbn [hits reported map]. now rewrite Hf.
      + destruct s as [|c s]; [cbv in H; injection H as <-; now exists []|].
        unfold sub_fn in H. rewrite (tokens_lit _ _ _ E) in H.
        cbn [sub_tokens] in H.
        apply bind_Ok in H. destruct H as (out & Hout & H).
        injection H as <-.
        destruct (IH s out) as (vs & Hvs & Hf); [simpl in Hn; lia|exact Hout|].
        exists vs. unfold findall in *.
        rewrite (tokens_lit _ _ _ E). cbn [hits]. split; [exact Hvs|].
        assert (E' : match_at TRNAMT_re (c :: out) = None).
        { destruct (match_at TRNAMT_re (c :: out)) as [[g rest']|] eqn:E';
            [|reflexivity].
          exfalso. apply match_TRNAMT in E'.
          destruct E' as (body & Eb & Hp & Hne & ->).
          change (amt_field body ++ rest')
            with ("<"%char :: amt_tail body ++ rest') in Eb.
          injection Eb as -> ->.
          apply sub_fn_rewrites in Hout.
          assert (Hsafe : safe is_T (amt_tail body) = true).
          { apply (safe_app is_T (str "TRNAMT>")); [reflexivity|].
            apply safe_app; [now apply safe_no_lt|reflexivity]. }
          destruct (peel_new _ _ starts_amt (amt_tail body) Hsafe _ _ Hout)
            as (t0 & -> & _).
          assert (Em : match_at TRNAMT_re (amt_field body ++ t0)
                       = Some (Some body, t0)).
          { apply match_TRNAMT. now exists body. }
          change (amt_field body ++ t0)
            with ("<"%char :: amt_tail body ++ t0) in Em.
          rewrite Em in E. discriminate. }
        rewrite (tokens_lit _ _ _ E'). cbn [hits]. exact Hf. }
  intros s s'. now apply (Hind (List.length s)).
Qed.

(** ** Rounding to binary64 *)

Section Rounding.

Import Float.
Local Open Scope Z_scope.

Lemma digits2_size (p : positive) : digits2_pos p = Pos.size p.
Proof.
  induction p as [p IH|p IH|]; simpl; [now rewrite IH..|reflexivity].
Qed.

Lemma digits2_log2 (p : positive) : Zpos (digits2_pos p) = Z.log2 (Zpos p) + 1.
Proof.
  rewrite digits2_size. destruct p as [p|p|]; simpl; try reflexivity;
    rewrite Pos.add_1_r; destruct p; reflexivity.
Qed.

Lemma bounded_iff (m : positive) (e : Z) :
  bounded prec emax m e = true <->
  Z.max (Z.log2 (Zpos m) + 1 + e - 53) (-1074) = e /\ e <= 971.
Proof.
  unfold bounded, canonical_mantissa, fexp, emin, prec, emax.
  rewrite andb_true_iff, Z.eqb_eq, Z.leb_le, digits2_log2.
  replace (3 - 1024 - 53) with (-1074) by reflexivity.
  replace (1024 - 53) with 971 by reflexivity. reflexivity.
Qed.

Lemma round_pos_exact (sign : bool) (n d : Z) (m : positive) (e : Z) :
  0 < n -> 0 < d ->
  bounded prec emax m e = true ->
  n * 2 ^ Z.max (- e) 0 = Zpos m * 2 ^ Z.max e 0 * d ->
  round_pos sign n d = S754_finite sign m e.
Proof.
  intros Hn Hd Hb Hv. apply bounded_iff in Hb. destruct Hb as [Hcan He].
  pose proof (Z.log2_nonneg (Zpos m)) as Hlm.
  assert (He' : -1074 <= e) by lia.
  unfold round_pos.
  set (K := Z.log2_up d + 1074).
  assert (HK : 1074 <= K) by (pose proof (Z.log2_up_nonneg d); lia).
  assert (Ha : n * 2 ^ K = Zpos m * (d * 2 ^ (e + K))).
  { replace K with (Z.max (- e) 0 + (K - Z.max (- e) 0)) at 1 by lia.
    rewrite Z.pow_add_r by lia. rewrite Z.mul_assoc, Hv.
    replace (e + K) with (Z.max e 0 + (K - Z.max (- e) 0)) by lia.
    rewrite (Z.pow_add_r 2 (Z.max e 0)) by lia. ring. }
  assert (Hp : 0 < 2 ^ (e + K)) by (apply Z.pow_pos_nonneg; lia).
  assert (HW : n * 2 ^ K / d = Zpos m * 2 ^ (e + K)).
  { rewrite Ha. replace (Zpos m * (d * 2 ^ (e + K)))
      with (Zpos m * 2 ^ (e + K) * d) by ring.
    apply Z.div_mul. lia. }
  rewrite HW.
  assert (HL : Z.log2 (Zpos m * 2 ^ (e + K)) = e + K + Z.log2 (Zpos m)).
  { apply Z.log2_mul_pow2; lia. }
  rewrite HL.
  replace (Z.max (e + K + Z.log2 (Zpos m) - 52) (K - 1074)) with (e + K) by lia.
  rewrite Ha.
  assert (Hbpos : 0 < d * 2 ^ (e + K)) by (apply Z.mul_pos_pos; lia).
  rewrite Z.div_mul by lia. rewrite Z.mod_mul by lia.
  replace (d * 2 ^ (e + K) <? 2 * 0) with false
    by (symmetry; apply Z.ltb_ge; lia).
  replace (2 * 0 =? d * 2 ^ (e + K)) with false
    by (symmetry; apply Z.eqb_neq; lia).
  cbn [orb andb].
  assert (Hm53 : Zpos m < 2 ^ 53).
  { apply Z.log2_lt_pow2; lia. }
  replace (Zpos m =? 2 ^ 53) with false by (symmetry; apply Z.eqb_neq; lia).
  cbn [fst snd].
  replace (Zpos m =? 0) with false by reflexivity.
  replace (e + K - K) with e by lia.
  replace (971 <? e) with false by (symmetry; apply Z.ltb_ge; lia).
  reflexivity.
Qed.

Lemma log2_up_bound (d : Z) : 0 < d -> d <= 2 ^ Z.log2_up d.
Proof.
  intros Hd. destruct (Z.eq_dec d 1) as [->|H1]; [simpl; lia|].
  apply Z.log2_up_spec. lia.
Qed.

Lemma finite_valid (sign : bool) (m e : Z) :
  0 < m -> m < 2 ^ 53 -> -1074 <= e <= 971 ->
  (2 ^ 52 <= m \/ e = -1074) ->
  valid (S754_finite sign (Z.to_pos m) e).
Proof.
  intros Hm Hm53 He Hc. unfold valid, valid_binary.
  apply bounded_iff. rewrite Z2Pos.id by lia. split; [|lia].
  assert (Hl : Z.log2 m < 53) by (apply Z.log2_lt_pow2; lia).
  destruct Hc as [Hc| ->]; [|lia].
  assert (52 <= Z.log2 m) by (apply Z.log2_le_pow2; lia). lia.
Qed.

(** The result of rounding is a float of binary64. *)
Lemma round_pos_valid (sign : bool) (n d : Z) :
  0 < n -> 0 < d -> valid (round_pos sign n d).
Proof.
  intros Hn Hd. unfold round_pos.
  set (K := Z.log2_up d + 1074).
  set (a := n * 2 ^ K).
  set (W := a / d).
  set (st := Z.max (Z.log2 W - 52) (K - 1074)).
  set (b := d * 2 ^ st).
  set (q := a / b).
  set (up := (b <? 2 * (a mod b)) || (2 * (a mod b) =? b) && Z.odd q).
  set (m := if up then q + 1 else q).
  assert (HK : 1074 <= K) by (pose proof (Z.log2_up_nonneg d); lia).
  assert (HdK : d <= 2 ^ K).
  { pose proof (log2_up_bound d Hd) as H.
    assert (2 ^ Z.log2_up d <= 2 ^ K) by (apply Z.pow_le_mono_r; lia). lia. }
  assert (HW1 : 1 <= W).
  { unfold W. apply Z.div_le_lower_bound; [lia|]. unfold a. nia. }
  destruct (Z.log2_spec W) as [HL1 HL2]; [lia|].
  pose proof (Z.log2_nonneg W) as HL0.
  assert (Hst : 0 <= st) by lia.
  assert (Hpst : 0 < 2 ^ st) by (apply Z.pow_pos_nonneg; lia).
  assert (Hq : q = W / 2 ^ st).
  { unfold q, b, W. symmetry. apply Z.div_div; lia. }
  assert (Hq0 : 0 <= q).
  { rewrite Hq. apply Z.div_pos; lia. }
  assert (Hm : q <= m <= q + 1) by (unfold m; destruct up; lia).
  assert (Hcase : (st = Z.log2 W - 52 /\ 2 ^ 52 <= q < 2 ^ 53)
                  \/ (st = K - 1074 /\ q < 2 ^ 52)).
  { destruct (Z.le_gt_cases (K - 1074) (Z.log2 W - 52)) as [Hc|Hc].
    - left. split; [lia|]. rewrite Hq.
      replace st with (Z.log2 W - 52) by lia.
      assert (E1 : 2 ^ Z.log2 W = 2 ^ 52 * 2 ^ (Z.log2 W - 52)).
      { rewrite <- Z.pow_add_r by lia. f_equal. lia. }
      assert (E2 : 2 ^ Z.succ (Z.log2 W) = 2 ^ 53 * 2 ^ (Z.log2 W - 52)).
      { rewrite <- Z.pow_add_r by lia. f_equal. lia. }
      assert (0 < 2 ^ (Z.log2 W - 52)) by (apply Z.pow_pos_nonneg; lia).
      split.
      + apply Z.div_le_lower_bound; lia.
      + apply Z.div_lt_upper_bound; lia.
    - right. split; [lia|]. rewrite Hq.
      replace st with (K - 1074) by lia.
      assert (0 < 2 ^ (K - 1074)) by (apply Z.pow_pos_nonneg; lia).
      apply Z.div_lt_upper_bound; [lia|].
      assert (Hle : 2 ^ Z.succ (Z.log2 W) <= 2 ^ (K - 1074 + 52))
        by (apply Z.pow_le_mono_r; lia).
      rewrite Z.pow_add_r in Hle by lia.
      rewrite Z.mul_comm. lia. }
  assert (H5253 : 2 ^ 53 = 2 * 2 ^ 52) by reflexivity.
  destruct (m =? 2 ^ 53) eqn:E53; cbn [fst snd].
  - change (2 ^ 52 =? 0) with false. cbv iota.
    destruct (971 <? st - K + 1) eqn:Ee; [reflexivity|].
    apply Z.ltb_ge in Ee.
    apply finite_valid; [reflexivity|reflexivity|lia|left; lia].
  - apply Z.eqb_neq in E53.
    destruct (m =? 0) eqn:E0; [reflexivity|]. apply Z.eqb_neq in E0.
    destruct (971 <? st - K) eqn:Ee; [reflexivity|].
    apply Z.ltb_ge in Ee.
    apply finite_valid; [lia| |lia|].
    + destruct Hcase as [[_ Hc]|[_ Hc]]; lia.
    + destruct Hcase as [[_ Hc]|[Hc _]]; [left; lia|right; lia].
Qed.

End Rounding.

(** ** Decimals that read as a given float *)

Section Decimals.

Import Float.
Local Open Scope Z_scope.

Lemma pow10_pos (k : Z) : 0 < 10 ^ Z.max k 0.
Proof. apply Z.pow_pos_nonneg; lia. Qed.

Lemma dec_value_num (M E : Z) : Qnum (dec_value M E) = M * 10 ^ Z.max E 0.
Proof. reflexivity. Qed.

Lemma dec_value_den (M E : Z) :
  Zpos (Qden (dec_value M E)) = 10 ^ Z.max (- E) 0.
Proof.
  unfold dec_value. cbn [Qden]. apply Z2Pos.id. apply pow10_pos.
Qed.

Lemma Qred_num_pos (v : Q) : 0 < Qnum v -> 0 < Qnum (Qred v).
Proof.
  intros H. pose proof (Qred_correct v) as E. unfold Qeq in E.
  assert (0 < Qnum v * Zpos (Qden (Qred v))) by (apply Z.mul_pos_pos; lia).
  assert (Hp : 0 < Zpos (Qden v)) by lia. nia.
Qed.

Lemma of_decimal_valid (sign : bool) (M E : Z) :
  0 <= M -> valid (of_decimal sign M E).
Proof.
  intros HM. unfold of_decimal. destruct (M =? 0) eqn:E0; [reflexivity|].
  apply Z.eqb_neq in E0. apply round_pos_valid; [|lia].
  apply Qred_num_pos. rewrite dec_value_num.
  apply Z.mul_pos_pos; [lia|apply pow10_pos].
Qed.

(** Two decimals with the same value read as the same float. *)
Lemma of_decimal_Qeq (sign : bool) (M1 E1 M2 E2 : Z) :
  0 < M1 -> 0 < M2 ->
  Qeq (dec_value M1 E1) (dec_value M2 E2) ->
  of_decimal sign M1 E1 = of_decimal sign M2 E2.
Proof.
  intros H1 H2 Hq. unfold of_decimal.
  replace (M1 =? 0) with false by (symmetry; apply Z.eqb_neq; lia).
  replace (M2 =? 0) with false by (symmetry; apply Z.eqb_neq; lia).
  now rewrite (Qred_complete _ _ Hq).
Qed.

Lemma dec_value_shift (M E : Z) (k : nat) :
  Qeq (dec_value (M * 10 ^ Z.of_nat k) E) (dec_value M (E + Z.of_nat k)).
Proof.
  unfold Qeq. rewrite !dec_value_num, !dec_value_den.
  assert (Hk : 0 <= Z.of_nat k) by lia.
  rewrite <- !Z.mul_assoc. f_equal.
  rewrite <- !Z.pow_add_r by lia. f_equal. lia.
Qed.

Lemma round_pos_sign (sign : bool) (n d : Z) (m : positive) (e : Z) :
  round_pos false n d = S754_finite false m e ->
  round_pos sign n d = S754_finite sign m e.
Proof.
  unfold round_pos.
  set (me := if _ =? 2 ^ 53 then _ else _).
  destruct (fst me =? 0); [discriminate|].
  destruct (971 <? snd me); [discriminate|].
  intros H. injection H as <- <-. reflexivity.
Qed.

Lemma reads_back_spec (m : positive) (e c E : Z) :
  reads_back m e c E = true ->
  forall sign, of_decimal sign c E = S754_finite sign m e.
Proof.
  unfold reads_back. intros H sign.
  destruct (of_decimal false c E) as [| | |s m' e'] eqn:Eo; try discriminate.
  apply andb_prop in H. destruct H as [Hm He].
  apply Pos.eqb_eq in Hm. apply Z.eqb_eq in He. subst m' e'.
  unfold of_decimal in *. destruct (c =? 0); [discriminate|].
  apply round_pos_sign.
  assert (s = false); [|now subst].
  unfold round_pos in Eo.
  set (me := if _ =? 2 ^ 53 then _ else _) in Eo.
  destruct (fst me =? 0); [discriminate|].
  destruct (971 <? snd me); [discriminate|].
  now injection Eo.
Qed.

(** The exact decimal of a float reads as the float. *)
Lemma exact_decimal_reads (sign : bool) (m : positive) (e : Z) :
  bounded prec emax m e = true ->
  of_decimal sign (fst (exact_decimal m e)) (snd (exact_decimal m e))
  = S754_finite sign m e.
Proof.
  intros Hb. pose proof (exact_decimal_pos m e) as HM.
  unfold of_decimal.
  replace (fst (exact_decimal m e) =? 0) with false
    by (symmetry; apply Z.eqb_neq; lia).
  set (v := dec_value (fst (exact_decimal m e)) (snd (exact_decimal m e))).
  assert (Hnum : 0 < Qnum v).
  { unfold v. rewrite dec_value_num.
    apply Z.mul_pos_pos; [lia|apply pow10_pos]. }
  apply round_pos_exact; [now apply Qred_num_pos|lia|exact Hb|].
  pose proof (Qred_correct v) as Eq. unfold Qeq in Eq.
  unfold v in Eq at 2 3. rewrite dec_value_num, dec_value_den in Eq.
  unfold exact_decimal in Eq. destruct (0 <=? e) eqn:Ee; cbn [fst snd] in Eq.
  - apply Z.leb_le in Ee.
    replace (Z.max (- e) 0) with 0 by lia.
    replace (Z.max e 0) with e by lia.
    change (Z.max 0 0) with 0 in Eq. change (Z.max (- 0) 0) with 0 in Eq.
    rewrite Z.pow_0_r in *. lia.
  - apply Z.leb_gt in Ee.
    replace (Z.max (- e) 0) with (- e) in * by lia.
    replace (Z.max e 0) with 0 in * by lia.
    rewrite Z.pow_0_r in *.
    replace (10 ^ (- e)) with (2 ^ (- e) * 5 ^ (- e)) in Eq
      by (rewrite <- Z.pow_mul_l; reflexivity).
    assert (H5 : 0 < 5 ^ (- e)) by (apply Z.pow_pos_nonneg; lia).
    apply (Z.mul_reg_r _ _ (5 ^ (- e))); [lia|]. lia.
Qed.

(** The decimal chosen by [shortest] is positive and reads as the
    float. *)
Lemma shortest_reads (m : positive) (e M E : Z) (p : nat) :
  0 < M ->
  (forall sign, of_decimal sign M E = S754_finite sign m e) ->
  0 < fst (shortest m e M E p)
  /\ forall sign,
       of_decimal sign (fst (shortest m e M E p)) (snd (shortest m e M E p))
       = S754_finite sign m e.
Proof.
  intros HM HE. split; [now apply shortest_pos|].
  induction p as [|p IH]; [exact HE|].
  cbn [shortest]. unfold candidate.
  set (P := 10 ^ Z.of_nat (S p)).
  set (E' := E + Z.of_nat (S p)).
  clearbody P E'.
  destruct ((0 <? M / P) && reads_back m e (M / P) E') eqn:Elo.
  - apply andb_prop in Elo. destruct Elo as [_ Elo].
    destruct (reads_back m e (M / P + 1) E') eqn:Ehi; cbn [andb fst snd].
    + destruct ((2 * (M mod P) <? P) || (2 * (M mod P) =? P) && Z.even (M / P));
        cbn [fst snd]; now apply reads_back_spec.
    + now apply reads_back_spec.
  - cbn [andb].
    destruct (reads_back m e (M / P + 1) E') eqn:Ehi; cbn [fst snd];
      [now apply reads_back_spec|exact IH].
Qed.

End Decimals.

(** ** Reading back the text of a number *)

Section ReadBack.

Import Float.
Local Open Scope Z_scope.

Lemma digit_num_char (c : ascii) : is_digit c = true -> num_char c = true.
Proof. intros H. unfold num_char. now rewrite H. Qed.

Lemma digits_num_char (ds : list ascii) :
  forallb is_digit ds = true -> forallb num_char ds = true.
Proof.
  induction ds as [|c ds IH]; simpl; [reflexivity|].
  intros H. apply andb_prop in H. destruct H as [Hc Hd].
  now rewrite (digit_num_char _ Hc), IH.
Qed.

(** A character is determined by its code; the classes below are decided
    on the code. *)
Lemma num_char_plain (c : ascii) :
  num_char c = true ->
  is_space c = false /\ ascii_eqb c "_" = false.
Proof.
  unfold num_char, is_space, is_digit. intros H.
  repeat (apply orb_prop in H; destruct H as [H|H]).
  - apply andb_prop in H. destruct H as [H1 H2].
    apply Z.leb_le in H1. apply Z.leb_le in H2. split.
    + repeat (apply orb_false_intro); try (apply Z.eqb_neq; lia).
      apply andb_false_intro2. apply Z.leb_gt. lia.
    + apply ascii_eqb_neq. intros ->. cbv in H2. congruence.
  - apply ascii_eqb_eq in H. subst c. split; reflexivity.
  - apply ascii_eqb_eq in H. subst c. split; reflexivity.
  - apply ascii_eqb_eq in H. subst c. split; reflexivity.
  - apply ascii_eqb_eq in H. subst c. split; reflexivity.
Qed.

Lemma lstrip_plain (t : list ascii) :
  forallb num_char t = true -> lstrip t = t.
Proof.
  destruct t as [|c t]; [reflexivity|]. simpl. intros H.
  apply andb_prop in H. destruct H as [Hc _].
  destruct (num_char_plain c Hc) as [-> _]. reflexivity.
Qed.

Lemma forallb_rev (p : ascii -> bool) (t : list ascii) :
  forallb p t = true -> forallb p (rev t) = true.
Proof.
  intros H. apply forallb_forall. intros x Hx. apply in_rev in Hx.
  rewrite forallb_forall in H. now apply H.
Qed.

Lemma strip_plain (t : list ascii) :
  forallb num_char t = true -> strip t = t.
Proof.
  intros H. unfold strip. rewrite (lstrip_plain t H).
  rewrite (lstrip_plain (rev t)) by now apply forallb_rev.
  apply rev_involutive.
Qed.

Lemma underscores_ok_plain (t : list ascii) :
  forallb num_char t = true -> forall b, underscores_ok b t = true.
Proof.
  induction t as [|c t IH]; intros H b; [reflexivity|].
  simpl in H. apply andb_prop in H. destruct H as [Hc Ht].
  cbn [underscores_ok]. destruct (num_char_plain c Hc) as [_ ->].
  now apply IH.
Qed.

Lemma remove_underscores_plain (t : list ascii) :
  forallb num_char t = true -> remove_underscores t = t.
Proof.
  induction t as [|c t IH]; intros H; [reflexivity|].
  simpl in H. apply andb_prop in H. destruct H as [Hc Ht].
  unfold remove_underscores in *. cbn [filter].
  destruct (num_char_plain c Hc) as [_ ->]. cbn [negb]. now rewrite IH.
Qed.

Lemma span_digits_app (ds rest : list ascii) :
  forallb is_digit ds = true ->
  match rest with
  | [] => True
  | c :: _ => is_digit c = false
  end ->
  span_digits (ds ++ rest) = (ds, rest).
Proof.
  intros Hd Hr. induction ds as [|c ds IH].
  - simpl. destruct rest as [|c rest]; [reflexivity|].
    simpl. now rewrite Hr.
  - simpl in Hd. apply andb_prop in Hd. destruct Hd as [Hc Hd].
    simpl. rewrite Hc, (IH Hd). reflexivity.
Qed.

Lemma span_digits_all (ds : list ascii) :
  forallb is_digit ds = true -> span_digits ds = (ds, []).
Proof.
  intros H. rewrite <- (app_nil_r ds) at 1. now apply span_digits_app.
Qed.

Lemma digits_val_lead0 (ds : list ascii) :
  digits_val ("0"%char :: ds) = digits_val ds.
Proof. rewrite digits_val_cons. reflexivity. Qed.

(** The exponent written by [format_exp] reads as the exponent. *)
Lemma format_exp_reads (x : Z) :
  exists (es : bool) (ed : list ascii), format_exp x = (if es then "-"%char else "+"%char) :: ed
                /\ forallb is_digit ed = true /\ ed <> []
                /\ (if es then - digits_val ed else digits_val ed) = x.
Proof.
  unfold format_exp.
  destruct (to_digits_ok (Z.abs x) (Z.abs_nonneg x)) as (Hv & Hd & Hne).
  exists (x <? 0).
  destruct (List.length (to_digits (Z.abs x)) <? 2)%nat eqn:El.
  - exists ("0"%char :: to_digits (Z.abs x)). repeat split.
    + simpl. exact Hd.
    + discriminate.
    + rewrite digits_val_lead0, Hv.
      destruct (x <? 0) eqn:E; [apply Z.ltb_lt in E|apply Z.ltb_ge in E]; lia.
  - exists (to_digits (Z.abs x)). repeat split; auto.
    + intros E0. rewrite E0 in El. discriminate.
    + rewrite Hv.
      destruct (x <? 0) eqn:E; [apply Z.ltb_lt in E|apply Z.ltb_ge in E]; lia.
Qed.

End ReadBack.

Section ParseNumber.
Import Float.
Local Open Scope Z_scope.

Lemma parse_number_point (ip fp : list ascii) :
  forallb is_digit ip = true -> forallb is_digit fp = true ->
  ip <> [] ->
  parse_number (ip ++ "."%char :: fp)
  = Some (digits_val (ip ++ fp), - Z.of_nat (List.length fp)).
Proof.
  intros Hi Hf Hne. unfold parse_number.
  rewrite (span_digits_app ip ("."%char :: fp) Hi eq_refl).
  cbn [ascii_eqb Ascii.eqb Bool.eqb]. cbv iota beta.
  rewrite (span_digits_all fp Hf).
  destruct ip as [|c ip]; [congruence|]. reflexivity.
Qed.

Lemma parse_sign_char (es : bool) (ed : list ascii) :
  parse_sign (sign_char es :: ed) = (es, ed).
Proof. destruct es; reflexivity. Qed.

Lemma parse_number_point_exp (ip fp : list ascii) (es : bool) (ed : list ascii) :
  forallb is_digit ip = true -> forallb is_digit fp = true ->
  forallb is_digit ed = true -> ip <> [] -> ed <> [] ->
  parse_number (ip ++ "."%char :: fp ++ "e"%char :: sign_char es :: ed)
  = Some (digits_val (ip ++ fp),
          (if es then - digits_val ed else digits_val ed)
          - Z.of_nat (List.length fp)).
Proof.
  intros Hi Hf He Hne Hne'. unfold parse_number.
  rewrite (span_digits_app ip ("."%char :: fp ++ "e"%char :: sign_char es :: ed)
             Hi eq_refl).
  cbn [ascii_eqb Ascii.eqb Bool.eqb]. cbv iota beta.
  rewrite (span_digits_app fp ("e"%char :: sign_char es :: ed) Hf eq_refl).
  destruct ip as [|c ip]; [congruence|]. cbn [app]. cbv iota beta.
  cbn [ascii_eqb Ascii.eqb Bool.eqb orb]. cbv iota beta.
  rewrite parse_sign_char, (span_digits_all ed He).
  destruct ed; [congruence|reflexivity].
Qed.

Lemma parse_number_exp (ip : list ascii) (es : bool) (ed : list ascii) :
  forallb is_digit ip = true ->
  forallb is_digit ed = true -> ip <> [] -> ed <> [] ->
  parse_number (ip ++ "e"%char :: sign_char es :: ed)
  = Some (digits_val ip, if es then - digits_val ed else digits_val ed).
Proof.
  intros Hi He Hne Hne'. unfold parse_number.
  rewrite (span_digits_app ip ("e"%char :: sign_char es :: ed) Hi eq_refl).
  cbn [ascii_eqb Ascii.eqb Bool.eqb]. cbv iota beta.
  rewrite app_nil_r.
  destruct ip as [|c ip]; [congruence|]. cbv iota beta.
  cbn [ascii_eqb Ascii.eqb Bool.eqb orb]. cbv iota beta.
  rewrite parse_sign_char, (span_digits_all ed He).
  destruct ed; [congruence|]. cbn [List.length Z.of_nat].
  f_equal. f_equal. lia.
Qed.

End ParseNumber.

Section FormatDigits.

Import Float.
Local Open Scope Z_scope.

Lemma length_firstn_skipn (A : Type) (k : nat) (l : list A) :
  (k <= List.length l)%nat ->
  List.length (firstn k l) = k
  /\ List.length (skipn k l) = (List.length l - k)%nat.
Proof.
  intros H. rewrite length_firstn, length_skipn. lia.
Qed.

(** What [format_digits] writes is read by [parse_number] as the same
    decimal. *)
Lemma format_digits_reads (ds : list ascii) (decpt : Z) :
  forallb is_digit ds = true -> ds <> [] ->
  exists M E,
    parse_number (format_digits ds decpt) = Some (M, E)
    /\ Qeq (dec_value M E)
           (dec_value (digits_val ds) (decpt - Z.of_nat (List.length ds)))
    /\ (0 < digits_val ds -> 0 < M).
Proof.
  intros Hd Hne. unfold format_digits.
  destruct ((decpt <=? -4) || (16 <? decpt)) eqn:Eexp.
  - destruct (format_exp_reads (decpt - 1)) as (es & ed & -> & Hed & Hne' & Hx).
    destruct ds as [|d [|d2 tl]]; [congruence| |].
    + exists (digits_val [d]), (decpt - 1). split; [|split; [|auto]].
      * change (d :: "e"%char :: (if es then "-"%char else "+"%char) :: ed)
          with ([d] ++ "e"%char :: sign_char es :: ed).
        rewrite (parse_number_exp [d] es ed Hd Hed Hne Hne').
        now rewrite Hx.
      * cbn [List.length Z.of_nat]. reflexivity.
    + exists (digits_val (d :: d2 :: tl)),
             (decpt - Z.of_nat (List.length (d :: d2 :: tl))).
      split; [|split; [reflexivity|auto]].
      assert (Hd' := Hd).
      cbn [forallb] in Hd'. apply andb_prop in Hd'. destruct Hd' as [Hd1 Hd2].
      assert (H1 : forallb is_digit [d] = true)
        by (cbn [forallb]; now rewrite Hd1).
      change (d :: "."%char :: (d2 :: tl)
                ++ "e"%char :: (if es then "-"%char else "+"%char) :: ed)
        with ([d] ++ "."%char :: (d2 :: tl) ++ "e"%char :: sign_char es :: ed).
      assert (N1 : [d] <> []) by discriminate.
      rewrite (parse_number_point_exp [d] (d2 :: tl) es ed H1 Hd2 Hed N1 Hne').
      rewrite Hx. f_equal. f_equal.
      change (List.length (d :: d2 :: tl)) with (S (List.length (d2 :: tl))).
      lia.
  - apply orb_false_elim in Eexp. destruct Eexp as [E1 E2].
    apply Z.leb_gt in E1. apply Z.ltb_ge in E2.
    destruct (decpt <=? 0) eqn:E0.
    + apply Z.leb_le in E0.
      exists (digits_val ds), (decpt - Z.of_nat (List.length ds)).
      split; [|split; [reflexivity|auto]].
      change (str "0." ++ zeros (Z.to_nat (- decpt)) ++ ds)
        with (["0"%char] ++ "."%char :: zeros (Z.to_nat (- decpt)) ++ ds).
      assert (Hz : forallb is_digit (zeros (Z.to_nat (- decpt)) ++ ds) = true)
        by (rewrite forallb_app, forallb_zeros; exact Hd).
      assert (N1 : ["0"%char] <> []) by discriminate.
      rewrite (parse_number_point ["0"%char] _ eq_refl Hz N1).
      cbn [app]. rewrite digits_val_lead0, digits_val_app, digits_val_zeros.
      rewrite length_app, length_zeros. f_equal. f_equal; lia.
    + apply Z.leb_gt in E0.
      destruct (Z.of_nat (List.length ds) <=? decpt) eqn:En.
      * apply Z.leb_le in En.
        set (k := Z.to_nat (decpt - Z.of_nat (List.length ds))).
        exists (digits_val ds * 10 ^ Z.of_nat (S k)), (-1).
        split; [|split].
        -- change (ds ++ zeros k ++ str ".0")
             with (ds ++ zeros k ++ "."%char :: ["0"%char]).
           rewrite app_assoc.
           assert (Hz : forallb is_digit (ds ++ zeros k) = true)
             by (rewrite forallb_app, Hd; apply forallb_zeros).
           assert (N1 : ds ++ zeros k <> [])
             by (destruct ds; [congruence|discriminate]).
           rewrite (parse_number_point (ds ++ zeros k) ["0"%char] Hz eq_refl N1).
           f_equal. f_equal.
           rewrite !digits_val_app, digits_val_zeros, length_zeros.
           cbn [List.length]. rewrite !Nat2Z.inj_succ, !Z.pow_succ_r by lia.
           unfold digits_val at 2. simpl fold_left.
           change (digit_val "0") with 0. change (10 ^ Z.of_nat 0) with 1.
           ring.
        -- rewrite dec_value_shift.
           replace (-1 + Z.of_nat (S k))
             with (decpt - Z.of_nat (List.length ds)) by (unfold k; lia).
           reflexivity.
        -- intros H. apply Z.mul_pos_pos; [exact H|].
           apply Z.pow_pos_nonneg; lia.
      * apply Z.leb_gt in En.
        exists (digits_val ds), (decpt - Z.of_nat (List.length ds)).
        split; [|split; [reflexivity|auto]].
        destruct (forallb_firstn_skipn is_digit (Z.to_nat decpt) ds Hd)
          as [H1 H2].
        destruct (length_firstn_skipn ascii (Z.to_nat decpt) ds) as [L1 L2];
          [lia|].
        assert (N1 : firstn (Z.to_nat decpt) ds <> []).
        { intros E. rewrite E in L1. simpl in L1. lia. }
        rewrite (parse_number_point _ _ H1 H2 N1).
        rewrite firstn_skipn, L2. f_equal. f_equal. lia.
Qed.

End FormatDigits.

Section RoundTrip.

Import Float.
Local Open Scope Z_scope.

Lemma format_exp_chars (x : Z) : forallb num_char (format_exp x) = true.
Proof.
  destruct (format_exp_reads x) as (es & ed & -> & Hed & _).
  cbn [forallb]. rewrite (digits_num_char _ Hed). now destruct es.
Qed.

Lemma format_digits_chars (ds : list ascii) (decpt : Z) :
  forallb is_digit ds = true -> ds <> [] ->
  forallb num_char (format_digits ds decpt) = true
  /\ exists d F, format_digits ds decpt = d :: F /\ is_digit d = true.
Proof.
  intros Hd Hne. pose proof (digits_num_char _ Hd) as Hc.
  destruct ds as [|d ds]; [congruence|].
  assert (Hd' := Hd). cbn [forallb] in Hd'. apply andb_prop in Hd'.
  destruct Hd' as [Hd1 Hd2].
  assert (Hc' := Hc). cbn [forallb] in Hc'. apply andb_prop in Hc'.
  destruct Hc' as [Hc1 Hc2].
  unfold format_digits.
  destruct ((decpt <=? -4) || (16 <? decpt)).
  - destruct ds as [|d2 tl].
    + split; [|now exists d, ("e"%char :: format_exp (decpt - 1))].
      cbn [forallb]. now rewrite Hc1, format_exp_chars.
    + split; [|eexists; eexists; split; [reflexivity|exact Hd1]].
      cbn [forallb]. rewrite Hc1. cbn [andb num_char].
      change (num_char ".") with true. cbn [andb].
      change (forallb num_char ((d2 :: tl)
                ++ "e"%char :: format_exp (decpt - 1)) = true).
      rewrite forallb_app, Hc2. cbn [forallb andb].
      now rewrite format_exp_chars.
  - destruct (decpt <=? 0) eqn:E0.
    + split; [|now exists "0"%char, ("."%char :: zeros (Z.to_nat (- decpt)) ++ d :: ds)].
      change (str "0." ++ zeros (Z.to_nat (- decpt)) ++ d :: ds)
        with ("0"%char :: "."%char :: zeros (Z.to_nat (- decpt)) ++ d :: ds).
      cbn [forallb]. change (num_char "0") with true.
      change (num_char ".") with true. cbn [andb].
      rewrite forallb_app, Hc, andb_true_r.
      apply digits_num_char, forallb_zeros.
    + apply Z.leb_gt in E0.
      destruct (Z.of_nat (List.length (d :: ds)) <=? decpt).
      * split; [|eexists; eexists; split; [reflexivity|exact Hd1]].
        rewrite !forallb_app, Hc.
        rewrite (digits_num_char _ (forallb_zeros _)). reflexivity.
      * destruct (forallb_firstn_skipn num_char (Z.to_nat decpt) (d :: ds) Hc)
          as [H1 H2].
        split.
        -- rewrite forallb_app, H1. cbn [forallb].
           change (num_char ".") with true. exact H2.
        -- destruct (Z.to_nat decpt) as [|k] eqn:Ek; [lia|].
           cbn [firstn app]. eexists; eexists; split; [reflexivity|exact Hd1].
Qed.

Lemma digit_plain (d : ascii) :
  is_digit d = true ->
  ascii_eqb d "-" = false /\ ascii_eqb d "+" = false /\ lower d = d.
Proof.
  intros H. apply is_digit_range in H. unfold digit_val in H.
  repeat split.
  - apply ascii_eqb_neq. intros ->. change (code "-") with 45 in H. lia.
  - apply ascii_eqb_neq. intros ->. change (code "+") with 43 in H. lia.
  - unfold lower. unfold code in H.
    replace ((65 <=? nat_of_ascii d)%nat) with false; [reflexivity|].
    symmetry. apply Nat.leb_gt. lia.
Qed.

Lemma parse_special_digit (sign : bool) (d : ascii) (F : list ascii) :
  is_digit d = true -> parse_special sign (d :: F) = None.
Proof.
  intros H. destruct (digit_plain d H) as (_ & _ & Hl).
  unfold parse_special. cbn [map]. rewrite Hl.
  assert (Hne : forall w, list_eqb (d :: map lower F) w = true ->
                  exists t, w = d :: t).
  { intros w Hw. unfold list_eqb in Hw.
    destruct (list_eq_dec ascii_dec (d :: map lower F) w) as [<-|];
      [eauto|discriminate]. }
  destruct (list_eqb (d :: map lower F) (str "inf")) eqn:E1.
  { destruct (Hne _ E1) as (t & Et). injection Et as <- _. discriminate. }
  destruct (list_eqb (d :: map lower F) (str "infinity")) eqn:E2.
  { destruct (Hne _ E2) as (t & Et). injection Et as <- _. discriminate. }
  destruct (list_eqb (d :: map lower F) (str "nan")) eqn:E3.
  { destruct (Hne _ E3) as (t & Et). injection Et as <- _. discriminate. }
  reflexivity.
Qed.

(** [float] of the text written for the digits [ds] with the point after
    [decpt] of them. *)
Lemma of_string_format (sign : bool) (ds : list ascii) (decpt : Z) :
  forallb is_digit ds = true -> 0 < digits_val ds ->
  of_string (with_sign sign (format_digits ds decpt))
  = Ok (of_decimal sign (digits_val ds)
                   (decpt - Z.of_nat (List.length ds))).
Proof.
  intros Hd Hpos.
  assert (Hne : ds <> []).
  { intros ->. unfold digits_val in Hpos. simpl in Hpos. lia. }
  destruct (format_digits_chars ds decpt Hd Hne) as (Hc & d & F & EF & Hdig).
  destruct (format_digits_reads ds decpt Hd Hne) as (M & E & Hp & Hq & HM).
  assert (HT : forallb num_char (with_sign sign (format_digits ds decpt)) = true).
  { destruct sign; [cbn [with_sign forallb]; now rewrite Hc|exact Hc]. }
  unfold of_string.
  rewrite (strip_plain _ HT), (underscores_ok_plain _ HT false),
    (remove_underscores_plain _ HT).
  assert (Hs : parse_sign (with_sign sign (format_digits ds decpt))
               = (sign, format_digits ds decpt)).
  { destruct sign; [reflexivity|]. cbn [with_sign]. rewrite EF.
    unfold parse_sign. destruct (digit_plain d Hdig) as (-> & -> & _).
    reflexivity. }
  rewrite Hs. rewrite EF at 1. rewrite (parse_special_digit sign d F Hdig).
  rewrite Hp. f_equal. apply of_decimal_Qeq; auto.
Qed.

(** Reading the text of a float gives the float back. *)
Lemma repr_roundtrip (x : float) : valid x -> of_string (repr x) = Ok x.
Proof.
  intros Hx. destruct x as [s|s| |s m e].
  - destruct s; reflexivity.
  - destruct s; reflexivity.
  - reflexivity.
  - unfold valid, valid_binary in Hx. unfold repr.
    pose proof (exact_decimal_pos m e) as HM.
    pose proof (exact_decimal_reads) as Hex.
    specialize (fun sign => Hex sign m e Hx).
    destruct (exact_decimal m e) as [M E]. cbn [fst snd] in *.
    destruct (shortest_reads m e M E (pred (List.length (to_digits M))) HM Hex)
      as [Hc Hr].
    destruct (shortest m e M E (pred (List.length (to_digits M)))) as [c E'].
    cbn [fst snd] in *.
    destruct (to_digits_ok c) as (Hv & Hd & _); [lia|].
    destruct (strip_trailing_zeros_val (to_digits c)) as (k & Ek & Hk).
    rewrite Hv in Hk.
    assert (Hpos : 0 < digits_val (strip_trailing_zeros (to_digits c))).
    { assert (0 < 10 ^ Z.of_nat k) by (apply Z.pow_pos_nonneg; lia). nia. }
    rewrite of_string_format;
      [|now apply strip_trailing_zeros_digits|exact Hpos].
    f_equal. rewrite <- (Hr s).
    apply of_decimal_Qeq; [exact Hpos|exact Hc|].
    assert (Hlen : Z.of_nat (List.length (to_digits c)) + E'
                   - Z.of_nat (List.length (strip_trailing_zeros (to_digits c)))
                   = E' + Z.of_nat k).
    { rewrite Ek at 1. rewrite length_app, length_zeros. lia. }
    rewrite Hlen.
    set (V := digits_val (strip_trailing_zeros (to_digits c))) in *.
    clearbody V. clear Ek Hlen Hd Hv Hr. subst c.
    symmetry. apply dec_value_shift.
Qed.

Lemma span_digits_fst (s : list ascii) :
  forallb is_digit (fst (span_digits s)) = true.
Proof.
  induction s as [|c s IH]; [reflexivity|].
  simpl. destruct (is_digit c) eqn:E; [|reflexivity].
  destruct (span_digits s) as [ds rest]. simpl in *. now rewrite E.
Qed.

Lemma parse_number_nonneg (s : list ascii) (M E : Z) :
  parse_number s = Some (M, E) -> 0 <= M.
Proof.
  unfold parse_number.
  pose proof (span_digits_fst s) as H1.
  destruct (span_digits s) as [ip r1]. cbn [fst] in H1.
  set (p2 := match r1 with
             | [] => ([], r1)
             | c :: r => if ascii_eqb c "." then span_digits r else ([], r1)
             end).
  assert (H2 : forallb is_digit (fst p2) = true).
  { unfold p2. destruct r1 as [|c r]; [reflexivity|].
    destruct (ascii_eqb c "."); [apply span_digits_fst|reflexivity]. }
  destruct p2 as [fp r2]. cbn [fst] in H2.
  assert (Hv : 0 <= digits_val (ip ++ fp)).
  { apply digits_val_nonneg. now rewrite forallb_app, H1, H2. }
  destruct (ip ++ fp) as [|x l] eqn:El; [discriminate|].
  destruct r2 as [|c r3]; [intros H; injection H as <- _; exact Hv|].
  destruct (ascii_eqb c "e" || ascii_eqb c "E"); [|discriminate].
  destruct (parse_sign r3) as [es r4].
  destruct (span_digits r4) as [[|y ed] [|z r5]]; try discriminate.
  intros H; injection H as <- _; exact Hv.
Qed.

(** [float(text)] is a float of binary64. *)
Lemma of_string_valid (t : list ascii) (v : float) :
  of_string t = Ok v -> valid v.
Proof.
  unfold of_string.
  destruct (underscores_ok false (strip t)); [|discriminate].
  destruct (parse_sign (remove_underscores (strip t))) as [sign body].
  destruct (parse_special sign body) as [x|] eqn:Es.
  - intros H. injection H as <-. unfold parse_special in Es.
    destruct (_ || _); [injection Es as <-; reflexivity|].
    destruct (list_eqb _ _); [injection Es as <-; reflexivity|discriminate].
  - destruct (parse_number body) as [[M E]|] eqn:Ep; [|discriminate].
    intros H. injection H as <-. apply of_decimal_valid.
    now apply parse_number_nonneg in Ep.
Qed.

Lemma neg_valid (x : float) : valid x -> valid (neg x).
Proof. destruct x; auto. Qed.

Lemma neg_involutive (x : float) : neg (neg x) = x.
Proof. destruct x as [s|s| |s m e]; simpl; try rewrite negb_involutive; reflexivity. Qed.

End RoundTrip.

(** ** Conversion and extraction *)

Lemma fid_bid_safe_T (w w' : list ascii) :
  fid_span w w' \/ bid_span w w' -> safe is_T w = true /\ safe is_T w' = true.
Proof.
  intros [[-> ->]|[-> ->]]; split; reflexivity.
Qed.

Lemma findall_TRNAMT_ids (D : document) :
  findall TRNAMT_re
    (sub INTU_BID_12139_re (str "<INTU.BID>10898</INTU.BID>")
       (sub FID_12139_re (str "<FID>10898</FID>") D))
  = findall TRNAMT_re D.
Proof.
  set (D1 := sub FID_12139_re (str "<FID>10898</FID>") D).
  set (D2 := sub INTU_BID_12139_re (str "<INTU.BID>10898</INTU.BID>") D1).
  assert (H1 : rewrites fid_span D D1)
    by (apply sub_Str_rewrites; discriminate).
  assert (H2 : rewrites bid_span D1 D2)
    by (apply sub_Str_rewrites; discriminate).
  assert (H12 : rewrites (fun w w' => fid_span w w' \/ bid_span w w') D D2).
  { apply (rewrites_compose fid_span bid_span is_F is_I
             starts_fid starts_bid) with (s1 := D1); auto.
    - intros w w' [_ ->]. reflexivity.
    - intros w w' [-> _]. reflexivity. }
  unfold findall. symmetry.
  apply (hits_rewrites TRNAMT_re is_T _ (fun c => is_F c || is_I c)
           (starts_or _ _ _ _ starts_fid starts_bid) fid_bid_safe_T
           (TRNAMT_local _ eq_refl eq_refl) _ _ H12).
Qed.

(** The amounts of the converted document are the texts of the negated
    amounts of the input, in the same order. *)
Lemma convert_amounts (D D' : document) :
  convert_qfx D = Ok D' ->
  exists vs, amounts_of D = Ok vs
             /\ findall TRNAMT_re D'
                = map (fun v => Float.repr (Float.neg v)) vs.
Proof.
  unfold convert_qfx, amounts_of. intros H.
  apply findall_sub_fn in H. now rewrite findall_TRNAMT_ids in H.
Qed.

(** [convert_qfx] returns a document exactly when every amount can be
    read, and raises the error of the first one that cannot. *)
Lemma convert_defined (D : document) :
  match amounts_of D with
  | Ok _ => exists D', convert_qfx D = Ok D'
  | Raise e => convert_qfx D = Raise e
  end.
Proof.
  unfold amounts_of, convert_qfx, sub_fn.
  rewrite <- (findall_TRNAMT_ids D). unfold findall.
  apply sub_tokens_mapM.
Qed.

Lemma mapM_valid (ts : list (list ascii)) (vs : list Float.float) :
  mapM Float.of_string ts = Ok vs -> Forall valid vs.
Proof.
  revert vs. induction ts as [|t ts IH]; intros vs H.
  - injection H as <-. constructor.
  - cbn [mapM] in H. apply bind_Ok in H. destruct H as (v & Hv & H).
    apply bind_Ok in H. destruct H as (vs' & Hvs & H).
    injection H as <-. constructor; [now apply of_string_valid in Hv|auto].
Qed.

Lemma mapM_repr_neg (vs : list Float.float) :
  Forall valid vs ->
  mapM Float.of_string (map (fun v => Float.repr (Float.neg v)) vs)
  = Ok (map Float.neg vs).
Proof.
  induction 1 as [|v vs Hv _ IH]; [reflexivity|].
  cbn [map mapM]. rewrite repr_roundtrip by now apply neg_valid.
  cbn [bind]. rewrite IH. reflexivity.
Qed.

Lemma extract_Ok (D : document) (el : elements) :
  extract_key_elements D = Ok el ->
  amounts_of D = Ok (amounts el)
  /\ transaction_count el = List.length (findall STMTTRN_re D).
Proof.
  unfold extract_key_elements, amounts_of. intros H.
  apply bind_Ok in H. destruct H as (vs & -> & H).
  injection H as <-. split; reflexivity.
Qed.

Lemma extract_defined (D : document) :
  match amounts_of D with
  | Ok vs => exists el, extract_key_elements D = Ok el /\ amounts el = vs
  | Raise e => extract_key_elements D = Raise e
  end.
Proof.
  unfold extract_key_elements, amounts_of.
  destruct (mapM Float.of_string (findall TRNAMT_re D)) as [vs|e];
    cbn [bind]; [|reflexivity].
  eexists. split; reflexivity.
Qed.

(** The converted document of a document whose amounts can be read: its
    amounts can be read too, and are the negated ones. *)
Lemma convert_extract (D : document) (vs : list Float.float) :
  amounts_of D = Ok vs ->
  exists D', convert_qfx D = Ok D'
             /\ amounts_of D' = Ok (map Float.neg vs).
Proof.
  intros Hvs. pose proof (convert_defined D) as Hc. rewrite Hvs in Hc.
  destruct Hc as (D' & HD'). exists D'. split; [exact HD'|].
  destruct (convert_amounts D D' HD') as (vs' & Hvs' & Hf).
  rewrite Hvs in Hvs'. injection Hvs' as <-.
  unfold amounts_of. rewrite Hf. apply mapM_repr_neg.
  now apply mapM_valid in Hvs.
Qed.

(** ** The properties of conversion *)

Lemma off_by_more_neg (x : Float.float) : off_by_more x (Float.neg x) = false.
Proof.
  destruct x as [s|s| |s m e]; try (destruct s; reflexivity); [reflexivity|].
  unfold off_by_more, Float.add, Float.neg, SFopp, SFadd.
  rewrite Z.min_id. unfold shl_align. rewrite Z.sub_diag. cbn [fst].
  replace (cond_Zopp s (Zpos m) + cond_Zopp (negb s) (Zpos m))%Z with 0%Z
    by (destruct s; simpl; now rewrite Z.pos_sub_diag).
  reflexivity.
Qed.

(** C3: for every valid document, the amounts extracted from the converted
    document are as many as those of the original, and the amount at each
    position is the negation of the original one: it is the same float
    with the sign flipped, so the sum of the two is within the tolerance
    of the verifier. *)
Theorem converted_amounts_negated (D : document) :
  valid_document D ->
  exists D' el el',
    convert_qfx D = Ok D'
    /\ extract_key_elements D = Ok el
    /\ extract_key_elements D' = Ok el'
    /\ List.length (amounts el') = List.length (amounts el)
    /\ forall i x, nth_error (amounts el) i = Some x ->
         nth_error (amounts el') i = Some (Float.neg x)
         /\ off_by_more x (Float.neg x) = false.
Proof.
  intros (vs & Hvs & _).
  destruct (convert_extract D vs Hvs) as (D' & HD' & Hvs').
  pose proof (extract_defined D) as He. rewrite Hvs in He.
  destruct He as (el & He & Ha).
  pose proof (extract_defined D') as He'. rewrite Hvs' in He'.
  destruct He' as (el' & He' & Ha').
  exists D', el, el'. repeat split; auto.
  - rewrite Ha, Ha'. apply length_map.
  - rewrite Ha' in *. rewrite Ha in H. now apply map_nth_error.
  - apply off_by_more_neg.
Qed.

Lemma two_amounts_valid : valid_document two_amounts.
Proof.
  eexists. split; [vm_compute; reflexivity|].
  repeat constructor.
Qed.

Lemma converted_amounts_negated_witness :
  exists D' el el',
    convert_qfx two_amounts = Ok D'
    /\ extract_key_elements two_amounts = Ok el
    /\ extract_key_elements D' = Ok el'
    /\ List.length (amounts el') = List.length (amounts el)
    /\ forall i x, nth_error (amounts el) i = Some x ->
         nth_error (amounts el') i = Some (Float.neg x)
         /\ off_by_more x (Float.neg x) = false.
Proof.
  apply (converted_amounts_negated two_amounts). apply two_amounts_valid.
Defined.

(** C4: for every valid document, the number of transaction markers
    extracted from the converted document is the number extracted from
    the original. *)
Theorem converted_count_same (D : document) :
  valid_document D ->
  exists D' el el',
    convert_qfx D = Ok D'
    /\ extract_key_elements D = Ok el
    /\ extract_key_elements D' = Ok el'
    /\ transaction_count el' = transaction_count el.
Proof.
  intros (vs & Hvs & _).
  destruct (convert_extract D vs Hvs) as (D' & HD' & Hvs').
  pose proof (extract_defined D) as He. rewrite Hvs in He.
  destruct He as (el & He & _).
  pose proof (extract_defined D') as He'. rewrite Hvs' in He'.
  destruct He' as (el' & He' & _).
  exists D', el, el'. repeat split; auto.
  destruct (extract_Ok _ _ He) as [_ ->].
  destruct (extract_Ok _ _ He') as [_ ->].
  now rewrite (convert_STMTTRN D D' HD').
Qed.

Lemma converted_count_same_witness :
  exists D' el el',
    convert_qfx two_amounts = Ok D'
    /\ extract_key_elements two_amounts = Ok el
    /\ extract_key_elements D' = Ok el'
    /\ transaction_count el' = transaction_count el.
Proof.
  apply (converted_count_same two_amounts). apply two_amounts_valid.
Defined.

(** C7: for every valid document, converting twice gives a document whose
    extracted amounts are exactly the amounts of the original. *)
Theorem convert_twice_amounts (D : document) :
  valid_document D ->
  exists D' D'' el el'',
    convert_qfx D = Ok D'
    /\ convert_qfx D' = Ok D''
    /\ extract_key_elements D = Ok el
    /\ extract_key_elements D'' = Ok el''
    /\ amounts el'' = amounts el.
Proof.
  intros (vs & Hvs & _).
  destruct (convert_extract D vs Hvs) as (D' & HD' & Hvs').
  destruct (convert_extract D' _ Hvs') as (D'' & HD'' & Hvs'').
  pose proof (extract_defined D) as He. rewrite Hvs in He.
  destruct He as (el & He & Ha).
  pose proof (extract_defined D'') as He''. rewrite Hvs'' in He''.
  destruct He'' as (el'' & He'' & Ha'').
  exists D', D'', el, el''. repeat split; auto.
  rewrite Ha, Ha'', map_map. rewrite <- (map_id vs) at 2.
  apply map_ext. apply neg_involutive.
Qed.

Lemma convert_twice_amounts_witness :
  exists D' D'' el el'',
    convert_qfx two_amounts = Ok D'
    /\ convert_qfx D' = Ok D''
    /\ extract_key_elements two_amounts = Ok el
    /\ extract_key_elements D'' = Ok el''
    /\ amounts el'' = amounts el.
Proof.
  apply (convert_twice_amounts two_amounts). apply two_amounts_valid.
Defined.

(** *** Fields that are not rewritten *)

Lemma safe_suffix (P : ascii -> bool) (u w : list ascii) :
  safe P (u ++ w) = true -> safe P w = true.
Proof.
  induction u as [|c u IH]; [auto|].
  simpl. intros H. apply andb_prop in H. destruct H as [_ H]. auto.
Qed.

(** Inside a span that is rewritten, a [<] only opens the closing tag. *)
Lemma field_span_interior (w w' : list ascii) :
  field_span w w' -> exists u, w = "<"%char :: u /\ safe not_slash u = true.
Proof.
  intros [[[-> _]|[-> _]]|(t & v & [_ Ht] & _ & -> & _)].
  - now exists (str "FID>12139</FID>").
  - now exists (str "INTU.BID>12139</INTU.BID>").
  - exists (amt_tail t). split; [reflexivity|].
    apply (safe_app not_slash (str "TRNAMT>")); [reflexivity|].
    apply safe_app; [now apply safe_no_lt|reflexivity].
Qed.

(** No rewritten span runs over the start of a tag that is not a closing
    tag: the rewriting splits there. *)
Lemma rewrites_split :
  forall a b D', rewrites field_span (a ++ b) D' ->
    (exists c b', b = "<"%char :: c :: b' /\ c <> "/"%char) ->
    exists a' b'', D' = a' ++ b''
                   /\ rewrites field_span a a' /\ rewrites field_span b b''.
Proof.
  assert (Hind : forall n a b D', List.length a <= n ->
            rewrites field_span (a ++ b) D' ->
            (exists c b', b = "<"%char :: c :: b' /\ c <> "/"%char) ->
            exists a' b'', D' = a' ++ b''
              /\ rewrites field_span a a' /\ rewrites field_span b b'').
  { induction n as [|n IH]; intros a b D' Hn H Hb.
    - destruct a; [|simpl in Hn; lia].
      exists [], D'. repeat split; [constructor|exact H].
    - destruct a as [|x a].
      { exists [], D'. repeat split; [constructor|exact H]. }
      simpl in H.
      inversion H as [|c t t' Hr E1 E2|w w' t t' Hs Hr E1 E2]; subst.
      + destruct (IH a b t') as (a' & b'' & -> & Ha & Hb''); auto.
        { simpl in Hn. lia. }
        exists (x :: a'), b''. repeat split; [now constructor|exact Hb''].
      + destruct (field_span_interior _ _ Hs) as (u & -> & Hu).
        change (x :: a ++ b) with ((x :: a) ++ b) in E1.
        apply app_eq_app in E1. destruct E1 as (l & [[E1 E2]|[E1 E2]]).
        * (* the span ends after the start of [b] *)
          destruct l as [|y l].
          -- rewrite app_nil_r in E1. simpl in E2. subst t.
             rewrite <- E1.
             exists w', t'. repeat split; [|exact Hr].
             rewrite <- (app_nil_r w'), <- (app_nil_r ("<"%char :: u)).
             constructor; [exact Hs|constructor].
          -- exfalso. destruct Hb as (c & b' & -> & Hc).
             simpl in E2. injection E2 as <- E2.
             simpl in E1. injection E1 as _ E1.
             rewrite E1 in Hu. apply safe_suffix in Hu.
             simpl in Hu. destruct l as [|z l]; [discriminate|].
             simpl in E2. injection E2 as <- _.
             apply andb_prop in Hu. destruct Hu as [Hu _].
             unfold not_slash in Hu. rewrite negb_involutive in Hu.
             apply ascii_eqb_eq in Hu. congruence.
        * (* the span lies inside [a] *)
          rewrite E1.
          destruct (IH l b t') as (a' & b'' & -> & Ha & Hb''); auto.
          { apply (f_equal (@List.length ascii)) in E1.
            rewrite length_app in E1. simpl in E1, Hn. lia. }
          { now rewrite <- E2. }
          exists (w' ++ a'), b''. rewrite <- app_assoc.
          repeat split; [now constructor|exact Hb'']. }
  intros a b D'. now apply (Hind (List.length a)).
Qed.

Lemma id_field_kept (secondary : bool) (v post X : list ascii) :
  forallb not_lt v = true -> v <> str "12139" ->
  rewrites field_span (id_field secondary v ++ post) X ->
  exists post', X = id_field secondary v ++ post'
                /\ rewrites field_span post post'.
Proof.
  intros Hv Hne H.
  assert (Hsafe : exists tl, id_field secondary v = "<"%char :: tl
                             /\ safe is_FIT tl = true).
  { destruct secondary.
    - exists (str "INTU.BID>" ++ v ++ str "</INTU.BID>"). split; [reflexivity|].
      apply (safe_app is_FIT (str "INTU.BID>")); [reflexivity|].
      apply safe_app; [now apply safe_no_lt|reflexivity].
    - exists (str "FID>" ++ v ++ str "</FID>"). split; [reflexivity|].
      apply (safe_app is_FIT (str "FID>")); [reflexivity|].
      apply safe_app; [now apply safe_no_lt|reflexivity]. }
  destruct Hsafe as (tl & Etl & Htl).
  rewrite Etl in *. simpl in H.
  inversion H as [|c t t' Hr E1 E2|w w' t t' Hs Hr E1 E2]; subst.
  - destruct (peel_old _ _ starts_field_span tl Htl _ _ Hr) as (p' & -> & Hp).
    now exists p'.
  - exfalso. destruct Hs as [[[-> _]|[-> _]]|(t0 & v0 & _ & _ & -> & _)].
    + destruct secondary; simpl in Etl, E1.
      * injection Etl as <-. discriminate E1.
      * injection Etl as <-. simpl in E1.
        injection E1 as E1.
        change ("1"%char :: "2"%char :: "1"%char :: "3"%char :: "9"%char
                  :: "<"%char :: "/"%char :: "F"%char :: "I"%char
                  :: "D"%char :: ">"%char :: t)
          with (str "12139" ++ "<"%char :: str "/FID>" ++ t) in E1.
        rewrite <- app_assoc in E1.
        change (str "</FID>" ++ post)
          with ("<"%char :: str "/FID>" ++ post) in E1.
        destruct (run_unique not_lt "<" eq_refl (str "12139") v _ _
                    eq_refl Hv E1) as [E _].
        congruence.
    + destruct secondary; simpl in Etl, E1.
      * injection Etl as <-. simpl in E1. injection E1 as E1.
        change ("1"%char :: "2"%char :: "1"%char :: "3"%char :: "9"%char
                  :: "<"%char :: "/"%char :: "I"%char :: "N"%char
                  :: "T"%char :: "U"%char :: "."%char :: "B"%char
                  :: "I"%char :: "D"%char :: ">"%char :: t)
          with (str "12139" ++ "<"%char :: str "/INTU.BID>" ++ t) in E1.
        rewrite <- app_assoc in E1.
        change (str "</INTU.BID>" ++ post)
          with ("<"%char :: str "/INTU.BID>" ++ post) in E1.
        destruct (run_unique not_lt "<" eq_refl (str "12139") v _ _
                    eq_refl Hv E1) as [E _].
        congruence.
      * injection Etl as <-. discriminate E1.
    + destruct secondary; simpl in Etl, E1; injection Etl as <-;
        discriminate E1.
Qed.

(** C2: [convert_qfx] changes only the matched spans: the converted
    document is the input in which occurrences of the primary and of the
    secondary institution field holding [12139] are rewritten to [10898]
    and the enclosed text of amount fields is rewritten, every character
    outside those spans being kept; in particular an institution field
    holding another value stays as it is. *)
Theorem convert_changes_only_fields (D D' : document) :
  convert_qfx D = Ok D' ->
  rewrites field_span D D'
  /\ forall secondary pre v post,
       D = pre ++ id_field secondary v ++ post ->
       forallb not_lt v = true -> v <> str "12139" ->
       exists pre' post',
         D' = pre' ++ id_field secondary v ++ post'
         /\ rewrites field_span pre pre' /\ rewrites field_span post post'.
Proof.
  intros H. apply convert_rewrites in H. split; [exact H|].
  intros secondary pre v post -> Hv Hne.
  destruct (rewrites_split pre _ D' H) as (pre' & X & -> & Hpre & HX).
  { destruct secondary.
    - exists "I"%char, (str "NTU.BID>" ++ v ++ str "</INTU.BID>" ++ post).
      split; [|discriminate]. unfold id_field. now rewrite <- !app_assoc.
    - exists "F"%char, (str "ID>" ++ v ++ str "</FID>" ++ post).
      split; [|discriminate]. unfold id_field. now rewrite <- !app_assoc. }
  destruct (id_field_kept secondary v post X Hv Hne HX) as (post' & -> & Hpost).
  now exists pre', post'.
Qed.

Lemma convert_changes_only_fields_witness :
  let D' := str "<FID>10898</FID> <FID>9</FID><INTU.BID>10898</INTU.BID><STMTTRN><TRNAMT>42.5</TRNAMT>" in
  convert_qfx mixed_document = Ok D'
  /\ rewrites field_span mixed_document D'
  /\ forall secondary pre v post,
       mixed_document = pre ++ id_field secondary v ++ post ->
       forallb not_lt v = true -> v <> str "12139" ->
       exists pre' post',
         D' = pre' ++ id_field secondary v ++ post'
         /\ rewrites field_span pre pre' /\ rewrites field_span post post'.
Proof.
  intros D'.
  assert (H : convert_qfx mixed_document = Ok D') by (vm_compute; reflexivity).
  split; [exact H|].
  exact (convert_changes_only_fields mixed_document D' H).
Defined.

(** *** Documents with nothing to rewrite *)

Lemma no_matchb_spec (r : regex) (s : list ascii) :
  no_matchb r s = true -> no_match r s.
Proof.
  unfold no_matchb. induction s as [|c s IH]; intros H pre suf E.
  - symmetry in E. apply app_eq_nil in E. destruct E as [_ ->].
    simpl in H. destruct (match_at r []); [discriminate|reflexivity].
  - cbn [tails forallb] in H. apply andb_prop in H. destruct H as [H1 H2].
    destruct pre as [|x pre].
    + simpl in E. subst suf.
      destruct (match_at r (c :: s)); [discriminate|reflexivity].
    + simpl in E. injection E as _ E. now apply (IH H2 pre suf).
Qed.

Lemma no_match_Str (l : list ascii) (D : document) :
  no_match (Str l) D <-> ~ occurs l D.
Proof.
  split.
  - intros H (pre & post & E). specialize (H pre (l ++ post) E).
    assert (Hm : match_at (Str l) (l ++ post) = Some (None, post))
      by now apply match_Str.
    congruence.
  - intros H pre suf E.
    destruct (match_at (Str l) suf) as [[g rest]|] eqn:Em; [|reflexivity].
    exfalso. apply H. apply match_Str in Em. destruct Em as [_ ->].
    now exists pre, rest.
Qed.

Lemma no_match_TRNAMT (D : document) :
  no_match TRNAMT_re D <-> ~ has_amount_field D.
Proof.
  split.
  - intros H (pre & t & post & [Hne Ht] & E).
    specialize (H pre (amt_field t ++ post) E).
    assert (Hm : match_at TRNAMT_re (amt_field t ++ post) = Some (Some t, post)).
    { apply match_TRNAMT. now exists t. }
    congruence.
  - intros H pre suf E.
    destruct (match_at TRNAMT_re suf) as [[g rest]|] eqn:Em; [|reflexivity].
    exfalso. apply H. apply match_TRNAMT in Em.
    destruct Em as (body & -> & Hp & Hne & _).
    exists pre, body, rest. split; [split; assumption|exact E].
Qed.

Lemma sub_no_match (r : regex) (repl D : list ascii) :
  no_match r D -> sub r repl D = D.
Proof.
  intros H. unfold sub. rewrite (tokens_no_match r D H).
  apply sub_lit_tokens_Lit.
Qed.

(** C10: a document with no substring [<FID>12139</FID>], no substring
    [<INTU.BID>12139</INTU.BID>] and no amount field is converted to
    itself. *)
Theorem convert_identity (D : document) :
  ~ occurs (str "<FID>12139</FID>") D ->
  ~ occurs (str "<INTU.BID>12139</INTU.BID>") D ->
  ~ has_amount_field D ->
  convert_qfx D = Ok D.
Proof.
  intros H1 H2 H3. unfold convert_qfx.
  rewrite (sub_no_match FID_12139_re) by now apply no_match_Str.
  rewrite (sub_no_match INTU_BID_12139_re) by now apply no_match_Str.
  unfold sub_fn. rewrite tokens_no_match by now apply no_match_TRNAMT.
  apply sub_tokens_Lit.
Qed.

Lemma convert_identity_witness : convert_qfx plain_document = Ok plain_document.
Proof.
  apply (convert_identity plain_document).
  - apply no_match_Str, no_matchb_spec. vm_compute. reflexivity.
  - apply no_match_Str, no_matchb_spec. vm_compute. reflexivity.
  - apply no_match_TRNAMT, no_matchb_spec. vm_compute. reflexivity.
Defined.

(** C9: the text of a converted amount field is [repr] of the negated
    float, not the original digits: a text that reads as zero, such as
    [0.00], becomes [-0.0]; one that reads as negative zero, such as
    [-0.00], becomes [0.0]; and [-42.50] becomes [42.5]. *)
Theorem amounts_written_by_repr (D D' : document) (i : nat) (t : list ascii) :
  convert_qfx D = Ok D' ->
  nth_error (findall TRNAMT_re D) i = Some t ->
  (exists v, Float.of_string t = Ok v
             /\ nth_error (findall TRNAMT_re D') i
                = Some (Float.repr (Float.neg v)))
  /\ (Float.of_string t = Ok (S754_zero false) ->
      nth_error (findall TRNAMT_re D') i = Some (str "-0.0"))
  /\ (Float.of_string t = Ok (S754_zero true) ->
      nth_error (findall TRNAMT_re D') i = Some (str "0.0"))
  /\ Float.of_string (str "0.00") = Ok (S754_zero false)
  /\ Float.of_string (str "-0.00") = Ok (S754_zero true)
  /\ convert_qfx (str "<TRNAMT>-42.50</TRNAMT>") = Ok (str "<TRNAMT>42.5</TRNAMT>").
Proof.
  intros H Ht.
  destruct (convert_amounts D D' H) as (vs & Hvs & Hf).
  assert (Hv : exists v, Float.of_string t = Ok v
                         /\ nth_error vs i = Some v).
  { unfold amounts_of in Hvs. clear Hf H.
    revert i vs Ht Hvs. induction (findall TRNAMT_re D) as [|a l IH];
      intros i vs Ht Hvs.
    - destruct i; discriminate.
    - cbn [mapM] in Hvs. apply bind_Ok in Hvs. destruct Hvs as (v & Hv & Hvs).
      apply bind_Ok in Hvs. destruct Hvs as (vs' & Hvs' & Hvs).
      injection Hvs as <-. destruct i as [|i].
      + injection Ht as <-. now exists v.
      + apply (IH i vs' Ht Hvs'). }
  destruct Hv as (v & Hv & Hi).
  assert (Hn : nth_error (findall TRNAMT_re D') i
               = Some (Float.repr (Float.neg v))).
  { rewrite Hf.
    exact (map_nth_error (fun v => Float.repr (Float.neg v)) _ _ Hi). }
  split; [now exists v|].
  split; [intros E; rewrite E in Hv; injection Hv as <-; exact Hn|].
  split; [intros E; rewrite E in Hv; injection Hv as <-; exact Hn|].
  repeat split; vm_compute; reflexivity.
Qed.

Lemma amounts_written_by_repr_witness :
  let D' := str "<TRNAMT>-0.0</TRNAMT><TRNAMT>0.0</TRNAMT>" in
  convert_qfx zero_document = Ok D'
  /\ nth_error (findall TRNAMT_re zero_document) 0 = Some (str "0.00")
  /\ nth_error (findall TRNAMT_re D') 0 = Some (str "-0.0").
Proof.
  intros D'.
  assert (H : convert_qfx zero_document = Ok D') by (vm_compute; reflexivity).
  assert (Ht : nth_error (findall TRNAMT_re zero_document) 0
               = Some (str "0.00")) by (vm_compute; reflexivity).
  split; [exact H|]. split; [exact Ht|].
  destruct (amounts_written_by_repr zero_document D' 0 (str "0.00") H Ht)
    as (_ & Hz & _).
  apply Hz. vm_compute. reflexivity.
Defined.

(** *** Extraction of the amounts *)

Lemma of_string_error (t : list ascii) (e : exn) :
  Float.of_string t = Raise e ->
  e = ValueError "could not convert string to float".
Proof.
  unfold Float.of_string.
  destruct (Float.underscores_ok false (Float.strip t));
    [|intros H; now injection H].
  destruct (Float.parse_sign _) as [sign body].
  destruct (Float.parse_special sign body); [discriminate|].
  destruct (Float.parse_number body) as [[M E]|]; [discriminate|].
  intros H; now injection H.
Qed.

Lemma mapM_Raise {A B : Type} (f : A -> result B) (l : list A) :
  (exists t, In t l /\ exists e, f t = Raise e) ->
  exists t e, In t l /\ f t = Raise e /\ mapM f l = Raise e.
Proof.
  induction l as [|a l IH]; intros (t & Hin & e & He); [destruct Hin|].
  cbn [mapM]. destruct (f a) as [b|e'] eqn:Ea.
  - destruct Hin as [->|Hin]; [congruence|].
    destruct IH as (t' & e'' & Hin' & He' & Hm); [now exists t; eauto|].
    exists t', e''. cbn [bind]. rewrite Hm. repeat split; auto. now right.
  - exists a, e'. repeat split; auto. now left.
Qed.

Lemma mapM_Ok {A B : Type} (f : A -> result B) (l : list A) :
  (forall t, In t l -> exists v, f t = Ok v) ->
  exists vs, mapM f l = Ok vs /\ map Ok vs = map f l.
Proof.
  induction l as [|a l IH]; intros H; [now exists []|].
  destruct (H a) as (v & Hv); [now left|].
  destruct IH as (vs & Hvs & Hmap); [intros t Ht; apply H; now right|].
  exists (v :: vs). cbn [mapM map]. rewrite Hv, Hvs. cbn [bind].
  split; [reflexivity|]. now rewrite Hmap.
Qed.

(** *** The verifier *)

Lemma signs_loop_forallb (pairs : list (Float.float * Float.float)) :
  signs_loop pairs
  = forallb (fun oc => negb (off_by_more (fst oc) (snd oc))) pairs.
Proof.
  induction pairs as [|[o c] pairs IH]; [reflexivity|].
  cbn [signs_loop forallb fst snd]. rewrite IH.
  now destruct (off_by_more o c).
Qed.

(** What [verify_conversion] returns on two documents whose amounts can be
    read: the conjunction of the four checks, the sign check running over
    all the pairs of the shorter sequence. *)
Lemma verify_conversion_spec (original converted : document)
    (o c : elements) :
  extract_key_elements original = Ok o ->
  extract_key_elements converted = Ok c ->
  verify_conversion original converted
  = Ok (negb (list_eqb (FID o) (FID c))
        && negb (list_eqb (INTU_BID o) (INTU_BID c))
        && Nat.eqb (transaction_count o) (transaction_count c)
        && (if nonempty (amounts o) && nonempty (amounts c)
            then forallb (fun oc => negb (off_by_more (fst oc) (snd oc)))
                         (combine (amounts o) (amounts c))
            else true)).
Proof.
  intros Ho Hc. unfold verify_conversion, verify_report.
  rewrite Ho, Hc. cbn [bind]. unfold check. cbn [success].
  now rewrite signs_loop_forallb.
Qed.

(** C1: on a pair of documents whose sixth amounts are not opposite, the
    sign check of [verify_conversion] fails, since it runs over every
    position, while the standalone script, which looks at the first five
    pairs only, reports overall success. *)
Theorem standalone_checks_first_five :
  verify_conversion six_original six_converted = Ok false
  /\ standalone_all_good six_original six_converted = Ok true.
Proof.
  split; vm_compute; reflexivity.
Qed.

Lemma signs_loop_self (a : list Float.float) :
  signs_loop (combine a a) = forallb (fun x => negb (off_by_more x x)) a.
Proof.
  induction a as [|x a IH]; [reflexivity|].
  cbn [combine signs_loop forallb]. rewrite IH.
  now destruct (off_by_more x x).
Qed.

Lemma list_eqb_refl (l : list ascii) : list_eqb l l = true.
Proof.
  unfold list_eqb. destruct (list_eq_dec ascii_dec l l); congruence.
Qed.

(** C6, as the code has it: comparing a valid document with itself, the
    two institution checks fail and the count check passes; the sign check
    passes exactly when no amount [x] of the document has [abs(x + x)]
    above the tolerance, in particular when there is no amount. *)
Theorem verify_self (D : document) :
  valid_document D ->
  exists el r,
    extract_key_elements D = Ok el
    /\ verify_report D D = Ok r
    /\ fid_changed r = false
    /\ intu_changed r = false
    /\ count_same r = true
    /\ signs_reversed r
       = forallb (fun x => negb (off_by_more x x)) (amounts el)
    /\ success r = false.
Proof.
  intros (vs & Hvs & _).
  pose proof (extract_defined D) as He. rewrite Hvs in He.
  destruct He as (el & He & _).
  exists el, (check el el). unfold verify_report. rewrite He. cbn [bind].
  unfold check.
  cbn [fid_changed intu_changed count_same signs_reversed success].
  rewrite !list_eqb_refl, Nat.eqb_refl. repeat split; auto.
  rewrite signs_loop_self. now destruct (amounts el).
Qed.

Lemma verify_self_witness :
  exists el r,
    extract_key_elements two_amounts = Ok el
    /\ verify_report two_amounts two_amounts = Ok r
    /\ fid_changed r = false
    /\ intu_changed r = false
    /\ count_same r = true
    /\ signs_reversed r
       = forallb (fun x => negb (off_by_more x x)) (amounts el)
    /\ success r = false.
Proof.
  apply (verify_self two_amounts).
  eexists. split; [vm_compute; reflexivity|repeat constructor].
Defined.

(** C6, counterexample: a valid document with the amount [10.00], compared
    with itself, does not pass the sign check. *)
Lemma verify_self_signs_fail :
  valid_document (str "<STMTTRN><TRNAMT>10.00</TRNAMT>")
  /\ exists r,
       verify_report (str "<STMTTRN><TRNAMT>10.00</TRNAMT>")
                     (str "<STMTTRN><TRNAMT>10.00</TRNAMT>") = Ok r
       /\ signs_reversed r = false.
Proof.
  split.
  - eexists. split; [vm_compute; reflexivity|repeat constructor].
  - eexists. split; vm_compute; reflexivity.
Qed.

(** *** The date range *)

Lemma search_Some (r : regex) (s : list ascii) (g : option (list ascii)) :
  search r s = Some g <->
  exists pre suf rest,
    s = pre ++ suf /\ match_at r suf = Some (g, rest)
    /\ forall pre2 suf2, s = pre2 ++ suf2 ->
         List.length pre2 < List.length pre -> match_at r suf2 = None.
Proof.
  split.
  - induction s as [|c s IH]; intros H.
    + cbn [search] in H.
      destruct (match_at r []) as [[g' rest]|] eqn:E; [|discriminate].
      injection H as ->. exists [], [], rest.
      repeat split; auto. intros ? ? _ Hl. simpl in Hl. lia.
    + cbn [search] in H.
      destruct (match_at r (c :: s)) as [[g' rest]|] eqn:E.
      * injection H as ->. exists [], (c :: s), rest.
        repeat split; auto. intros ? ? _ Hl. simpl in Hl. lia.
      * destruct (IH H) as (pre & suf & rest & -> & Hm & Hmin).
        exists (c :: pre), suf, rest. repeat split; auto.
        intros pre2 suf2 E2 Hl. destruct pre2 as [|x pre2].
        -- simpl in E2. now subst suf2.
        -- simpl in E2. injection E2 as _ E2.
           apply (Hmin pre2 suf2 E2). simpl in Hl. lia.
  - intros (pre & suf & rest & -> & Hm & Hmin).
    induction pre as [|c pre IH].
    + simpl. destruct suf; cbn [search]; now rewrite Hm.
    + cbn [app search].
      rewrite (Hmin [] (c :: pre ++ suf) eq_refl) by (simpl; lia).
      apply IH. intros pre2 suf2 E2 Hl.
      apply (Hmin (c :: pre2) suf2); [simpl; f_equal; exact E2|simpl; lia].
Qed.

Lemma search_None (r : regex) (s : list ascii) :
  search r s = None <-> no_match r s.
Proof.
  split.
  - induction s as [|c s IH]; intros H pre suf E.
    + symmetry in E. apply app_eq_nil in E. destruct E as [_ ->].
      cbn [search] in H. destruct (match_at r []) as [[g rest]|];
        [discriminate|reflexivity].
    + cbn [search] in H.
      destruct (match_at r (c :: s)) as [[g rest]|] eqn:Em; [discriminate|].
      destruct pre as [|x pre].
      * simpl in E. now subst suf.
      * simpl in E. injection E as _ E. now apply (IH H pre suf).
  - intros H. destruct (search r s) as [g|] eqn:E; [|reflexivity].
    apply search_Some in E. destruct E as (pre & suf & rest & E & Hm & _).
    rewrite (H pre suf E) in Hm. discriminate.
Qed.

Lemma digit_or_dot_not_lt (c : ascii) :
  Re.is_digit c = true \/ is_dot c = true -> not_lt c = true.
Proof.
  intros H. unfold not_lt. destruct (ascii_eqb c "<") eqn:E; [|reflexivity].
  apply ascii_eqb_eq in E. subst c. destruct H; discriminate.
Qed.

Lemma forallb_weaken (p q : ascii -> bool) (l : list ascii) :
  (forall c, p c = true -> q c = true) ->
  forallb p l = true -> forallb q l = true.
Proof.
  intros Hpq. induction l as [|c l IH]; simpl; [auto|].
  intros H. apply andb_prop in H. destruct H as [Hc Hl].
  now rewrite (Hpq c Hc), (IH Hl).
Qed.

Lemma timestamp_text_not_lt (body : list ascii) :
  timestamp_text body -> forallb not_lt body = true.
Proof.
  intros (d & t1 & dot & t2 & -> & _ & Hd & H1 & _ & Hdot & _ & H2).
  rewrite !forallb_app.
  rewrite (forallb_weaken Re.is_digit not_lt d), (forallb_weaken Re.is_digit not_lt t1),
    (forallb_weaken is_dot not_lt dot), (forallb_weaken Re.is_digit not_lt t2);
    auto; intros c Hc; apply digit_or_dot_not_lt; auto.
Qed.

Lemma in_timestamp_re (tag : string) (s : list ascii) g rest :
  In (g, rest) (all (timestamp_re tag) None s) <->
  exists d t1 dot t2,
    s = str ("<" ++ tag ++ ">")%string
          ++ (d ++ t1 ++ dot ++ t2) ++ str ("</" ++ tag ++ ">")%string ++ rest
    /\ List.length d = 8 /\ forallb Re.is_digit d = true
    /\ forallb Re.is_digit t1 = true /\ t1 <> []
    /\ forallb is_dot dot = true /\ List.length dot <= 1
    /\ forallb Re.is_digit t2 = true
    /\ g = Some d.
Proof.
  unfold timestamp_re. rewrite in_all_Cat. split.
  - intros (g1 & r1 & H1 & H).
    apply in_all_Str in H1. destruct H1 as [-> ->].
    apply in_all_Cat in H. destruct H as (g2 & r2 & H2 & H).
    apply in_all_Grp in H2. destruct H2 as (g2' & H2 & ->).
    apply in_all_Rep in H2. destruct H2 as (-> & d & -> & Hd & Hlo & Hhi).
    rewrite firstn_app_exact in H.
    apply in_all_Cat in H. destruct H as (g3 & r3 & H3 & H).
    apply in_all_Rep in H3. destruct H3 as (-> & t1 & -> & Ht1 & Hlo1 & _).
    apply in_all_Cat in H. destruct H as (g4 & r4 & H4 & H).
    apply in_all_Rep in H4. destruct H4 as (-> & dot & -> & Hdot & _ & Hhi4).
    apply in_all_Cat in H. destruct H as (g5 & r5 & H5 & H).
    apply in_all_Rep in H5. destruct H5 as (-> & t2 & -> & Ht2 & _ & _).
    apply in_all_Str in H. destruct H as [-> ->].
    exists d, t1, dot, t2. simpl in Hhi, Hhi4.
    repeat split; auto; try lia.
    + now rewrite <- !app_assoc.
    + intros ->. simpl in Hlo1. lia.
  - intros (d & t1 & dot & t2 & -> & Ld & Hd & Ht1 & Hne & Hdot & Ldot & Ht2 & ->).
    rewrite <- !app_assoc.
    exists None, (d ++ t1 ++ dot ++ t2 ++ str ("</" ++ tag ++ ">")%string ++ rest).
    split; [now apply in_all_Str|].
    apply in_all_Cat.
    exists (Some d), (t1 ++ dot ++ t2 ++ str ("</" ++ tag ++ ">")%string ++ rest).
    split.
    { apply in_all_Grp. exists None. split.
      - apply in_all_Rep. split; auto. exists d. simpl. repeat split; auto; lia.
      - now rewrite firstn_app_exact. }
    apply in_all_Cat.
    exists (Some d), (dot ++ t2 ++ str ("</" ++ tag ++ ">")%string ++ rest).
    split.
    { apply in_all_Rep. split; auto. exists t1. simpl. repeat split; auto.
      destruct t1; [congruence|simpl; lia]. }
    apply in_all_Cat.
    exists (Some d), (t2 ++ str ("</" ++ tag ++ ">")%string ++ rest).
    split.
    { apply in_all_Rep. split; auto. exists dot. simpl. repeat split; auto; lia. }
    apply in_all_Cat.
    exists (Some d), (str ("</" ++ tag ++ ">")%string ++ rest).
    split.
    { apply in_all_Rep. split; auto. exists t2. simpl. repeat split; auto; lia. }
    now apply in_all_Str.
Qed.

Lemma firstn_8_app (d tl : list ascii) :
  List.length d = 8 -> firstn 8 (d ++ tl) = d.
Proof.
  intros H. rewrite <- H. replace (List.length d) with (List.length d + 0) by lia.
  rewrite firstn_app_2. simpl. apply app_nil_r.
Qed.

Lemma match_timestamp (tag : string) (s : list ascii) g rest :
  match_at (timestamp_re tag) s = Some (g, rest) <->
  exists body, s = timestamp_field tag body ++ rest
               /\ timestamp_text body /\ g = Some (firstn 8 body).
Proof.
  split.
  - intros H. apply match_at_in, in_timestamp_re in H.
    destruct H as (d & t1 & dot & t2 & -> & Ld & Hd & Ht1 & Hne & Hdot & Ldot & Ht2 & ->).
    exists (d ++ t1 ++ dot ++ t2). split; [|split].
    + unfold timestamp_field. now rewrite <- !app_assoc.
    + now exists d, t1, dot, t2.
    + now rewrite firstn_8_app.
  - intros (body & -> & Hb & ->).
    pose proof (timestamp_text_not_lt body Hb) as Hnl.
    destruct Hb as (d & t1 & dot & t2 & -> & Ld & Hd & Ht1 & Hne & Hdot & Ldot & Ht2).
    rewrite firstn_8_app by assumption.
    apply match_at_unique.
    + apply in_timestamp_re. exists d, t1, dot, t2.
      unfold timestamp_field. rewrite <- !app_assoc. repeat split; auto.
    + intros [g' rest'] H. apply in_timestamp_re in H.
      destruct H as (d' & t1' & dot' & t2' & E & Ld' & Hd' & Ht1' & Hne' & Hdot' & Ldot' & Ht2' & ->).
      unfold timestamp_field in E. rewrite <- !app_assoc in E.
      apply app_inv_head in E.
      assert (Hnl' : forallb not_lt (d' ++ t1' ++ dot' ++ t2') = true).
      { apply timestamp_text_not_lt. now exists d', t1', dot', t2'. }
      rewrite !app_assoc in E. rewrite <- !app_assoc in E.
      assert (E' : (d ++ t1 ++ dot ++ t2)
                     ++ "<"%char :: str ("/" ++ tag ++ ">")%string ++ rest
                   = (d' ++ t1' ++ dot' ++ t2')
                     ++ "<"%char :: str ("/" ++ tag ++ ">")%string ++ rest').
      { rewrite <- !app_assoc. exact E. }
      destruct (run_unique not_lt "<" eq_refl _ _ _ _ Hnl Hnl' E') as [Eb Er].
      apply app_inv_head in Er. subst rest'.
      f_equal. f_equal.
      apply (f_equal (firstn 8)) in Eb.
      now rewrite !firstn_8_app in Eb.
Qed.

Lemma search_timestamp (tag : string) (D : document) (date : list ascii) :
  search (timestamp_re tag) D = Some (Some date) <-> first_timestamp tag D date.
Proof.
  rewrite search_Some. split.
  - intros (pre & suf & rest & -> & Hm & Hmin).
    apply match_timestamp in Hm. destruct Hm as (body & -> & Hb & Hg).
    injection Hg as ->.
    exists pre, body, rest. repeat split; auto.
    intros pre2 body2 post2 E2 Hb2.
    destruct (Nat.le_gt_cases (List.length pre) (List.length pre2)) as [|Hl];
      [assumption|].
    specialize (Hmin pre2 _ E2 Hl).
    assert (Hm2 : match_at (timestamp_re tag) (timestamp_field tag body2 ++ post2)
                  = Some (Some (firstn 8 body2), post2)).
    { apply match_timestamp. now exists body2. }
    congruence.
  - intros (pre & body & post & -> & Hb & -> & Hmin).
    exists pre, (timestamp_field tag body ++ post), post. repeat split.
    + apply match_timestamp. now exists body.
    + intros pre2 suf2 E2 Hl.
      destruct (match_at (timestamp_re tag) suf2) as [[g rest]|] eqn:Em;
        [|reflexivity].
      exfalso. apply match_timestamp in Em.
      destruct Em as (body2 & -> & Hb2 & _).
      specialize (Hmin pre2 body2 rest E2 Hb2). lia.
Qed.

Lemma search_timestamp_group (tag : string) (D : document) g :
  search (timestamp_re tag) D = Some g -> exists date, g = Some date.
Proof.
  intros H. apply search_Some in H.
  destruct H as (pre & suf & rest & _ & Hm & _).
  apply match_timestamp in Hm. destruct Hm as (body & _ & _ & ->). eauto.
Qed.

Lemma no_timestamp (tag : string) (D : document) :
  search (timestamp_re tag) D = None <-> ~ has_timestamp tag D.
Proof.
  rewrite search_None. split.
  - intros H (pre & body & post & E & Hb).
    specialize (H pre _ E).
    assert (Hm : match_at (timestamp_re tag) (timestamp_field tag body ++ post)
                 = Some (Some (firstn 8 body), post)).
    { apply match_timestamp. now exists body. }
    congruence.
  - intros H pre suf E.
    destruct (match_at (timestamp_re tag) suf) as [[g rest]|] eqn:Em;
      [|reflexivity].
    exfalso. apply H. apply match_timestamp in Em.
    destruct Em as (body & -> & Hb & _). now exists pre, body, rest.
Qed.

Lemma first_timestamp_date (tag : string) (D : document) (date : list ascii) :
  first_timestamp tag D date ->
  List.length date = 8 /\ forallb Re.is_digit date = true.
Proof.
  intros (pre & body & post & _ & Hb & -> & _).
  destruct Hb as (d & t1 & dot & t2 & -> & Ld & Hd & _).
  rewrite firstn_8_app by assumption. auto.
Qed.

(** C5, as the code has it: the extraction of the date range succeeds
    exactly when the document has a DTSTART field and a DTEND field whose
    enclosed text is eight digits followed by at least one more digit, an
    optional point and further digits; it then returns the first eight
    digits of the leftmost such field of each kind; otherwise it fails
    with the date-range error.  A field holding the eight digits of a date
    and nothing more does not count. *)
Theorem date_range_spec (D : document) :
  (forall a b,
     extract_date_range D = Ok (a, b) <->
     first_timestamp "DTSTART" D a /\ first_timestamp "DTEND" D b)
  /\ (extract_date_range D
      = Raise (ValueError "Could not find date range in QFX file") <->
      ~ has_timestamp "DTSTART" D \/ ~ has_timestamp "DTEND" D)
  /\ (forall a b,
        extract_date_range D = Ok (a, b) ->
        List.length a = 8 /\ forallb Re.is_digit a = true
        /\ List.length b = 8 /\ forallb Re.is_digit b = true).
Proof.
  assert (H1 : forall a b,
            extract_date_range D = Ok (a, b) <->
            first_timestamp "DTSTART" D a /\ first_timestamp "DTEND" D b).
  { intros a b. unfold extract_date_range, DTSTART_re, DTEND_re.
    rewrite <- !search_timestamp. split.
    - destruct (search (timestamp_re "DTSTART") D) as [gs|] eqn:Es;
        [|discriminate].
      destruct (search (timestamp_re "DTEND") D) as [ge|] eqn:Ee;
        [|discriminate].
      destruct (search_timestamp_group _ _ _ Es) as (x & ->).
      destruct (search_timestamp_group _ _ _ Ee) as (y & ->).
      cbn [group1]. intros H. injection H as -> ->. auto.
    - intros [-> ->]. reflexivity. }
  split; [exact H1|]. split.
  - unfold extract_date_range, DTSTART_re, DTEND_re.
    rewrite <- !no_timestamp.
    destruct (search (timestamp_re "DTSTART") D) as [gs|];
      destruct (search (timestamp_re "DTEND") D) as [ge|]; split;
      try discriminate; auto; intros [H|H]; discriminate.
  - intros a b H. apply H1 in H. destruct H as [Ha Hb].
    apply first_timestamp_date in Ha. apply first_timestamp_date in Hb.
    tauto.
Qed.

(** C5, counterexample: with both fields present, each holding the eight
    digits of a date, the extraction fails. *)
Lemma date_only_fields_rejected :
  let D := str "<DTSTART>20240101</DTSTART><DTEND>20240131</DTEND>" in
  occurs (str "<DTSTART>20240101</DTSTART>") D
  /\ occurs (str "<DTEND>20240131</DTEND>") D
  /\ extract_date_range D
     = Raise (ValueError "Could not find date range in QFX file").
Proof.
  split; [|split].
  - now exists [], (str "<DTEND>20240131</DTEND>").
  - now exists (str "<DTSTART>20240101</DTSTART>"), [].
  - vm_compute. reflexivity.
Qed.


(** * Further properties of the program *)

(** ** Searching and scanning *)

Lemma list_eqb_eq (a b : list ascii) : list_eqb a b = true <-> a = b.
Proof.
  unfold list_eqb. destruct (list_eq_dec ascii_dec a b); split; congruence.
Qed.

(** [search] finds what [findall] reports first. *)
Lemma search_hd (r : regex) (dflt : list ascii) :
  consuming r ->
  (forall s g rest, match_at r s = Some (g, rest) -> exists v, g = Some v) ->
  forall s,
    match search r s with
    | Some g => group1 g
    | None => dflt
    end = hd dflt (findall r s).
Proof.
  intros Hc Hg. unfold findall. induction s as [|c s IH].
  - cbn [search]. destruct (match_at r []) as [[g rest]|] eqn:E;
      [|reflexivity].
    destruct (Hc _ _ _ E) as (w & Hw & E'). symmetry in E'.
    apply app_eq_nil in E'. destruct E' as [-> _]. congruence.
  - cbn [search]. destruct (match_at r (c :: s)) as [[g rest]|] eqn:E.
    + destruct (Hc _ _ _ E) as (w & Hw & E').
      destruct (Hg _ _ _ E) as (v & ->).
      rewrite E' in E |- *. rewrite (tokens_hit _ _ _ _ Hw E). reflexivity.
    + rewrite (tokens_lit _ _ _ E). exact IH.
Qed.

Lemma search_findall_nil (r : regex) :
  consuming r -> forall s, search r s = None <-> findall r s = [].
Proof.
  intros Hc. unfold findall. induction s as [|c s IH].
  - cbn [search]. destruct (match_at r []) as [[g rest]|] eqn:E;
      [|split; reflexivity].
    destruct (Hc _ _ _ E) as (w & Hw & E'). symmetry in E'.
    apply app_eq_nil in E'. destruct E' as [-> _]. congruence.
  - cbn [search]. destruct (match_at r (c :: s)) as [[g rest]|] eqn:E.
    + destruct (Hc _ _ _ E) as (w & Hw & E').
      rewrite E' in E |- *. rewrite (tokens_hit _ _ _ _ Hw E).
      split; discriminate.
    + rewrite (tokens_lit _ _ _ E). exact IH.
Qed.

(** The tokens of a text in which no match can start. *)
Lemma tokens_through_safe (r : regex) (Pr : ascii -> bool) :
  (forall s g rest, match_at r s = Some (g, rest) ->
     exists c u, s = "<"%char :: c :: u /\ Pr c = true) ->
  forall w t, safe Pr w = true ->
    tokens r (w ++ t) = map Lit w ++ tokens r t.
Proof.
  intros Hr. induction w as [|c w IH]; intros t Hs; [reflexivity|].
  assert (E : match_at r (c :: w ++ t) = None).
  { destruct (match_at r (c :: w ++ t)) as [[g rest]|] eqn:E; [|reflexivity].
    exfalso. destruct (Hr _ _ _ E) as (c2 & u & E0 & Hp).
    injection E0 as -> E0.
    simpl in Hs. apply andb_prop in Hs. destruct Hs as [Hs _].
    destruct w as [|c3 w]; [discriminate|].
    simpl in E0. injection E0 as -> _. rewrite Hp in Hs. discriminate. }
  simpl. rewrite (tokens_lit _ _ _ E). simpl. f_equal. apply IH.
  simpl in Hs. apply andb_prop in Hs. tauto.
Qed.

Lemma sub_lit_tokens_app (repl w : list ascii) (ts : list token) :
  sub_lit_tokens repl (map Lit w ++ ts) = w ++ sub_lit_tokens repl ts.
Proof.
  induction w as [|c w IH]; simpl; [reflexivity|now rewrite IH].
Qed.

Lemma hits_app_Lit (w : list ascii) (ts : list token) :
  hits (map Lit w ++ ts) = hits ts.
Proof.
  induction w as [|c w IH]; simpl; [reflexivity|exact IH].
Qed.

Lemma safe_inside (P : ascii -> bool) (a b : list ascii) :
  safe P (a ++ "<"%char :: b) = true ->
  exists c2 b', b = c2 :: b' /\ P c2 = false.
Proof.
  induction a as [|c a IH]; simpl; intros H.
  - apply andb_prop in H. destruct H as [H _].
    destruct b as [|c2 b']; [discriminate|].
    exists c2, b'. split; [reflexivity|]. now destruct (P c2).
  - apply andb_prop in H. destruct H as [_ H]. now apply IH.
Qed.

(** *** The scan reports every match *)

Section Reported.

Variable r : regex.
Variable Pr : ascii -> bool.

Hypothesis Hshape :
  forall s g rest, match_at r s = Some (g, rest) ->
    exists c u, s = "<"%char :: c :: u ++ rest
                /\ Pr c = true /\ safe Pr (c :: u) = true.

Lemma match_reported :
  forall D pre suf g rest,
    D = pre ++ suf -> match_at r suf = Some (g, rest) ->
    exists w, suf = w ++ rest /\ In (Hit w g) (tokens r D).
Proof.
  assert (Hind : forall n D pre suf g rest,
            List.length D <= n ->
            D = pre ++ suf -> match_at r suf = Some (g, rest) ->
            exists w, suf = w ++ rest /\ In (Hit w g) (tokens r D)).
  { induction n as [|n IH]; intros D pre suf g rest Hn ED Hm.
    - destruct D; [|simpl in Hn; lia].
      symmetry in ED. apply app_eq_nil in ED. destruct ED as [_ ->].
      destruct (Hshape _ _ _ Hm) as (c & u & E & _). discriminate.
    - destruct (match_at r D) as [[g' rest']|] eqn:E.
      + destruct (Hshape _ _ _ E) as (c' & u' & ED' & Hp' & Hs').
        assert (Et : tokens r D
                     = Hit ("<"%char :: c' :: u') g' :: tokens r rest').
        { rewrite ED' in E |- *.
          apply (tokens_hit r ("<"%char :: c' :: u') rest' g');
            [discriminate|exact E]. }
        assert (Hlen : List.length rest' <= n).
        { rewrite ED' in Hn. simpl in Hn. rewrite length_app in Hn. lia. }
        destruct (Hshape _ _ _ Hm) as (c & u & Esuf & Hp & Hs).
        assert (EE : pre ++ suf = ("<"%char :: c' :: u') ++ rest')
          by (rewrite <- ED; exact ED').
        apply app_eq_app in EE. destruct EE as (l & [[E1 E2]|[E1 E2]]).
        * destruct (IH rest' l suf g rest Hlen E2 Hm) as (w & Ew & Hin).
          exists w. split; [exact Ew|]. rewrite Et. now right.
        * destruct pre as [|p0 pre].
          -- simpl in ED. subst D. rewrite Hm in E. injection E as <- <-.
             exists ("<"%char :: c' :: u'). split; [exact ED'|].
             rewrite Et. now left.
          -- destruct l as [|x l].
             ++ simpl in E2. rewrite E2 in Hm.
                destruct (IH rest' [] rest' g rest Hlen eq_refl Hm)
                  as (w & Ew & Hin).
                exists w. split; [now rewrite E2|]. rewrite Et. now right.
             ++ exfalso. rewrite Esuf in E2. simpl in E2, E1.
                injection E2 as <- E2. injection E1 as _ E1.
                rewrite E1 in Hs'. apply safe_inside in Hs'.
                destruct Hs' as (c2 & b' & -> & Hc2).
                simpl in E2. injection E2 as -> _. congruence.
      + destruct pre as [|p0 pre].
        * simpl in ED. subst D. congruence.
        * subst D. cbn [app] in *. rewrite (tokens_lit _ _ _ E).
          destruct (IH (pre ++ suf) pre suf g rest) as (w & Ew & Hin);
            [simpl in Hn; lia|reflexivity|exact Hm|].
          exists w. split; [exact Ew|]. now right. }
  intros D pre suf g rest. now apply (Hind (List.length D)).
Qed.

Lemma in_hits (w : list ascii) (g : option (list ascii)) (ts : list token) :
  In (Hit w g) ts -> In (reported w g) (hits ts).
Proof.
  induction ts as [|[c|w' g'] ts IH]; simpl; [tauto| |].
  - intros [H|H]; [discriminate|auto].
  - intros [H|H]; [injection H as -> ->; now left|right; auto].
Qed.

Lemma findall_nil_no_match (D : document) :
  findall r D = [] -> no_match r D.
Proof.
  intros H pre suf E.
  destruct (match_at r suf) as [[g rest]|] eqn:Em; [|reflexivity].
  destruct (match_reported D pre suf g rest E Em) as (w & _ & Hin).
  apply in_hits in Hin. unfold findall in H. rewrite H in Hin. destruct Hin.
Qed.

End Reported.

(** ** A pass over the fields of one institution tag *)

Section IdPass.

Variables (c1 : ascii) (op' cl' op cl : list ascii).

Hypothesis Eop : op = "<"%char :: c1 :: op'.
Hypothesis Ecl : cl = "<"%char :: "/"%char :: cl'.
Hypothesis Hop : forallb not_lt (c1 :: op') = true.
Hypothesis Hcl : forallb not_lt cl' = true.
Hypothesis Hc1 : ascii_eqb "/" c1 = false.

Local Set Warnings "-notation-for-abbreviation".

Local Notation r := (field_re op Re.is_digit cl).
Local Notation l := (op ++ str "12139" ++ cl).
Local Notation repl := (op ++ str "10898" ++ cl).
Local Notation P1 := (fun c : ascii => ascii_eqb c c1).
Local Notation span := (fun w w' : list ascii => w = l /\ w' = repl).

Lemma match_fld (s : list ascii) g rest :
  match_at r s = Some (g, rest) <->
  exists v, s = (op ++ v ++ cl) ++ rest /\ forallb Re.is_digit v = true
            /\ v <> [] /\ g = Some v.
Proof.
  rewrite Ecl.
  rewrite (match_field_re op Re.is_digit "<" ("/"%char :: cl') s g rest eq_refl).
  split; intros (v & E & H); exists v; (split; [|exact H]); rewrite E;
    now rewrite <- !app_assoc.
Qed.

Lemma fld_unfold (v : list ascii) :
  op ++ v ++ cl = "<"%char :: (c1 :: op' ++ v ++ cl).
Proof. rewrite Eop. reflexivity. Qed.

Lemma fld_not_nil (v : list ascii) : op ++ v ++ cl <> [].
Proof. rewrite fld_unfold. discriminate. Qed.

Lemma safe_close (P : ascii -> bool) :
  P "/"%char = false -> safe P cl = true.
Proof.
  intros HP. rewrite Ecl. cbn [safe]. rewrite HP.
  change (ascii_eqb "<" "<") with true.
  change (ascii_eqb "/" "<") with false. cbn [negb andb].
  now apply safe_no_lt.
Qed.

Lemma safe_tail_fld (v : list ascii) :
  forallb Re.is_digit v = true ->
  safe P1 (c1 :: op' ++ v ++ cl) = true.
Proof.
  intros Hv. change (c1 :: op' ++ v ++ cl) with ((c1 :: op') ++ v ++ cl).
  apply safe_app; [now apply safe_no_lt|].
  apply safe_app.
  - apply safe_no_lt. apply (forallb_weaken Re.is_digit not_lt); [|exact Hv].
    intros c Hc. apply digit_or_dot_not_lt. now left.
  - apply safe_close. exact Hc1.
Qed.

Lemma safe_fld (P : ascii -> bool) (v : list ascii) :
  P c1 = false -> P "/"%char = false ->
  forallb Re.is_digit v = true -> safe P (op ++ v ++ cl) = true.
Proof.
  intros HP Hs Hv. rewrite Eop.
  apply safe_app.
  { change (safe P ("<"%char :: c1 :: op'))
      with ((if ascii_eqb "<" "<" then negb (P c1) else true)
            && safe P (c1 :: op')).
    rewrite HP, (safe_no_lt P _ Hop). reflexivity. }
  apply safe_app.
  - apply safe_no_lt. apply (forallb_weaken Re.is_digit not_lt); [|exact Hv].
    intros c Hc. apply digit_or_dot_not_lt. now left.
  - now apply safe_close.
Qed.

Lemma fld_shape :
  forall s g rest, match_at r s = Some (g, rest) ->
    exists c u, s = "<"%char :: c :: u ++ rest
                /\ P1 c = true /\ safe P1 (c :: u) = true.
Proof.
  intros s g rest H. apply match_fld in H.
  destruct H as (v & -> & Hv & _ & _).
  exists c1, (op' ++ v ++ cl). split; [|split].
  - rewrite fld_unfold. reflexivity.
  - apply ascii_eqb_refl.
  - now apply safe_tail_fld.
Qed.

Lemma fld_starts :
  forall s g rest, match_at r s = Some (g, rest) ->
    exists c u, s = "<"%char :: c :: u /\ P1 c = true.
Proof.
  intros s g rest H. destruct (fld_shape _ _ _ H) as (c & u & -> & Hp & _).
  now exists c, (u ++ rest).
Qed.

Lemma fld_local (P : ascii -> bool) :
  P c1 = false -> P "/"%char = false ->
  forall s g rest, match_at r s = Some (g, rest) ->
    exists w, s = w ++ rest
      /\ (exists c u, w = "<"%char :: c :: u /\ P1 c = true)
      /\ safe P w = true
      /\ forall rest', match_at r (w ++ rest') = Some (g, rest').
Proof.
  intros HP Hs s g rest H. apply match_fld in H.
  destruct H as (v & -> & Hv & Hne & ->).
  exists (op ++ v ++ cl). split; [reflexivity|]. split; [|split].
  - exists c1, (op' ++ v ++ cl). split; [apply fld_unfold|apply ascii_eqb_refl].
  - now apply safe_fld.
  - intros rest'. apply match_fld. now exists v.
Qed.

Lemma fld_consuming : consuming r.
Proof.
  intros s g rest H. apply match_fld in H. destruct H as (v & -> & _).
  exists (op ++ v ++ cl). split; [apply fld_not_nil|reflexivity].
Qed.

Lemma fld_group :
  forall s g rest, match_at r s = Some (g, rest) -> exists v, g = Some v.
Proof.
  intros s g rest H. apply match_fld in H. destruct H as (v & _ & _ & _ & ->).
  now exists v.
Qed.

Lemma pass_starts : starts span P1.
Proof.
  intros w w' [-> ->].
  exists c1, (op' ++ str "12139" ++ cl), (op' ++ str "10898" ++ cl).
  rewrite !fld_unfold. repeat split. apply ascii_eqb_refl.
Qed.

Lemma lit_shape :
  forall s g rest, match_at (Str l) s = Some (g, rest) ->
    exists c u, s = "<"%char :: c :: u ++ rest
                /\ P1 c = true /\ safe P1 (c :: u) = true.
Proof.
  intros s g rest H. apply match_Str in H. destruct H as [_ ->].
  exists c1, (op' ++ str "12139" ++ cl). split; [|split].
  - rewrite fld_unfold. reflexivity.
  - apply ascii_eqb_refl.
  - now apply safe_tail_fld.
Qed.

Lemma lit_starts :
  forall s g rest, match_at (Str l) s = Some (g, rest) ->
    exists c u, s = "<"%char :: c :: u /\ P1 c = true.
Proof.
  intros s g rest H. destruct (lit_shape _ _ _ H) as (c & u & -> & Hp & _).
  now exists c, (u ++ rest).
Qed.

Lemma lit_local (P : ascii -> bool) :
  P c1 = false -> P "/"%char = false ->
  forall s g rest, match_at (Str l) s = Some (g, rest) ->
    exists w, s = w ++ rest
      /\ (exists c u, w = "<"%char :: c :: u /\ P1 c = true)
      /\ safe P w = true
      /\ forall rest', match_at (Str l) (w ++ rest') = Some (g, rest').
Proof.
  intros HP Hs s g rest H. apply match_Str in H. destruct H as [-> ->].
  exists l. split; [reflexivity|]. split; [|split].
  - exists c1, (op' ++ str "12139" ++ cl).
    split; [apply fld_unfold|apply ascii_eqb_refl].
  - now apply safe_fld.
  - intros rest'. now apply match_Str.
Qed.

Lemma span_safe (P : ascii -> bool) :
  P c1 = false -> P "/"%char = false ->
  forall w w', span w w' -> safe P w = true /\ safe P w' = true.
Proof.
  intros HP Hs w w' [-> ->]. split; now apply safe_fld.
Qed.

(** The pass maps the value of every field of the tag through [remap]. *)
Lemma remap_pass :
  forall D, findall r (sub (Str l) repl D) = map remap (findall r D).
Proof.
  assert (Hind : forall n D, List.length D <= n ->
            findall r (sub (Str l) repl D) = map remap (findall r D)).
  { induction n as [|n IH]; intros D Hn.
    - destruct D; [reflexivity|simpl in Hn; lia].
    - destruct (match_at r D) as [[g rest]|] eqn:E.
      + pose proof E as E'. apply match_fld in E'.
        destruct E' as (v & ED & Hv & Hne & ->).
        assert (Hlen : List.length rest <= n).
        { rewrite ED, length_app, fld_unfold in Hn. simpl in Hn. lia. }
        rewrite ED in E |- *.
        unfold findall at 2.
        rewrite (tokens_hit r _ rest (Some v) (fld_not_nil v) E).
        cbn [hits reported map].
        assert (Em2 : match_at r ((op ++ remap v ++ cl)
                                    ++ sub (Str l) repl rest)
                      = Some (Some (remap v), sub (Str l) repl rest)).
        { apply match_fld. exists (remap v). repeat split.
          - unfold remap. now destruct (list_eqb v (str "12139")).
          - unfold remap. destruct (list_eqb v (str "12139"));
              [discriminate|exact Hne]. }
        assert (Es : sub (Str l) repl ((op ++ v ++ cl) ++ rest)
                     = (op ++ remap v ++ cl) ++ sub (Str l) repl rest).
        { unfold remap. destruct (list_eqb v (str "12139")) eqn:Ev.
          - apply list_eqb_eq in Ev. subst v.
            assert (Em : match_at (Str l) (l ++ rest) = Some (None, rest))
              by now apply match_Str.
            unfold sub.
            rewrite (tokens_hit (Str l) _ rest None (fld_not_nil _) Em).
            reflexivity.
          - assert (Em : match_at (Str l) ((op ++ v ++ cl) ++ rest) = None).
            { destruct (match_at (Str l) ((op ++ v ++ cl) ++ rest))
                as [[g2 rest2]|] eqn:Em; [|reflexivity].
              exfalso. apply match_Str in Em. destruct Em as [_ Em].
              rewrite <- !app_assoc in Em. apply app_inv_head in Em.
              rewrite Ecl in Em. cbn [app] in Em.
              destruct (run_unique Re.is_digit "<" eq_refl v (str "12139")
                          _ _ Hv eq_refl Em) as [Ev' _].
              subst v. rewrite list_eqb_refl in Ev. discriminate. }
            unfold sub. revert Em. rewrite (fld_unfold v). cbn [app].
            intros Em. rewrite (tokens_lit _ _ _ Em).
            change (c1 :: (op' ++ v ++ cl) ++ rest)
              with ((c1 :: op' ++ v ++ cl) ++ rest).
            rewrite (tokens_through_safe (Str l) P1 lit_starts _ _
                       (safe_tail_fld v Hv)).
            cbn [sub_lit_tokens]. rewrite sub_lit_tokens_app. reflexivity. }
        rewrite Es. unfold findall at 1.
        rewrite (tokens_hit r _ _ _ (fld_not_nil _) Em2).
        cbn [hits reported]. f_equal. now apply IH.
      + destruct D as [|c t]; [reflexivity|].
        assert (Em : match_at (Str l) (c :: t) = None).
        { destruct (match_at (Str l) (c :: t)) as [[g2 rest2]|] eqn:Em;
            [|reflexivity].
          exfalso. apply match_Str in Em. destruct Em as [_ Em].
          assert (E2 : match_at r (c :: t) = Some (Some (str "12139"), rest2)).
          { apply match_fld. exists (str "12139"). rewrite Em.
            repeat split. discriminate. }
          congruence. }
        unfold sub, findall.
        rewrite (tokens_lit _ _ _ Em), (tokens_lit _ _ _ E).
        cbn [sub_lit_tokens hits]. fold (sub (Str l) repl t).
        assert (E2 : match_at r (c :: sub (Str l) repl t) = None).
        { destruct (match_at r (c :: sub (Str l) repl t))
            as [[g2 rest2]|] eqn:E2; [|reflexivity].
          exfalso. apply match_fld in E2.
          destruct E2 as (v & E2 & Hv & Hne & ->).
          rewrite (fld_unfold v) in E2.
          change (("<"%char :: (c1 :: op' ++ v ++ cl)) ++ rest2)
            with ("<"%char :: ((c1 :: op' ++ v ++ cl) ++ rest2)) in E2.
          injection E2 as -> E2.
          assert (Hrw : rewrites span t ((c1 :: op' ++ v ++ cl) ++ rest2)).
          { exact (eq_ind _ (rewrites span t)
                     (sub_Str_rewrites l repl (fld_not_nil (str "12139")) t)
                     _ E2). }
          destruct (peel_new span P1 pass_starts (c1 :: op' ++ v ++ cl)
                      (safe_tail_fld v Hv) t rest2 Hrw) as (t0 & Et0 & _).
          assert (E3 : match_at r ("<"%char :: t) = Some (Some v, t0)).
          { apply match_fld. exists v. rewrite Et0, fld_unfold.
            repeat split; auto. }
          congruence. }
        rewrite (tokens_lit _ _ _ E2). cbn [hits].
        apply IH. simpl in Hn. lia. }
  intros D. now apply (Hind (List.length D)).
Qed.

(** After the pass the literal of the pass matches nowhere. *)
Lemma pass_removes :
  forall D, findall (Str l) (sub (Str l) repl D) = [].
Proof.
  assert (Hind : forall n D, List.length D <= n ->
            findall (Str l) (sub (Str l) repl D) = []).
  { induction n as [|n IH]; intros D Hn.
    - destruct D; [reflexivity|simpl in Hn; lia].
    - destruct (match_at (Str l) D) as [[g rest]|] eqn:E.
      + pose proof E as E'. apply match_Str in E'. destruct E' as [-> ED].
        assert (Hlen : List.length rest <= n).
        { rewrite ED, length_app, fld_unfold in Hn. simpl in Hn. lia. }
        rewrite ED in E |- *. unfold sub.
        rewrite (tokens_hit (Str l) _ rest None (fld_not_nil _) E).
        cbn [sub_lit_tokens]. fold (sub (Str l) repl rest).
        assert (Em : match_at (Str l) (repl ++ sub (Str l) repl rest) = None).
        { destruct (match_at (Str l) (repl ++ sub (Str l) repl rest))
            as [[g2 rest2]|] eqn:Em; [|reflexivity].
          exfalso. apply match_Str in Em. destruct Em as [_ Em].
          rewrite <- !app_assoc in Em. apply app_inv_head in Em.
          discriminate Em. }
        unfold findall. revert Em.
        set (S := sub (Str l) repl rest).
        rewrite (fld_unfold (str "10898")).
        change (("<"%char :: (c1 :: op' ++ str "10898" ++ cl)) ++ S)
          with ("<"%char :: ((c1 :: op' ++ str "10898" ++ cl) ++ S)).
        intros Em. rewrite (tokens_lit _ _ _ Em).
        rewrite (tokens_through_safe (Str l) P1 lit_starts _ _
                   (safe_tail_fld (str "10898") eq_refl)).
        cbn [hits]. rewrite hits_app_Lit. now apply IH.
      + destruct D as [|c t]; [reflexivity|].
        unfold sub, findall. rewrite (tokens_lit _ _ _ E).
        cbn [sub_lit_tokens]. fold (sub (Str l) repl t).
        assert (E2 : match_at (Str l) (c :: sub (Str l) repl t) = None).
        { set (S := sub (Str l) repl t).
          destruct (match_at (Str l) (c :: S))
            as [[g2 rest2]|] eqn:E2; [|reflexivity].
          exfalso. apply match_Str in E2. destruct E2 as [_ E2].
          assert (E2' : c :: S
                        = "<"%char
                          :: ((c1 :: op' ++ str "12139" ++ cl) ++ rest2)).
          { rewrite E2, (fld_unfold (str "12139")). reflexivity. }
          injection E2' as Ec ES. subst c. unfold S in ES.
          assert (Hrw : rewrites span t
                          ((c1 :: op' ++ str "12139" ++ cl) ++ rest2)).
          { exact (eq_ind _ (rewrites span t)
                     (sub_Str_rewrites l repl (fld_not_nil (str "12139")) t)
                     _ ES). }
          destruct (peel_new span P1 pass_starts
                      (c1 :: op' ++ str "12139" ++ cl)
                      (safe_tail_fld (str "12139") eq_refl) t rest2 Hrw)
            as (t0 & Et0 & _).
          assert (E3 : match_at (Str l) ("<"%char :: t) = Some (None, t0)).
          { apply match_Str. split; [reflexivity|].
            rewrite Et0, fld_unfold. reflexivity. }
          congruence. }
        rewrite (tokens_lit _ _ _ E2). cbn [hits].
        apply IH. simpl in Hn. lia. }
  intros D. now apply (Hind (List.length D)).
Qed.

End IdPass.

(** ** The institution fields under conversion *)

Lemma match_id (secondary : bool) (s : list ascii) g rest :
  match_at (id_re secondary) s = Some (g, rest) <->
  exists v, s = id_field secondary v ++ rest
            /\ forallb Re.is_digit v = true /\ v <> [] /\ g = Some v.
Proof.
  destruct secondary.
  - exact (match_fld (str "INTU.BID>") (str "<INTU.BID>") (str "</INTU.BID>")
             eq_refl s g rest).
  - exact (match_fld (str "FID>") (str "<FID>") (str "</FID>")
             eq_refl s g rest).
Qed.

Lemma id_consuming (secondary : bool) : consuming (id_re secondary).
Proof.
  destruct secondary.
  - exact (fld_consuming "I" (str "NTU.BID>") (str "INTU.BID>")
             (str "<INTU.BID>") (str "</INTU.BID>") eq_refl eq_refl).
  - exact (fld_consuming "F" (str "ID>") (str "FID>")
             (str "<FID>") (str "</FID>") eq_refl eq_refl).
Qed.

Lemma id_group (secondary : bool) :
  forall s g rest, match_at (id_re secondary) s = Some (g, rest) ->
                   exists v, g = Some v.
Proof.
  intros s g rest H. apply match_id in H.
  destruct H as (v & _ & _ & _ & ->). now exists v.
Qed.

Lemma id_shape (secondary : bool) :
  forall s g rest, match_at (id_re secondary) s = Some (g, rest) ->
    exists c u, s = "<"%char :: c :: u ++ rest
                /\ id_P secondary c = true
                /\ safe (id_P secondary) (c :: u) = true.
Proof.
  destruct secondary.
  - exact (fld_shape "I" (str "NTU.BID>") (str "INTU.BID>")
             (str "<INTU.BID>") (str "</INTU.BID>")
             eq_refl eq_refl eq_refl eq_refl eq_refl).
  - exact (fld_shape "F" (str "ID>") (str "FID>")
             (str "<FID>") (str "</FID>")
             eq_refl eq_refl eq_refl eq_refl eq_refl).
Qed.

Lemma id_local (secondary : bool) (P : ascii -> bool) :
  P (id_char secondary) = false -> P "/"%char = false ->
  forall s g rest, match_at (id_re secondary) s = Some (g, rest) ->
    exists w, s = w ++ rest
      /\ (exists c u, w = "<"%char :: c :: u /\ id_P secondary c = true)
      /\ safe P w = true
      /\ forall rest', match_at (id_re secondary) (w ++ rest')
                       = Some (g, rest').
Proof.
  destruct secondary; intros H1 H2.
  - exact (fld_local "I" (str "NTU.BID>") (str "INTU.BID>")
             (str "<INTU.BID>") (str "</INTU.BID>")
             eq_refl eq_refl eq_refl eq_refl P H1 H2).
  - exact (fld_local "F" (str "ID>") (str "FID>")
             (str "<FID>") (str "</FID>")
             eq_refl eq_refl eq_refl eq_refl P H1 H2).
Qed.

Lemma id_lit_shape (secondary : bool) :
  forall s g rest,
    match_at (Str (id_field secondary (str "12139"))) s = Some (g, rest) ->
    exists c u, s = "<"%char :: c :: u ++ rest
                /\ id_P secondary c = true
                /\ safe (id_P secondary) (c :: u) = true.
Proof.
  destruct secondary.
  - exact (lit_shape "I" (str "NTU.BID>") (str "INTU.BID>")
             (str "<INTU.BID>") (str "</INTU.BID>")
             eq_refl eq_refl eq_refl eq_refl eq_refl).
  - exact (lit_shape "F" (str "ID>") (str "FID>")
             (str "<FID>") (str "</FID>")
             eq_refl eq_refl eq_refl eq_refl eq_refl).
Qed.

Lemma id_lit_local (secondary : bool) (P : ascii -> bool) :
  P (id_char secondary) = false -> P "/"%char = false ->
  forall s g rest,
    match_at (Str (id_field secondary (str "12139"))) s = Some (g, rest) ->
    exists w, s = w ++ rest
      /\ (exists c u, w = "<"%char :: c :: u /\ id_P secondary c = true)
      /\ safe P w = true
      /\ forall rest',
           match_at (Str (id_field secondary (str "12139"))) (w ++ rest')
           = Some (g, rest').
Proof.
  destruct secondary; intros H1 H2.
  - exact (lit_local "I" (str "NTU.BID>") (str "INTU.BID>")
             (str "<INTU.BID>") (str "</INTU.BID>")
             eq_refl eq_refl eq_refl eq_refl P H1 H2).
  - exact (lit_local "F" (str "ID>") (str "FID>")
             (str "<FID>") (str "</FID>")
             eq_refl eq_refl eq_refl eq_refl P H1 H2).
Qed.

Lemma id_starts (secondary : bool) :
  starts (id_span secondary) (id_P secondary).
Proof.
  destruct secondary.
  - exact (pass_starts "I" (str "NTU.BID>") (str "<INTU.BID>")
             (str "</INTU.BID>") eq_refl).
  - exact (pass_starts "F" (str "ID>") (str "<FID>") (str "</FID>") eq_refl).
Qed.

Lemma id_span_safe (secondary : bool) (P : ascii -> bool) :
  P (id_char secondary) = false -> P "/"%char = false ->
  forall w w', id_span secondary w w' ->
               safe P w = true /\ safe P w' = true.
Proof.
  destruct secondary; intros H1 H2.
  - exact (span_safe "I" (str "NTU.BID>") (str "INTU.BID>")
             (str "<INTU.BID>") (str "</INTU.BID>")
             eq_refl eq_refl eq_refl eq_refl P H1 H2).
  - exact (span_safe "F" (str "ID>") (str "FID>")
             (str "<FID>") (str "</FID>")
             eq_refl eq_refl eq_refl eq_refl P H1 H2).
Qed.

Lemma id_remap_pass (secondary : bool) (D : document) :
  findall (id_re secondary)
    (sub (Str (id_field secondary (str "12139")))
         (id_field secondary (str "10898")) D)
  = map remap (findall (id_re secondary) D).
Proof.
  destruct secondary.
  - exact (remap_pass "I" (str "NTU.BID>") (str "INTU.BID>")
             (str "<INTU.BID>") (str "</INTU.BID>")
             eq_refl eq_refl eq_refl eq_refl eq_refl D).
  - exact (remap_pass "F" (str "ID>") (str "FID>")
             (str "<FID>") (str "</FID>")
             eq_refl eq_refl eq_refl eq_refl eq_refl D).
Qed.

Lemma id_pass_removes (secondary : bool) (D : document) :
  findall (Str (id_field secondary (str "12139")))
    (sub (Str (id_field secondary (str "12139")))
         (id_field secondary (str "10898")) D)
  = [].
Proof.
  destruct secondary.
  - exact (pass_removes "I" (str "NTU.BID>") (str "INTU.BID>")
             (str "<INTU.BID>") (str "</INTU.BID>")
             eq_refl eq_refl eq_refl eq_refl eq_refl D).
  - exact (pass_removes "F" (str "ID>") (str "FID>")
             (str "<FID>") (str "</FID>")
             eq_refl eq_refl eq_refl eq_refl eq_refl D).
Qed.

(** The three passes of [convert_qfx], one after the other. *)
Lemma convert_passes (D D' : document) :
  convert_qfx D = Ok D' ->
  exists D1 D2,
    D1 = sub (Str (id_field false (str "12139")))
             (id_field false (str "10898")) D
    /\ D2 = sub (Str (id_field true (str "12139")))
                (id_field true (str "10898")) D1
    /\ rewrites (id_span false) D D1
    /\ rewrites (id_span true) D1 D2
    /\ rewrites amt_span D2 D'.
Proof.
  unfold convert_qfx. intros H.
  eexists _, _. split; [reflexivity|]. split; [reflexivity|].
  split; [|split].
  - exact (sub_Str_rewrites (id_field false (str "12139"))
             (id_field false (str "10898")) ltac:(discriminate) D).
  - exact (sub_Str_rewrites (id_field true (str "12139"))
             (id_field true (str "10898")) ltac:(discriminate) _).
  - apply sub_fn_rewrites. exact H.
Qed.

(** Every institution field of the converted document holds the remapped
    value of the field of the input at the same position. *)
Lemma convert_ids (secondary : bool) (D D' : document) :
  convert_qfx D = Ok D' ->
  findall (id_re secondary) D' = map remap (findall (id_re secondary) D).
Proof.
  intros H. destruct (convert_passes D D' H) as (D1 & D2 & E1 & E2 & H1 & H2 & H3).
  assert (Ha : findall (id_re secondary) D' = findall (id_re secondary) D2).
  { unfold findall. symmetry.
    apply (hits_rewrites (id_re secondary) (id_P secondary) amt_span is_T
             starts_amt).
    - intros w w'. apply amt_span_safe; now destruct secondary.
    - apply id_local; now destruct secondary.
    - exact H3. }
  rewrite Ha. destruct secondary.
  - assert (Hb : findall (id_re true) D1 = findall (id_re true) D).
    { unfold findall. symmetry.
      apply (hits_rewrites (id_re true) (id_P true) (id_span false)
               (id_P false) (id_starts false)
               (id_span_safe false (id_P true) eq_refl eq_refl)
               (id_local true (id_P false) eq_refl eq_refl) _ _ H1). }
    rewrite E2, id_remap_pass, Hb. reflexivity.
  - assert (Hb : findall (id_re false) D2 = findall (id_re false) D1).
    { unfold findall. symmetry.
      apply (hits_rewrites (id_re false) (id_P false) (id_span true)
               (id_P true) (id_starts true)
               (id_span_safe true (id_P false) eq_refl eq_refl)
               (id_local false (id_P true) eq_refl eq_refl) _ _ H2). }
    rewrite Hb, E1, id_remap_pass. reflexivity.
Qed.

(** The literal of each pass matches nowhere in the converted document. *)
Lemma convert_lit (secondary : bool) (D D' : document) :
  convert_qfx D = Ok D' ->
  findall (Str (id_field secondary (str "12139"))) D' = [].
Proof.
  intros H. destruct (convert_passes D D' H) as (D1 & D2 & E1 & E2 & H1 & H2 & H3).
  assert (Ha : findall (Str (id_field secondary (str "12139"))) D'
               = findall (Str (id_field secondary (str "12139"))) D2).
  { unfold findall. symmetry.
    apply (hits_rewrites (Str (id_field secondary (str "12139")))
             (id_P secondary) amt_span is_T starts_amt).
    - intros w w'. apply amt_span_safe; now destruct secondary.
    - apply id_lit_local; now destruct secondary.
    - exact H3. }
  rewrite Ha. destruct secondary.
  - rewrite E2. apply id_pass_removes.
  - assert (Hb : findall (Str (id_field false (str "12139"))) D2
               = findall (Str (id_field false (str "12139"))) D1).
    { unfold findall. symmetry.
      apply (hits_rewrites (Str (id_field false (str "12139")))
               (id_P false) (id_span true)
               (id_P true) (id_starts true)
               (id_span_safe true (id_P false) eq_refl eq_refl)
               (id_lit_local false (id_P true) eq_refl eq_refl) _ _ H2). }
    rewrite Hb, E1. apply id_pass_removes.
Qed.

(** ** What the verifier sees of a converted document *)

Lemma extract_id (secondary : bool) (D : document) (el : elements) :
  extract_key_elements D = Ok el ->
  id_of secondary el
  = hd (str "Not found") (findall (id_re secondary) D).
Proof.
  unfold extract_key_elements. intros H.
  apply bind_Ok in H. destruct H as (vs & _ & H). injection H as <-.
  destruct secondary; cbn [id_of FID INTU_BID].
  - exact (search_hd (id_re true) (str "Not found") (id_consuming true)
             (id_group true) D).
  - exact (search_hd (id_re false) (str "Not found") (id_consuming false)
             (id_group false) D).
Qed.

Lemma hd_map_remap (l : list (list ascii)) :
  hd (str "Not found") (map remap l) = remap (hd (str "Not found") l).
Proof. destruct l; reflexivity. Qed.

Lemma changed_remap (v : list ascii) :
  negb (list_eqb v (remap v)) = list_eqb v (str "12139").
Proof.
  unfold remap. destruct (list_eqb v (str "12139")) eqn:E.
  - apply list_eqb_eq in E. subst v. reflexivity.
  - now rewrite list_eqb_refl.
Qed.

Lemma remap_not_12139 (v : list ascii) :
  list_eqb (remap v) (str "12139") = false.
Proof.
  unfold remap. destruct (list_eqb v (str "12139")) eqn:E;
    [reflexivity|exact E].
Qed.

Lemma convert_Ok_extract (D D' : document) :
  convert_qfx D = Ok D' -> exists el, extract_key_elements D = Ok el.
Proof.
  intros H. destruct (convert_amounts D D' H) as (vs & Hvs & _).
  pose proof (extract_defined D) as Hd. rewrite Hvs in Hd.
  destruct Hd as (el & Hel & _). now exists el.
Qed.

(** The elements of the converted document, from those of the input. *)
Lemma convert_elements (D D' : document) (el : elements) :
  convert_qfx D = Ok D' -> extract_key_elements D = Ok el ->
  exists el',
    extract_key_elements D' = Ok el'
    /\ FID el' = remap (FID el)
    /\ INTU_BID el' = remap (INTU_BID el)
    /\ amounts el' = map Float.neg (amounts el)
    /\ transaction_count el' = transaction_count el.
Proof.
  intros H Hel.
  destruct (extract_Ok D el Hel) as [Ha Hc].
  destruct (convert_extract D _ Ha) as (D0 & HD0 & Ha').
  rewrite H in HD0. injection HD0 as <-.
  pose proof (extract_defined D') as Hd. rewrite Ha' in Hd.
  destruct Hd as (el' & Hel' & Hamt).
  exists el'. split; [exact Hel'|].
  pose proof (extract_id false D el Hel) as HF.
  pose proof (extract_id true D el Hel) as HI.
  pose proof (extract_id false D' el' Hel') as HF'.
  pose proof (extract_id true D' el' Hel') as HI'.
  cbn [id_of] in HF, HI, HF', HI'.
  rewrite (convert_ids false D D' H), hd_map_remap, <- HF in HF'.
  rewrite (convert_ids true D D' H), hd_map_remap, <- HI in HI'.
  repeat split; auto.
  destruct (extract_Ok D' el' Hel') as [_ Hc'].
  now rewrite Hc', Hc, (convert_STMTTRN D D' H).
Qed.

Lemma forallb_neg (vs : list Float.float) :
  forallb (fun oc => negb (off_by_more (fst oc) (snd oc)))
          (combine vs (map Float.neg vs)) = true.
Proof.
  induction vs as [|v vs IH]; [reflexivity|].
  cbn [map combine forallb fst snd]. now rewrite off_by_more_neg, IH.
Qed.

Lemma signs_first5_forallb (a b : list Float.float) :
  signs_first5 a b
  = forallb (fun oc => negb (off_by_more (fst oc) (snd oc)))
            (combine (firstn 5 a) (firstn 5 b)).
Proof.
  unfold signs_first5.
  assert (H : forall (l : list (Float.float * Float.float)) (acc : bool),
            fold_left
              (fun signs_reversed oc =>
                 if off_by_more (fst oc) (snd oc) then false
                 else signs_reversed) l acc
            = acc && forallb (fun oc => negb (off_by_more (fst oc) (snd oc))) l).
  { induction l as [|oc l IH]; intros acc; cbn [fold_left forallb].
    - now rewrite andb_true_r.
    - rewrite IH. destruct (off_by_more (fst oc) (snd oc)), acc; reflexivity. }
  now rewrite H.
Qed.

(** What [verify_conversion] returns on a document and its conversion. *)
Lemma verify_converted (D D' : document) (el : elements) :
  convert_qfx D = Ok D' -> extract_key_elements D = Ok el ->
  verify_conversion D D'
  = Ok (list_eqb (FID el) (str "12139")
        && list_eqb (INTU_BID el) (str "12139")).
Proof.
  intros H Hel.
  destruct (convert_elements D D' el H Hel) as (el' & Hel' & HF & HI & Ha & Hc).
  rewrite (verify_conversion_spec D D' el el' Hel Hel').
  rewrite HF, HI, Ha, Hc, Nat.eqb_refl, !changed_remap, forallb_neg.
  f_equal. rewrite andb_true_r.
  now destruct (nonempty (amounts el) && nonempty (map Float.neg (amounts el)));
    rewrite andb_true_r.
Qed.

Lemma standalone_converted (D D' : document) (el : elements) :
  convert_qfx D = Ok D' -> extract_key_elements D = Ok el ->
  standalone_all_good D D'
  = Ok (list_eqb (FID el) (str "12139")
        && list_eqb (INTU_BID el) (str "12139")).
Proof.
  intros H Hel.
  destruct (convert_elements D D' el H Hel) as (el' & Hel' & HF & HI & Ha & Hc).
  unfold standalone_all_good. rewrite Hel, Hel'. cbn [bind].
  rewrite HF, HI, Ha, Hc, Nat.eqb_refl, !changed_remap, signs_first5_forallb.
  rewrite firstn_map, forallb_neg. now rewrite !andb_true_r.
Qed.

Lemma mapM_length {A B : Type} (f : A -> result B) (l : list A) (vs : list B) :
  mapM f l = Ok vs -> List.length vs = List.length l.
Proof.
  revert vs. induction l as [|a l IH]; intros vs H.
  - injection H as <-. reflexivity.
  - cbn [mapM] in H. apply bind_Ok in H. destruct H as (b & _ & H).
    apply bind_Ok in H. destruct H as (bs & Hbs & H). injection H as <-.
    simpl. now rewrite (IH bs Hbs).
Qed.

(** X1: in the converted document every institution field, primary or
    secondary, holds the remapped value of the field at the same position
    of the input: [12139] has become [10898] and every other value is
    kept.  So the institution values the verifier extracts from the
    converted document are the remapped ones of the input, the marker of
    a missing field staying as it is. *)
Theorem converted_institution_values (D D' : document) :
  convert_qfx D = Ok D' ->
  (forall secondary,
     findall (id_re secondary) D'
     = map remap (findall (id_re secondary) D))
  /\ exists el el',
       extract_key_elements D = Ok el
       /\ extract_key_elements D' = Ok el'
       /\ forall secondary,
            id_of secondary el' = remap (id_of secondary el).
Proof.
  intros H. split.
  - intros secondary. now apply convert_ids.
  - destruct (convert_Ok_extract D D' H) as (el & Hel).
    destruct (convert_elements D D' el H Hel) as (el' & Hel' & HF & HI & _).
    exists el, el'. repeat split; auto. now intros [|].
Qed.

Lemma converted_institution_values_witness :
  exists D',
    convert_qfx mixed_document = Ok D'
    /\ (forall secondary,
          findall (id_re secondary) D'
          = map remap (findall (id_re secondary) mixed_document))
    /\ exists el el',
         extract_key_elements mixed_document = Ok el
         /\ extract_key_elements D' = Ok el'
         /\ forall secondary,
              id_of secondary el' = remap (id_of secondary el).
Proof.
  eexists. split; [vm_compute; reflexivity|].
  apply (converted_institution_values mixed_document).
  vm_compute. reflexivity.
Defined.



(** X3: on a document and its conversion the standalone script reaches
    the verdict of [verify_conversion], however many amounts there are. *)
Theorem standalone_agrees_on_converted (D D' : document) :
  convert_qfx D = Ok D' ->
  standalone_all_good D D' = verify_conversion D D'.
Proof.
  intros H. destruct (convert_Ok_extract D D' H) as (el & Hel).
  now rewrite (standalone_converted D D' el H Hel),
              (verify_converted D D' el H Hel).
Qed.

Lemma standalone_agrees_on_converted_witness :
  exists D',
    convert_qfx six_original = Ok D'
    /\ standalone_all_good six_original D'
       = verify_conversion six_original D'.
Proof.
  eexists. split; [vm_compute; reflexivity|].
  apply (standalone_agrees_on_converted six_original).
  vm_compute. reflexivity.
Defined.

(** X4: the converted document contains neither the primary nor the
    secondary institution field holding [12139]. *)
Theorem converted_has_no_12139 (D D' : document) :
  convert_qfx D = Ok D' ->
  forall secondary, ~ occurs (id_field secondary (str "12139")) D'.
Proof.
  intros H secondary (pre & post & E).
  pose proof (convert_lit secondary D D' H) as Hl.
  apply (findall_nil_no_match _ (id_P secondary) (id_lit_shape secondary))
    in Hl.
  specialize (Hl pre _ E).
  assert (Hm : match_at (Str (id_field secondary (str "12139")))
                 (id_field secondary (str "12139") ++ post)
               = Some (None, post)) by now apply match_Str.
  congruence.
Qed.

Lemma converted_has_no_12139_witness :
  exists D',
    convert_qfx mixed_document = Ok D'
    /\ forall secondary, ~ occurs (id_field secondary (str "12139")) D'.
Proof.
  eexists. split; [vm_compute; reflexivity|].
  apply (converted_has_no_12139 mixed_document). vm_compute. reflexivity.
Defined.

(** X5: converting a converted document again yields a document that
    fails the verification against it: the institution values are not
    [12139] any more. *)
Theorem reconversion_fails_verification (D D' D'' : document) :
  convert_qfx D = Ok D' -> convert_qfx D' = Ok D'' ->
  verify_conversion D' D'' = Ok false.
Proof.
  intros H H'. destruct (convert_Ok_extract D D' H) as (el & Hel).
  destruct (convert_elements D D' el H Hel) as (el' & Hel' & HF & _).
  rewrite (verify_converted D' D'' el' H' Hel'), HF, remap_not_12139.
  reflexivity.
Qed.

Lemma reconversion_fails_verification_witness :
  exists D' D'',
    convert_qfx statement = Ok D' /\ convert_qfx D' = Ok D''
    /\ verify_conversion D' D'' = Ok false.
Proof.
  eexists. eexists. split; [vm_compute; reflexivity|].
  split; [vm_compute; reflexivity|].
  apply (reconversion_fails_verification statement);
    vm_compute; reflexivity.
Defined.

(** X6: when one of the two documents has at most five amount fields,
    the standalone script computes what [verify_conversion] returns, the
    error included when an amount cannot be read. *)
Theorem verifiers_agree (original converted : document) :
  List.length (findall TRNAMT_re original) <= 5
  \/ List.length (findall TRNAMT_re converted) <= 5 ->
  standalone_all_good original converted
  = verify_conversion original converted.
Proof.
  intros Hlen.
  unfold standalone_all_good, verify_conversion, verify_report.
  destruct (extract_key_elements original) as [eo|e] eqn:Ho; [|reflexivity].
  destruct (extract_key_elements converted) as [ec|e] eqn:Hc; [|reflexivity].
  cbn [bind]. unfold check. cbn [success]. f_equal. f_equal.
  rewrite signs_first5_forallb, signs_loop_forallb, <- combine_firstn.
  destruct (extract_Ok _ _ Ho) as [Hao _].
  destruct (extract_Ok _ _ Hc) as [Hac _].
  apply mapM_length in Hao. apply mapM_length in Hac.
  rewrite firstn_all2 by (rewrite length_combine; lia).
  destruct (amounts eo), (amounts ec); reflexivity.
Qed.

Lemma verifiers_agree_witness :
  standalone_all_good two_amounts malformed_amount
  = verify_conversion two_amounts malformed_amount
  /\ standalone_all_good statement two_amounts
     = verify_conversion statement two_amounts.
Proof.
  split.
  - apply (verifiers_agree two_amounts malformed_amount).
    left. vm_compute. lia.
  - apply (verifiers_agree statement two_amounts). left. vm_compute. lia.
Defined.

(** X7: the converter and the extraction read the same amounts: one
    raises an error exactly when the other raises it, and one returns
    exactly when the other does. *)
Theorem convert_and_extract_fail_together (D : document) :
  (forall e, convert_qfx D = Raise e <-> extract_key_elements D = Raise e)
  /\ ((exists D', convert_qfx D = Ok D')
      <-> (exists el, extract_key_elements D = Ok el)).
Proof.
  pose proof (convert_defined D) as Hc.
  pose proof (extract_defined D) as He.
  destruct (amounts_of D) as [vs|e0].
  - destruct Hc as (D' & HD'). destruct He as (el & Hel & _). split.
    + intros e. rewrite HD', Hel. split; discriminate.
    + split; intros _; [now exists el|now exists D'].
  - rewrite Hc, He. split.
    + intros e. split; intros H; injection H as <-; reflexivity.
    + split; intros (x & Hx); discriminate.
Qed.

(** ** The institution values of a document *)

Lemma search_id (secondary : bool) (D : document) (v : list ascii) :
  search (id_re secondary) D = Some (Some v) <-> first_id secondary D v.
Proof.
  rewrite search_Some. split.
  - intros (pre & suf & rest & -> & Hm & Hmin).
    apply match_id in Hm. destruct Hm as (v0 & -> & Hv & Hne & Hg).
    injection Hg as ->.
    exists pre, rest. repeat split; auto.
    intros pre2 v2 post2 E2 Hne2 Hv2.
    destruct (Nat.le_gt_cases (List.length pre) (List.length pre2)) as [|Hl];
      [assumption|].
    specialize (Hmin pre2 _ E2 Hl).
    assert (Hm2 : match_at (id_re secondary) (id_field secondary v2 ++ post2)
                  = Some (Some v2, post2)).
    { apply match_id. now exists v2. }
    congruence.
  - intros (pre & post & -> & Hne & Hv & Hmin).
    exists pre, (id_field secondary v ++ post), post. repeat split.
    + apply match_id. now exists v.
    + intros pre2 suf2 E2 Hl.
      destruct (match_at (id_re secondary) suf2) as [[g rest]|] eqn:Em;
        [|reflexivity].
      exfalso. apply match_id in Em.
      destruct Em as (v2 & -> & Hv2 & Hne2 & _).
      specialize (Hmin pre2 v2 rest E2 Hne2 Hv2). lia.
Qed.

Lemma no_id (secondary : bool) (D : document) :
  search (id_re secondary) D = None <-> ~ has_id secondary D.
Proof.
  rewrite search_None. split.
  - intros H (pre & v & post & E & Hne & Hv).
    specialize (H pre _ E).
    assert (Hm : match_at (id_re secondary) (id_field secondary v ++ post)
                 = Some (Some v, post)).
    { apply match_id. now exists v. }
    congruence.
  - intros H pre suf E.
    destruct (match_at (id_re secondary) suf) as [[g rest]|] eqn:Em;
      [|reflexivity].
    exfalso. apply H. apply match_id in Em.
    destruct Em as (v & -> & Hv & Hne & _). now exists pre, v, rest.
Qed.

Lemma id_of_search (secondary : bool) (D : document) (el : elements) :
  extract_key_elements D = Ok el ->
  id_of secondary el
  = match search (id_re secondary) D with
    | Some g => group1 g
    | None => str "Not found"
    end.
Proof.
  unfold extract_key_elements. intros H.
  apply bind_Ok in H. destruct H as (vs & _ & H). injection H as <-.
  now destruct secondary.
Qed.

(** X8: the institution value the extraction files under a tag is the
    digits of the leftmost field of that tag that holds digits and
    nothing else; when the document has no such field it is the marker
    [Not found], which no field can produce. *)
Theorem extract_institution_spec (D : document) (el : elements)
    (secondary : bool) :
  extract_key_elements D = Ok el ->
  (first_id secondary D (id_of secondary el)
   /\ id_of secondary el <> str "Not found")
  \/ (~ has_id secondary D /\ id_of secondary el = str "Not found").
Proof.
  intros H. rewrite (id_of_search secondary D el H).
  destruct (search (id_re secondary) D) as [g|] eqn:Es.
  - left. pose proof Es as Es'. apply search_Some in Es'.
    destruct Es' as (pre & suf & rest & _ & Hm & _).
    destruct (id_group secondary _ _ _ Hm) as (v & ->).
    cbn [group1]. apply search_id in Es. split; [exact Es|].
    destruct Es as (_ & _ & _ & _ & Hv & _). intros ->. discriminate.
  - right. split; [now apply no_id|reflexivity].
Qed.

Lemma extract_institution_spec_witness :
  exists el,
    extract_key_elements mixed_document = Ok el
    /\ ((first_id false mixed_document (id_of false el)
         /\ id_of false el <> str "Not found")
        \/ (~ has_id false mixed_document
            /\ id_of false el = str "Not found")).
Proof.
  eexists. split; [vm_compute; reflexivity|].
  apply (extract_institution_spec mixed_document _ false).
  vm_compute. reflexivity.
Defined.

(** ** The dated fields *)

Lemma firstn_app_length (n : nat) (d tl : list ascii) :
  List.length d = n -> firstn n (d ++ tl) = d.
Proof.
  intros H. rewrite <- H.
  replace (List.length d) with (List.length d + 0) by lia.
  rewrite firstn_app_2. simpl. apply app_nil_r.
Qed.

Lemma stamp_text_not_lt (n : nat) (body : list ascii) :
  stamp_text n body -> forallb not_lt body = true.
Proof.
  intros (d & t1 & dot & t2 & -> & _ & Hd & H1 & _ & Hdot & _ & H2).
  rewrite !forallb_app.
  rewrite (forallb_weaken Re.is_digit not_lt d),
    (forallb_weaken Re.is_digit not_lt t1),
    (forallb_weaken is_dot not_lt dot),
    (forallb_weaken Re.is_digit not_lt t2);
    auto; intros c Hc; apply digit_or_dot_not_lt; auto.
Qed.

Lemma in_stamp_re (n : nat) (a b s : list ascii) g rest :
  In (g, rest) (all (stamp_re n a b) None s) <->
  exists d t1 dot t2,
    s = a ++ (d ++ t1 ++ dot ++ t2) ++ b ++ rest
    /\ List.length d = n /\ forallb Re.is_digit d = true
    /\ forallb Re.is_digit t1 = true /\ t1 <> []
    /\ forallb is_dot dot = true /\ List.length dot <= 1
    /\ forallb Re.is_digit t2 = true
    /\ g = Some d.
Proof.
  unfold stamp_re. rewrite in_all_Cat. split.
  - intros (g1 & r1 & H1 & H).
    apply in_all_Str in H1. destruct H1 as [-> ->].
    apply in_all_Cat in H. destruct H as (g2 & r2 & H2 & H).
    apply in_all_Grp in H2. destruct H2 as (g2' & H2 & ->).
    apply in_all_Rep in H2. destruct H2 as (-> & d & -> & Hd & Hlo & Hhi).
    rewrite firstn_app_exact in H.
    apply in_all_Cat in H. destruct H as (g3 & r3 & H3 & H).
    apply in_all_Rep in H3. destruct H3 as (-> & t1 & -> & Ht1 & Hlo1 & _).
    apply in_all_Cat in H. destruct H as (g4 & r4 & H4 & H).
    apply in_all_Rep in H4. destruct H4 as (-> & dot & -> & Hdot & _ & Hhi4).
    apply in_all_Cat in H. destruct H as (g5 & r5 & H5 & H).
    apply in_all_Rep in H5. destruct H5 as (-> & t2 & -> & Ht2 & _ & _).
    apply in_all_Str in H. destruct H as [-> ->].
    exists d, t1, dot, t2. simpl in Hhi, Hhi4.
    repeat split; auto; try lia.
    + now rewrite <- !app_assoc.
    + intros ->. simpl in Hlo1. lia.
  - intros (d & t1 & dot & t2 & -> & Ld & Hd & Ht1 & Hne & Hdot & Ldot & Ht2 & ->).
    rewrite <- !app_assoc.
    exists None, (d ++ t1 ++ dot ++ t2 ++ b ++ rest).
    split; [now apply in_all_Str|].
    apply in_all_Cat.
    exists (Some d), (t1 ++ dot ++ t2 ++ b ++ rest).
    split.
    { apply in_all_Grp. exists None. split.
      - apply in_all_Rep. split; auto. exists d. simpl. repeat split; auto; lia.
      - now rewrite firstn_app_exact. }
    apply in_all_Cat.
    exists (Some d), (dot ++ t2 ++ b ++ rest).
    split.
    { apply in_all_Rep. split; auto. exists t1. simpl. repeat split; auto.
      destruct t1; [congruence|simpl; lia]. }
    apply in_all_Cat.
    exists (Some d), (t2 ++ b ++ rest).
    split.
    { apply in_all_Rep. split; auto. exists dot. simpl. repeat split; auto; lia. }
    apply in_all_Cat.
    exists (Some d), (b ++ rest).
    split.
    { apply in_all_Rep. split; auto. exists t2. simpl. repeat split; auto; lia. }
    now apply in_all_Str.
Qed.

Section Stamp.

Variables (n : nat) (c1 : ascii) (op' cl' op cl : list ascii).

Hypothesis Eop : op = "<"%char :: c1 :: op'.
Hypothesis Ecl : cl = "<"%char :: "/"%char :: cl'.
Hypothesis Hop : forallb not_lt (c1 :: op') = true.
Hypothesis Hcl : forallb not_lt cl' = true.
Hypothesis Hc1 : ascii_eqb "/" c1 = false.

Local Set Warnings "-notation-for-abbreviation".

Local Notation r := (stamp_re n op cl).
Local Notation P1 := (fun c : ascii => ascii_eqb c c1).

Lemma match_stamp (s : list ascii) g rest :
  match_at r s = Some (g, rest) <->
  exists body, s = (op ++ body ++ cl) ++ rest
               /\ stamp_text n body /\ g = Some (firstn n body).
Proof.
  split.
  - intros H. apply match_at_in, in_stamp_re in H.
    destruct H as (d & t1 & dot & t2 & -> & Ld & Hd & Ht1 & Hne & Hdot & Ldot & Ht2 & ->).
    exists (d ++ t1 ++ dot ++ t2). split; [|split].
    + now rewrite <- !app_assoc.
    + now exists d, t1, dot, t2.
    + now rewrite firstn_app_length.
  - intros (body & -> & Hb & ->).
    pose proof (stamp_text_not_lt n body Hb) as Hnl.
    destruct Hb as (d & t1 & dot & t2 & -> & Ld & Hd & Ht1 & Hne & Hdot & Ldot & Ht2).
    rewrite firstn_app_length by assumption.
    apply match_at_unique.
    + apply in_stamp_re. exists d, t1, dot, t2.
      rewrite <- !app_assoc. repeat split; auto.
    + intros [g' rest'] H. apply in_stamp_re in H.
      destruct H as (d' & t1' & dot' & t2' & E & Ld' & Hd' & Ht1' & Hne' & Hdot' & Ldot' & Ht2' & ->).
      rewrite <- !app_assoc in E.
      apply app_inv_head in E.
      assert (Hnl' : forallb not_lt (d' ++ t1' ++ dot' ++ t2') = true).
      { apply (stamp_text_not_lt n). now exists d', t1', dot', t2'. }
      assert (E' : (d ++ t1 ++ dot ++ t2)
                     ++ "<"%char :: ("/"%char :: cl') ++ rest
                   = (d' ++ t1' ++ dot' ++ t2')
                     ++ "<"%char :: ("/"%char :: cl') ++ rest').
      { rewrite Ecl in E. rewrite <- !app_assoc. exact E. }
      destruct (run_unique not_lt "<" eq_refl _ _ _ _ Hnl Hnl' E') as [Eb Er].
      apply app_inv_head in Er. subst rest'.
      f_equal. f_equal.
      apply (f_equal (firstn n)) in Eb.
      now rewrite !firstn_app_length in Eb.
Qed.

Lemma stamp_unfold (v : list ascii) :
  op ++ v ++ cl = "<"%char :: (c1 :: op' ++ v ++ cl).
Proof. rewrite Eop. reflexivity. Qed.

Lemma safe_stamp (P : ascii -> bool) (v : list ascii) :
  P c1 = false -> P "/"%char = false ->
  forallb not_lt v = true -> safe P (op ++ v ++ cl) = true.
Proof.
  intros HP Hs Hv. rewrite Eop.
  apply safe_app.
  { change (safe P ("<"%char :: c1 :: op'))
      with ((if ascii_eqb "<" "<" then negb (P c1) else true)
            && safe P (c1 :: op')).
    rewrite HP, (safe_no_lt P _ Hop). reflexivity. }
  apply safe_app; [now apply safe_no_lt|].
  exact (safe_close cl' cl Ecl Hcl P Hs).
Qed.

Lemma safe_tail_stamp (v : list ascii) :
  forallb not_lt v = true -> safe P1 (c1 :: op' ++ v ++ cl) = true.
Proof.
  intros Hv. change (c1 :: op' ++ v ++ cl) with ((c1 :: op') ++ v ++ cl).
  apply safe_app; [now apply safe_no_lt|].
  apply safe_app; [now apply safe_no_lt|].
  exact (safe_close cl' cl Ecl Hcl P1 Hc1).
Qed.

Lemma stamp_shape :
  forall s g rest, match_at r s = Some (g, rest) ->
    exists c u, s = "<"%char :: c :: u ++ rest
                /\ P1 c = true /\ safe P1 (c :: u) = true.
Proof.
  intros s g rest H. apply match_stamp in H.
  destruct H as (body & -> & Hb & _).
  exists c1, (op' ++ body ++ cl). split; [|split].
  - rewrite stamp_unfold. reflexivity.
  - apply ascii_eqb_refl.
  - apply safe_tail_stamp. now apply (stamp_text_not_lt n).
Qed.

Lemma stamp_local (P : ascii -> bool) :
  P c1 = false -> P "/"%char = false ->
  forall s g rest, match_at r s = Some (g, rest) ->
    exists w, s = w ++ rest
      /\ (exists c u, w = "<"%char :: c :: u /\ P1 c = true)
      /\ safe P w = true
      /\ forall rest', match_at r (w ++ rest') = Some (g, rest').
Proof.
  intros HP Hs s g rest H. apply match_stamp in H.
  destruct H as (body & -> & Hb & ->).
  exists (op ++ body ++ cl). split; [reflexivity|]. split; [|split].
  - exists c1, (op' ++ body ++ cl).
    split; [apply stamp_unfold|apply ascii_eqb_refl].
  - apply safe_stamp; auto. now apply (stamp_text_not_lt n).
  - intros rest'. apply match_stamp. now exists body.
Qed.

Lemma stamp_consuming : consuming r.
Proof.
  intros s g rest H. apply match_stamp in H. destruct H as (body & -> & _).
  exists (op ++ body ++ cl). split; [|reflexivity].
  rewrite stamp_unfold. discriminate.
Qed.

Lemma stamp_group :
  forall s g rest, match_at r s = Some (g, rest) ->
    exists d, g = Some d /\ List.length d = n /\ forallb Re.is_digit d = true.
Proof.
  intros s g rest H. apply match_at_in, in_stamp_re in H.
  destruct H as (d & _ & _ & _ & _ & Ld & Hd & _ & _ & _ & _ & _ & ->).
  now exists d.
Qed.

End Stamp.

(** *** What the scan reports are matches *)

Lemma scan_hits_match (r : regex) :
  consuming r ->
  forall s k w g, In (Hit w g) (scan r s k) ->
    exists pre rest, s = pre ++ w ++ rest
                     /\ match_at r (w ++ rest) = Some (g, rest).
Proof.
  intros Hc. induction s as [|c s IH]; intros k w g H; [destruct H|].
  cbn [scan] in H. destruct k as [|k].
  - destruct (match_at r (c :: s)) as [[g0 rest0]|] eqn:E.
    + destruct (Hc _ _ _ E) as (w0 & Hw0 & Es).
      assert (El : List.length (c :: s) - List.length rest0
                   = List.length w0).
      { rewrite Es, length_app. lia. }
      rewrite El in H. destruct w0 as [|c0 w0]; [congruence|].
      cbn [List.length] in H.
      assert (Ef : firstn (S (List.length w0)) (c :: s) = c0 :: w0).
      { rewrite Es. now apply firstn_app_length. }
      rewrite Ef in H. destruct H as [H|H].
      * injection H as <- <-. exists [], rest0.
        split; [exact Es|]. rewrite <- Es. exact E.
      * destruct (IH _ _ _ H) as (pre & rest & -> & Hm).
        now exists (c :: pre), rest.
    + destruct H as [H|H]; [discriminate|].
      destruct (IH _ _ _ H) as (pre & rest & -> & Hm).
      now exists (c :: pre), rest.
  - destruct (IH _ _ _ H) as (pre & rest & -> & Hm).
    now exists (c :: pre), rest.
Qed.

Lemma in_hits_inv (v : list ascii) (ts : list token) :
  In v (hits ts) -> exists w g, In (Hit w g) ts /\ v = reported w g.
Proof.
  induction ts as [|[c|w g] ts IH]; simpl; [tauto| |].
  - intros H. destruct (IH H) as (w & g & Hin & E). exists w, g. auto.
  - intros [<-|H].
    + exists w, g. auto.
    + destruct (IH H) as (w' & g' & Hin & E). exists w', g'. auto.
Qed.

Lemma search_findall (r : regex) :
  consuming r ->
  (forall s g rest, match_at r s = Some (g, rest) -> exists v, g = Some v) ->
  forall s,
    search r s = match findall r s with
                 | [] => None
                 | v :: _ => Some (Some v)
                 end.
Proof.
  intros Hc Hg. unfold findall. induction s as [|c s IH].
  - cbn [search]. destruct (match_at r []) as [[g rest]|] eqn:E;
      [|reflexivity].
    destruct (Hc _ _ _ E) as (w & Hw & E'). symmetry in E'.
    apply app_eq_nil in E'. destruct E' as [-> _]. congruence.
  - cbn [search]. destruct (match_at r (c :: s)) as [[g rest]|] eqn:E.
    + destruct (Hc _ _ _ E) as (w & Hw & E').
      destruct (Hg _ _ _ E) as (v & ->).
      rewrite E' in E |- *. rewrite (tokens_hit _ _ _ _ Hw E). reflexivity.
    + rewrite (tokens_lit _ _ _ E). exact IH.
Qed.

(** *** The dated fields under conversion *)

Lemma field_span_safe_D (w w' : list ascii) :
  field_span w w' -> safe is_D w = true /\ safe is_D w' = true.
Proof.
  intros [[[-> ->]|[-> ->]]|H]; [split; reflexivity..|].
  now apply (amt_span_safe is_D w w').
Qed.

Lemma convert_stamp (n : nat) (op' cl' op cl : list ascii) (D D' : document) :
  op = "<"%char :: "D"%char :: op' ->
  cl = "<"%char :: "/"%char :: cl' ->
  forallb not_lt op' = true -> forallb not_lt cl' = true ->
  convert_qfx D = Ok D' ->
  findall (stamp_re n op cl) D' = findall (stamp_re n op cl) D.
Proof.
  intros Eop Ecl Hop Hcl H. apply convert_rewrites in H.
  unfold findall. symmetry.
  apply (hits_rewrites (stamp_re n op cl) is_D field_span is_FIT
           starts_field_span field_span_safe_D
           (stamp_local n "D" op' cl' op cl Eop Ecl Hop Hcl
              is_FIT eq_refl eq_refl) _ _ H).
Qed.

Lemma stamp_group1 (n : nat) (op cl : list ascii) :
  forall s g rest, match_at (stamp_re n op cl) s = Some (g, rest) ->
                   exists v, g = Some v.
Proof.
  intros s g rest H. destruct (stamp_group n op cl s g rest H) as (d & -> & _).
  now exists d.
Qed.

Lemma convert_search_stamp (n : nat) (op' cl' op cl : list ascii)
    (D D' : document) :
  op = "<"%char :: "D"%char :: op' ->
  cl = "<"%char :: "/"%char :: cl' ->
  forallb not_lt op' = true -> forallb not_lt cl' = true ->
  convert_qfx D = Ok D' ->
  search (stamp_re n op cl) D' = search (stamp_re n op cl) D.
Proof.
  intros Eop Ecl Hop Hcl H.
  rewrite !(search_findall (stamp_re n op cl)
              (stamp_consuming n "D" op' cl' op cl Eop Ecl)
              (stamp_group1 n op cl)).
  now rewrite (convert_stamp n op' cl' op cl D D' Eop Ecl Hop Hcl H).
Qed.

Lemma convert_date_range (D D' : document) :
  convert_qfx D = Ok D' -> extract_date_range D' = extract_date_range D.
Proof.
  intros H. unfold extract_date_range.
  change DTSTART_re with (stamp_re 8 (str "<DTSTART>") (str "</DTSTART>")).
  change DTEND_re with (stamp_re 8 (str "<DTEND>") (str "</DTEND>")).
  rewrite (convert_search_stamp 8 (str "TSTART>") (str "DTSTART>")
             (str "<DTSTART>") (str "</DTSTART>") D D'
             eq_refl eq_refl eq_refl eq_refl H).
  rewrite (convert_search_stamp 8 (str "TEND>") (str "DTEND>")
             (str "<DTEND>") (str "</DTEND>") D D'
             eq_refl eq_refl eq_refl eq_refl H).
  reflexivity.
Qed.

Lemma convert_latest_year (D D' : document) :
  convert_qfx D = Ok D' -> extract_latest_year D' = extract_latest_year D.
Proof.
  intros H. unfold extract_latest_year.
  rewrite (convert_date_range D D' H).
  change DTPOSTED_re
    with (stamp_re 4 (str "<DTPOSTED>") (str "</DTPOSTED>")).
  rewrite (convert_stamp 4 (str "TPOSTED>") (str "DTPOSTED>")
             (str "<DTPOSTED>") (str "</DTPOSTED>") D D'
             eq_refl eq_refl eq_refl eq_refl H).
  reflexivity.
Qed.

(** X9: the conversion keeps the dated fields: the date range and the
    latest year read from the converted document, or the error raised for
    it, are those of the input. *)
Theorem conversion_keeps_dates (D D' : document) :
  convert_qfx D = Ok D' ->
  extract_date_range D' = extract_date_range D
  /\ extract_latest_year D' = extract_latest_year D.
Proof.
  intros H. split; [now apply convert_date_range|now apply convert_latest_year].
Qed.

Lemma conversion_keeps_dates_witness :
  exists D',
    convert_qfx statement = Ok D'
    /\ extract_date_range D' = extract_date_range statement
    /\ extract_latest_year D' = extract_latest_year statement.
Proof.
  eexists. split; [vm_compute; reflexivity|].
  apply (conversion_keeps_dates statement). vm_compute. reflexivity.
Defined.

(** ** The latest year *)

Lemma is_digit_agree (c : ascii) : Re.is_digit c = Float.is_digit c.
Proof.
  unfold Re.is_digit, Float.is_digit, Float.code. cbv zeta.
  destruct (Nat.leb_spec 48 (nat_of_ascii c)),
           (Nat.leb_spec (nat_of_ascii c) 57),
           (Z.leb_spec 48 (Z.of_nat (nat_of_ascii c))),
           (Z.leb_spec (Z.of_nat (nat_of_ascii c)) 57);
    simpl; try reflexivity; lia.
Qed.

Lemma digits_agree (ds : list ascii) :
  forallb Re.is_digit ds = forallb Float.is_digit ds.
Proof.
  induction ds as [|c ds IH]; simpl; [reflexivity|].
  now rewrite is_digit_agree, IH.
Qed.

(** [int] on a text of digits. *)
Lemma py_int_digits (v : list ascii) :
  v <> [] -> forallb Re.is_digit v = true ->
  py_int v = Ok (Float.digits_val v).
Proof.
  intros Hne Hv. rewrite digits_agree in Hv.
  pose proof (digits_num_char v Hv) as Hn.
  unfold py_int.
  rewrite (strip_plain v Hn), (underscores_ok_plain v Hn false),
    (remove_underscores_plain v Hn).
  destruct v as [|c t]; [congruence|].
  assert (Hc : Float.is_digit c = true).
  { simpl in Hv. apply andb_prop in Hv. tauto. }
  unfold Float.parse_sign.
  destruct (ascii_eqb c "-") eqn:E1.
  { apply ascii_eqb_eq in E1. subst c. vm_compute in Hc. discriminate. }
  destruct (ascii_eqb c "+") eqn:E2.
  { apply ascii_eqb_eq in E2. subst c. vm_compute in Hc. discriminate. }
  cbv beta iota. now rewrite Hv.
Qed.

Lemma mapM_py_int (l : list (list ascii)) :
  Forall (fun v => v <> [] /\ forallb Re.is_digit v = true) l ->
  mapM py_int l = Ok (map Float.digits_val l).
Proof.
  induction 1 as [|v l [Hne Hv] _ IH]; [reflexivity|].
  cbn [mapM map]. rewrite (py_int_digits v Hne Hv), IH. reflexivity.
Qed.

Lemma py_max_spec (ys : list Z) :
  forall y, In (py_max y ys) (y :: ys)
            /\ forall z, In z (y :: ys) -> (z <= py_max y ys)%Z.
Proof.
  unfold py_max. induction ys as [|a ys IH]; intros y.
  - simpl. split; [now left|]. intros z [<-|[]]. lia.
  - cbn [fold_left]. destruct (IH (Z.max y a)) as [Hin Hmax]. split.
    + destruct Hin as [Hin|Hin].
      * rewrite <- Hin.
        destruct (Z.max_spec y a) as [[_ ->]|[_ ->]];
          [right; now left|now left].
      * right. now right.
    + intros z [<-|[<-|Hz]].
      * specialize (Hmax (Z.max y a) (or_introl eq_refl)). lia.
      * specialize (Hmax (Z.max y a) (or_introl eq_refl)). lia.
      * apply Hmax. now right.
Qed.

Lemma digits_val_bound (ds : list ascii) :
  forallb Float.is_digit ds = true ->
  (0 <= Float.digits_val ds < 10 ^ Z.of_nat (List.length ds))%Z.
Proof.
  induction ds as [|c ds IH]; intros H.
  - cbv. split; [discriminate|reflexivity].
  - simpl in H. apply andb_prop in H. destruct H as [Hc Hd].
    specialize (IH Hd). apply is_digit_range in Hc.
    rewrite digits_val_cons. cbn [List.length].
    rewrite Nat2Z.inj_succ, Z.pow_succ_r by lia.
    assert (0 < 10 ^ Z.of_nat (List.length ds))%Z
      by (apply Z.pow_pos_nonneg; lia).
    nia.
Qed.

Lemma to_digits_short (y : Z) :
  (0 <= y < 10000)%Z ->
  Float.to_digits y <> []
  /\ List.length (Float.to_digits y) <= 4
  /\ forallb Re.is_digit (Float.to_digits y) = true.
Proof.
  intros Hy.
  assert (H : forallb
                (fun k =>
                   let ds := Float.to_digits (Z.of_nat k) in
                   nonempty ds && (List.length ds <=? 4)
                   && forallb Re.is_digit ds)
                (seq 0 (Z.to_nat 10000)) = true) by (vm_compute; reflexivity).
  rewrite forallb_forall in H. specialize (H (Z.to_nat y)).
  rewrite Z2Nat.id in H by lia. cbv zeta in H.
  assert (Hin : In (Z.to_nat y) (seq 0 (Z.to_nat 10000)))
    by (apply in_seq; lia).
  specialize (H Hin).
  apply andb_prop in H. destruct H as [H H3].
  apply andb_prop in H. destruct H as [H1 H2].
  apply Nat.leb_le in H2. repeat split; auto.
  intros E. rewrite E in H1. discriminate.
Qed.

Lemma posted_consuming : consuming DTPOSTED_re.
Proof.
  exact (stamp_consuming 4 "D" (str "TPOSTED>") (str "DTPOSTED>")
           (str "<DTPOSTED>") (str "</DTPOSTED>") eq_refl eq_refl).
Qed.

Lemma match_posted (s : list ascii) g rest :
  match_at DTPOSTED_re s = Some (g, rest) <->
  exists body,
    s = (str "<DTPOSTED>" ++ body ++ str "</DTPOSTED>") ++ rest
    /\ stamp_text 4 body /\ g = Some (firstn 4 body).
Proof.
  exact (match_stamp 4 (str "DTPOSTED>") (str "<DTPOSTED>")
           (str "</DTPOSTED>") eq_refl s g rest).
Qed.

(** What [findall] reports for the posted dates: the years of the fields
    of the document. *)
Lemma posted_matches (D : document) (v : list ascii) :
  In v (findall DTPOSTED_re D) <-> posted_year D v.
Proof.
  split.
  - intros H. apply in_hits_inv in H. destruct H as (w & g & Hin & ->).
    apply (scan_hits_match DTPOSTED_re posted_consuming) in Hin.
    destruct Hin as (pre & rest & -> & Hm).
    apply match_posted in Hm. destruct Hm as (body & E & Hb & ->).
    apply app_inv_tail in E. subst w.
    exists pre, body, rest. auto.
  - intros (pre & body & post & E & Hb & ->).
    assert (Hm : match_at DTPOSTED_re
                   ((str "<DTPOSTED>" ++ body ++ str "</DTPOSTED>") ++ post)
                 = Some (Some (firstn 4 body), post)).
    { apply match_posted. now exists body. }
    destruct (match_reported DTPOSTED_re is_D
                (stamp_shape 4 "D" (str "TPOSTED>") (str "DTPOSTED>")
                   (str "<DTPOSTED>") (str "</DTPOSTED>")
                   eq_refl eq_refl eq_refl eq_refl eq_refl)
                D pre _ _ _ E Hm) as (w & _ & Hin).
    apply in_hits in Hin. exact Hin.
Qed.

Lemma posted_digits (D : document) (d : list ascii) :
  posted_year D d ->
  List.length d = 4 /\ forallb Re.is_digit d = true.
Proof.
  intros (pre & body & post & _ & Hb & ->).
  destruct Hb as (d & t1 & dot & t2 & -> & Ld & Hd & _).
  rewrite firstn_app_length by assumption. auto.
Qed.

(** The two branches of [extract_latest_year]. *)
Lemma latest_year_cases (D : document) :
  ((forall d, ~ posted_year D d)
   /\ extract_latest_year D
      = (range <- extract_date_range D ;; Ok (firstn 4 (snd range))))
  \/ (exists v vs,
        findall DTPOSTED_re D = v :: vs
        /\ extract_latest_year D
           = Ok (py_str (py_max (Float.digits_val v)
                                (map Float.digits_val vs)))).
Proof.
  destruct (findall DTPOSTED_re D) as [|v vs] eqn:E.
  - left. split.
    + intros d Hd. apply posted_matches in Hd. rewrite E in Hd. destruct Hd.
    + unfold extract_latest_year. cbv zeta. rewrite E. reflexivity.
  - right. exists v, vs. split; [reflexivity|].
    assert (Hall : Forall (fun v => v <> [] /\ forallb Re.is_digit v = true)
                          (v :: vs)).
    { apply Forall_forall. intros x Hx. rewrite <- E in Hx.
      apply posted_matches, posted_digits in Hx. destruct Hx as [L Hx].
      split; [|exact Hx]. intros ->. discriminate L. }
    unfold extract_latest_year. cbv zeta. rewrite E.
    cbv beta iota. rewrite (mapM_py_int _ Hall). reflexivity.
Qed.

Lemma posted_max (D : document) (v : list ascii) (vs : list (list ascii)) :
  findall DTPOSTED_re D = v :: vs ->
  let y := py_max (Float.digits_val v) (map Float.digits_val vs) in
  (exists d, posted_year D d /\ y = Float.digits_val d)
  /\ (forall d, posted_year D d -> (Float.digits_val d <= y)%Z)
  /\ (0 <= y < 10000)%Z.
Proof.
  intros E y.
  destruct (py_max_spec (map Float.digits_val vs) (Float.digits_val v))
    as [Hin Hmax].
  fold y in Hin, Hmax.
  apply (in_map_iff Float.digits_val (v :: vs)) in Hin.
  destruct Hin as (x & Ex & Hx). rewrite <- E in Hx.
  apply posted_matches in Hx.
  split; [|split].
  - now exists x.
  - intros d Hd. apply posted_matches in Hd. rewrite E in Hd.
    apply Hmax. now apply (in_map Float.digits_val (v :: vs)).
  - rewrite <- Ex. destruct (posted_digits D x Hx) as [L Hd].
    rewrite digits_agree in Hd.
    pose proof (digits_val_bound x Hd) as Hb. rewrite L in Hb.
    exact Hb.
Qed.

(** X10: when the document has posted-date fields, the latest year is the
    decimal text of the largest of the numbers written by the first four
    digits of those fields; the date range is not looked at. *)
Theorem latest_year_posted (D : document) :
  (exists d, posted_year D d) ->
  exists y,
    extract_latest_year D = Ok (py_str y)
    /\ (exists d, posted_year D d /\ y = Float.digits_val d)
    /\ (forall d, posted_year D d -> (Float.digits_val d <= y)%Z)
    /\ (0 <= y < 10000)%Z.
Proof.
  intros (d0 & Hd0).
  destruct (latest_year_cases D) as [[Hno _]|(v & vs & E & Hy)].
  - destruct (Hno d0 Hd0).
  - eexists. split; [exact Hy|]. exact (posted_max D v vs E).
Qed.

Lemma latest_year_posted_witness :
  exists y,
    extract_latest_year statement = Ok (py_str y)
    /\ (exists d, posted_year statement d /\ y = Float.digits_val d)
    /\ (forall d, posted_year statement d -> (Float.digits_val d <= y)%Z)
    /\ (0 <= y < 10000)%Z.
Proof.
  apply (latest_year_posted statement).
  exists (str "2024").
  exists (str "<FID>12139</FID><INTU.BID>12139</INTU.BID><DTSTART>20240101000000</DTSTART><DTEND>20240131000000</DTEND><STMTTRN>"),
    (str "20240105120000"),
    (str "<TRNAMT>-42.50</TRNAMT><STMTTRN><DTPOSTED>20231230120000</DTPOSTED><TRNAMT>10.00</TRNAMT>").
  split; [reflexivity|]. split; [|reflexivity].
  exists (str "2024"), (str "0105120000"), [], [].
  repeat split; simpl; try reflexivity; try lia. discriminate.
Defined.

Lemma date_range_Ok (D : document) (a b : list ascii) :
  extract_date_range D = Ok (a, b) ->
  first_timestamp "DTSTART" D a /\ first_timestamp "DTEND" D b.
Proof.
  unfold extract_date_range, DTSTART_re, DTEND_re.
  rewrite <- !search_timestamp.
  destruct (search (timestamp_re "DTSTART") D) as [gs|] eqn:Es;
    [|discriminate].
  destruct (search (timestamp_re "DTEND") D) as [ge|] eqn:Ee;
    [|discriminate].
  destruct (search_timestamp_group _ _ _ Es) as (x & ->).
  destruct (search_timestamp_group _ _ _ Ee) as (y & ->).
  cbn [group1]. intros H. injection H as -> ->. auto.
Qed.

Lemma date_range_Raise (D : document) (e : exn) :
  extract_date_range D = Raise e <->
  e = ValueError "Could not find date range in QFX file"
  /\ (~ has_timestamp "DTSTART" D \/ ~ has_timestamp "DTEND" D).
Proof.
  unfold extract_date_range, DTSTART_re, DTEND_re.
  rewrite <- !no_timestamp.
  destruct (search (timestamp_re "DTSTART") D) as [gs|];
    destruct (search (timestamp_re "DTEND") D) as [ge|]; split;
    try discriminate; try (intros H; injection H as <-; auto).
  - intros [_ [H|H]]; discriminate.
  - intros [-> _]. reflexivity.
  - intros [-> _]. reflexivity.
  - intros [-> _]. reflexivity.
Qed.

(** X11: when the document has no posted-date field, the latest year is
    the first four digits of the end date of the date range, and the
    extraction fails, with the error of the date range, exactly when the
    date range cannot be read. *)
Theorem latest_year_without_posted (D : document) :
  (forall d, ~ posted_year D d) ->
  (forall a b,
     extract_date_range D = Ok (a, b) ->
     extract_latest_year D = Ok (firstn 4 b)
     /\ List.length (firstn 4 b) = 4
     /\ forallb Re.is_digit (firstn 4 b) = true)
  /\ (forall e,
        extract_latest_year D = Raise e <-> extract_date_range D = Raise e).
Proof.
  intros Hno.
  destruct (latest_year_cases D) as [[_ Hy]|(v & vs & E & _)].
  - split.
    + intros a b H. rewrite Hy, H. cbn [bind snd]. split; [reflexivity|].
      apply date_range_Ok in H. destruct H as [_ Hb].
      apply first_timestamp_date in Hb. destruct Hb as [L Hb].
      split.
      * rewrite length_firstn. lia.
      * rewrite <- (firstn_skipn 4 b) in Hb. rewrite forallb_app in Hb.
        apply andb_prop in Hb. tauto.
    + intros e. rewrite Hy.
      destruct (extract_date_range D) as [[a b]|e']; cbn [bind];
        split; intros H; try discriminate; injection H as ->; reflexivity.
  - exfalso. apply (Hno v). apply posted_matches. rewrite E. now left.
Qed.

Lemma latest_year_without_posted_witness :
  let D := str "<DTSTART>20240101000000</DTSTART><DTEND>20250131000000</DTEND>" in
  (forall a b,
     extract_date_range D = Ok (a, b) ->
     extract_latest_year D = Ok (firstn 4 b)
     /\ List.length (firstn 4 b) = 4
     /\ forallb Re.is_digit (firstn 4 b) = true)
  /\ (forall e,
        extract_latest_year D = Raise e <-> extract_date_range D = Raise e).
Proof.
  apply (latest_year_without_posted
           (str "<DTSTART>20240101000000</DTSTART><DTEND>20250131000000</DTEND>")).
  intros d Hd. apply posted_matches in Hd. vm_compute in Hd. exact Hd.
Defined.

(** The latest year of a document whose date range can be read. *)
Lemma latest_year_defined (D : document) (a b : list ascii) :
  extract_date_range D = Ok (a, b) ->
  exists y,
    extract_latest_year D = Ok y
    /\ y <> [] /\ List.length y <= 4 /\ forallb Re.is_digit y = true.
Proof.
  intros H.
  destruct (latest_year_cases D) as [[_ Hy]|(v & vs & E & Hy)].
  - exists (firstn 4 b). rewrite Hy, H. cbn [bind snd].
    split; [reflexivity|].
    apply date_range_Ok in H. destruct H as [_ Hb].
    apply first_timestamp_date in Hb. destruct Hb as [L Hb].
    assert (L4 : List.length (firstn 4 b) = 4)
      by (rewrite length_firstn; lia).
    repeat split.
    + intros E. rewrite E in L4. discriminate.
    + lia.
    + rewrite <- (firstn_skipn 4 b) in Hb. rewrite forallb_app in Hb.
      apply andb_prop in Hb. tauto.
  - destruct (posted_max D v vs E) as (_ & _ & Hr).
    eexists. split; [exact Hy|].
    unfold py_str.
    destruct (Z.ltb_spec (py_max (Float.digits_val v)
                            (map Float.digits_val vs)) 0) as [Hlt|_];
      [lia|].
    now apply to_digits_short.
Qed.

(** ** Reading in text mode *)

Lemma un_cons (c : ascii) (t : list ascii) :
  ascii_eqb c "013" = false ->
  universal_newlines (c :: t) = c :: universal_newlines t.
Proof. intros H. cbn [universal_newlines]. now rewrite H. Qed.

Lemma not_newline_cr (c : ascii) :
  not_newline c = true -> ascii_eqb c "013" = false.
Proof.
  unfold not_newline. intros H. apply andb_prop in H. destruct H as [H _].
  now destruct (ascii_eqb c "013").
Qed.

Lemma not_newline_lf (c : ascii) :
  not_newline c = true -> ascii_eqb c "010" = false.
Proof.
  unfold not_newline. intros H. apply andb_prop in H. destruct H as [_ H].
  now destruct (ascii_eqb c "010").
Qed.

(** A text without line endings is read as it is. *)
Lemma un_app_plain (w t : list ascii) :
  forallb not_newline w = true ->
  universal_newlines (w ++ t) = w ++ universal_newlines t.
Proof.
  induction w as [|c w IH]; intros H; [reflexivity|].
  simpl in H. apply andb_prop in H. destruct H as [Hc Hw].
  cbn [app]. rewrite un_cons by now apply not_newline_cr.
  now rewrite IH.
Qed.

Lemma un_app (a b : list ascii) :
  no_lf_head b ->
  universal_newlines (a ++ b) = universal_newlines a ++ universal_newlines b.
Proof.
  intros Hb.
  assert (Hind : forall n a, List.length a <= n ->
            universal_newlines (a ++ b)
            = universal_newlines a ++ universal_newlines b).
  { induction n as [|n IH]; intros a0 Hn.
    - destruct a0; [reflexivity|simpl in Hn; lia].
    - destruct a0 as [|c a1]; [reflexivity|].
      cbn [app]. destruct (ascii_eqb c "013") eqn:Ec.
      + cbn [universal_newlines]. rewrite Ec.
        destruct a1 as [|c' a2].
        * cbn [app]. destruct b as [|cb b']; [reflexivity|].
          simpl in Hb. rewrite Hb. reflexivity.
        * cbn [app]. destruct (ascii_eqb c' "010") eqn:Ec'.
          -- cbn [app]. f_equal. apply IH. simpl in Hn. lia.
          -- cbn [app]. f_equal.
             change (c' :: a2 ++ b) with ((c' :: a2) ++ b).
             apply IH. simpl in Hn |- *. lia.
      + rewrite !un_cons by assumption. cbn [app]. f_equal.
        apply IH. simpl in Hn. lia. }
  now apply (Hind (List.length a)).
Qed.

Lemma un_split (a : list ascii) :
  forall D b, universal_newlines D = a ++ b ->
    exists a0 b0, D = a0 ++ b0
                  /\ universal_newlines a0 = a /\ universal_newlines b0 = b.
Proof.
  induction a as [|x a IH]; intros D b H.
  - now exists [], D.
  - destruct D as [|c D1]; [discriminate|].
    destruct (ascii_eqb c "013") eqn:Ec.
    + cbn [universal_newlines] in H. rewrite Ec in H.
      cbn [app] in H. injection H as Hx H.
      destruct D1 as [|c' D2].
      * symmetry in H. apply app_eq_nil in H. destruct H as [-> ->].
        exists [c], []. repeat split.
        cbn [universal_newlines]. rewrite Ec. now rewrite Hx.
      * destruct (ascii_eqb c' "010") eqn:Ec'.
        -- destruct (IH _ _ H) as (a0 & b0 & -> & Ha & Hb).
           exists (c :: c' :: a0), b0. repeat split; [|exact Hb].
           cbn [universal_newlines]. rewrite Ec, Ec', Ha. now rewrite Hx.
        -- destruct (IH _ _ H) as (a0 & b0 & E & Ha & Hb).
           exists (c :: a0), b0. split; [cbn [app]; now rewrite E|].
           split; [|exact Hb].
           cbn [universal_newlines]. rewrite Ec, <- Hx. f_equal.
           destruct a0 as [|c2 a2]; [exact Ha|].
           cbn [app] in E. injection E as <- _. now rewrite Ec'.
    + rewrite un_cons in H by assumption. cbn [app] in H.
      injection H as Hx H.
      destruct (IH _ _ H) as (a0 & b0 & -> & Ha & Hb).
      exists (c :: a0), b0. repeat split; [|exact Hb].
      rewrite un_cons by assumption. now rewrite Ha, Hx.
Qed.

Lemma un_plain_prefix (w : list ascii) :
  forallb not_newline w = true ->
  forall s t, universal_newlines s = w ++ t ->
    exists s', s = w ++ s' /\ universal_newlines s' = t.
Proof.
  induction w as [|x w IH]; intros Hw s t H.
  - now exists s.
  - simpl in Hw. apply andb_prop in Hw. destruct Hw as [Hx Hw].
    destruct s as [|c s1]; [discriminate|].
    destruct (ascii_eqb c "013") eqn:Ec.
    + exfalso. cbn [universal_newlines] in H. rewrite Ec in H.
      cbn [app] in H. injection H as Hc _. subst x. discriminate Hx.
    + rewrite un_cons in H by assumption. cbn [app] in H.
      injection H as -> H.
      destruct (IH Hw _ _ H) as (s' & -> & Hs). now exists s'.
Qed.

Lemma digit_or_dot_plain (c : ascii) :
  Re.is_digit c = true \/ is_dot c = true -> not_newline c = true.
Proof.
  intros H. unfold not_newline.
  destruct (ascii_eqb c "013") eqn:E1.
  { apply ascii_eqb_eq in E1. subst c. destruct H; discriminate. }
  destruct (ascii_eqb c "010") eqn:E2.
  { apply ascii_eqb_eq in E2. subst c. destruct H; discriminate. }
  reflexivity.
Qed.

Lemma timestamp_text_plain (body : list ascii) :
  timestamp_text body -> forallb not_newline body = true.
Proof.
  intros (d & t1 & dot & t2 & -> & _ & Hd & H1 & _ & Hdot & _ & H2).
  rewrite !forallb_app.
  rewrite (forallb_weaken Re.is_digit not_newline d),
    (forallb_weaken Re.is_digit not_newline t1),
    (forallb_weaken is_dot not_newline dot),
    (forallb_weaken Re.is_digit not_newline t2);
    auto; intros c Hc; apply digit_or_dot_plain; auto.
Qed.

(** Reading in text mode neither makes nor unmakes a timestamp field. *)
Lemma has_timestamp_read (tag : string) (D : list ascii) :
  forallb not_newline (str ("<" ++ tag ++ ">")%string) = true ->
  forallb not_newline (str ("</" ++ tag ++ ">")%string) = true ->
  has_timestamp tag (universal_newlines D) <-> has_timestamp tag D.
Proof.
  intros Hop Hcl.
  assert (Hplain : forall body, timestamp_text body ->
            forallb not_newline (timestamp_field tag body) = true).
  { intros body Hb. unfold timestamp_field.
    now rewrite !forallb_app, Hop, Hcl, (timestamp_text_plain body Hb). }
  split.
  - intros (pre & body & post & E & Hb).
    apply un_split in E. destruct E as (a0 & b0 & -> & _ & E).
    apply (un_plain_prefix _ (Hplain body Hb)) in E.
    destruct E as (s' & -> & _). now exists a0, body, s'.
  - intros (pre & body & post & -> & Hb).
    exists (universal_newlines pre), body, (universal_newlines post).
    split; [|exact Hb].
    rewrite un_app by reflexivity.
    now rewrite (un_app_plain _ post (Hplain body Hb)).
Qed.

Lemma first_has_timestamp (tag : string) (D : document) (date : list ascii) :
  first_timestamp tag D date -> has_timestamp tag D.
Proof.
  intros (pre & body & post & E & Hb & _). now exists pre, body, post.
Qed.

Lemma date_range_defined (D : document) :
  has_timestamp "DTSTART" D -> has_timestamp "DTEND" D ->
  exists a b, extract_date_range D = Ok (a, b).
Proof.
  intros Hs He. destruct (extract_date_range D) as [[a b]|e] eqn:E.
  - now exists a, b.
  - apply date_range_Raise in E. destruct E as [_ [H|H]]; contradiction.
Qed.





(** ** Numbers and line endings *)

Section FloatNewlines.

Import Float.

Local Set Warnings "-notation-for-abbreviation".

Local Notation nonspace := (fun c : ascii => negb (is_space c)).



















End FloatNewlines.

(** ** The amount fields of a document *)

Lemma TRNAMT_consuming : consuming TRNAMT_re.
Proof.
  intros s g rest H. apply match_TRNAMT in H.
  destruct H as (body & -> & _). exists (amt_field body).
  split; [apply amt_field_not_nil|reflexivity].
Qed.

Lemma TRNAMT_shape :
  forall s g rest, match_at TRNAMT_re s = Some (g, rest) ->
    exists c u, s = "<"%char :: c :: u ++ rest
                /\ is_T c = true /\ safe is_T (c :: u) = true.
Proof.
  intros s g rest H. apply match_TRNAMT in H.
  destruct H as (body & -> & Hp & _).
  exists "T"%char, (str "RNAMT>" ++ body ++ str "</TRNAMT>").
  split; [reflexivity|]. split; [reflexivity|].
  apply (safe_app is_T (str "TRNAMT>")); [reflexivity|].
  apply safe_app; [now apply safe_no_lt|reflexivity].
Qed.

(** What [findall] reports for the amounts: the enclosed texts of the
    amount fields of the document. *)
Lemma amount_fields (D : document) (t : list ascii) :
  In t (findall TRNAMT_re D) <->
  exists pre post, D = pre ++ amt_field t ++ post /\ amount_text t.
Proof.
  split.
  - intros H. apply in_hits_inv in H. destruct H as (w & g & Hin & ->).
    apply (scan_hits_match TRNAMT_re TRNAMT_consuming) in Hin.
    destruct Hin as (pre & rest & -> & Hm).
    apply match_TRNAMT in Hm. destruct Hm as (body & E & Hp & Hne & ->).
    apply app_inv_tail in E. subst w.
    exists pre, rest. cbn [reported]. split; [reflexivity|]. now split.
  - intros (pre & post & E & Hne & Hp).
    assert (Hm : match_at TRNAMT_re (amt_field t ++ post)
                 = Some (Some t, post)).
    { apply match_TRNAMT. now exists t. }
    destruct (match_reported TRNAMT_re is_T TRNAMT_shape D pre _ _ _ E Hm)
      as (w & _ & Hin).
    apply in_hits in Hin. exact Hin.
Qed.



(** C8, as the code has it: the amounts the extraction reads are the
    enclosed texts of the amount fields, a field being an opening tag, a
    text that is not empty and has no [<], and a closing tag.  If [float]
    rejects the text of some amount field, the extraction as a whole
    fails with the error of [float]; otherwise it succeeds and the
    amounts are the values [float] gives for all the amount fields, in
    document order. *)
Theorem extract_amounts_all_or_nothing (D : document) :
  (forall t,
     In t (findall TRNAMT_re D) <->
     exists pre post, D = pre ++ amt_field t ++ post /\ amount_text t)
  /\ ((exists pre t post,
         D = pre ++ amt_field t ++ post /\ amount_text t
         /\ exists e, Float.of_string t = Raise e) ->
      extract_key_elements D
      = Raise (ValueError "could not convert string to float"))
  /\ ((forall pre t post,
         D = pre ++ amt_field t ++ post -> amount_text t ->
         exists v, Float.of_string t = Ok v) ->
      exists el, extract_key_elements D = Ok el
                 /\ map Ok (amounts el)
                    = map Float.of_string (findall TRNAMT_re D)).
Proof.
  split; [intros t; apply amount_fields|]. split.
  - intros (pre & t & post & E & Ht & He).
    assert (H : exists t, In t (findall TRNAMT_re D)
                          /\ exists e, Float.of_string t = Raise e).
    { exists t. split; [|exact He]. apply amount_fields. now exists pre, post. }
    apply mapM_Raise in H. destruct H as (t' & e & _ & He' & Hm).
    apply of_string_error in He'. subst e.
    pose proof (extract_defined D) as Hd. unfold amounts_of in Hd.
    now rewrite Hm in Hd.
  - intros H.
    assert (H' : forall t, In t (findall TRNAMT_re D) ->
                           exists v, Float.of_string t = Ok v).
    { intros t Ht. apply amount_fields in Ht.
      destruct Ht as (pre & post & E & Ht). now apply (H pre t post). }
    apply mapM_Ok in H'. destruct H' as (vs & Hvs & Hmap).
    pose proof (extract_defined D) as Hd. unfold amounts_of in Hd.
    rewrite Hvs in Hd. destruct Hd as (el & Hel & Ha).
    exists el. split; [exact Hel|]. now rewrite Ha.
Qed.

Lemma extract_amounts_all_or_nothing_witness :
  extract_key_elements malformed_amount
  = Raise (ValueError "could not convert string to float")
  /\ exists el, extract_key_elements two_amounts = Ok el
                /\ map Ok (amounts el)
                   = map Float.of_string (findall TRNAMT_re two_amounts).
Proof.
  split.
  - apply (proj1 (proj2 (extract_amounts_all_or_nothing malformed_amount))).
    exists (str "<STMTTRN><TRNAMT>10.00</TRNAMT><STMTTRN>"), (str "ten"), [].
    split; [reflexivity|]. split; [split; [discriminate|reflexivity]|].
    eexists. vm_compute. reflexivity.
  - apply (proj2 (proj2 (extract_amounts_all_or_nothing two_amounts))).
    intros pre t post E Ht.
    assert (Hin : In t (findall TRNAMT_re two_amounts))
      by (apply amount_fields; now exists pre, post).
    vm_compute in Hin.
    destruct Hin as [<-|[<-|[]]]; eexists; vm_compute; reflexivity.
Defined.

(** C8, counterexample: an amount field whose text is no decimal number
    but is read by [float], and an amount field without text, which is
    no match of the pattern: the extraction succeeds, the first gives a
    NaN and the second gives nothing. *)
Lemma special_amounts_accepted :
  let D := str "<TRNAMT>nan</TRNAMT><TRNAMT></TRNAMT><TRNAMT>Infinity</TRNAMT>" in
  occurs (amt_field (str "nan")) D
  /\ spec_decimal_number (str "nan") = false
  /\ occurs (amt_field []) D
  /\ spec_decimal_number [] = false
  /\ spec_decimal_number (str "Infinity") = false
  /\ exists el,
       extract_key_elements D = Ok el
       /\ amounts el = [S754_nan; S754_infinity false].
Proof.
  split; [|split; [|split; [|split; [|split]]]].
  - now exists [], (str "<TRNAMT></TRNAMT><TRNAMT>Infinity</TRNAMT>").
  - reflexivity.
  - now exists (str "<TRNAMT>nan</TRNAMT>"), (str "<TRNAMT>Infinity</TRNAMT>").
  - reflexivity.
  - reflexivity.
  - eexists. split; vm_compute; reflexivity.
Qed.

(** ** The command *)

Lemma mapM_Ok_inv {A B : Type} (f : A -> result B) (l : list A) (vs : list B) :
  mapM f l = Ok vs -> forall t, In t l -> exists v, f t = Ok v.
Proof.
  revert vs. induction l as [|a l IH]; intros vs H t Ht; [destruct Ht|].
  cbn [mapM] in H. apply bind_Ok in H. destruct H as (b & Hb & H).
  apply bind_Ok in H. destruct H as (bs & Hbs & _).
  destruct Ht as [<-|Ht]; [now exists b|now apply (IH bs)].
Qed.

Lemma id_is_12139 (secondary : bool) (D : document) (el : elements) :
  extract_key_elements D = Ok el ->
  list_eqb (id_of secondary el) (str "12139") = true
  <-> first_id secondary D (str "12139").
Proof.
  intros H. rewrite (id_of_search secondary D el H).
  destruct (search (id_re secondary) D) as [g|] eqn:Es.
  - pose proof Es as Es'. apply search_Some in Es'.
    destruct Es' as (pre & suf & rest & _ & Hm & _).
    destruct (id_group secondary _ _ _ Hm) as (v & ->). cbn [group1].
    rewrite list_eqb_eq. split.
    + intros ->. now apply search_id.
    + intros Hf. apply search_id in Hf. congruence.
  - split; [discriminate|].
    intros Hf. apply search_id in Hf. congruence.
Qed.

(** X12: without an input file, or when the text of the file lacks the
    start or the end of the date range, the command calls nothing on the
    file system and exits with status 1. *)
Theorem main_without_date_range (env : outcomes) (args : arguments)
    (input : option (list ascii)) :
  input = None
  \/ (exists D, input = Some D
                /\ (~ has_timestamp "DTSTART" D \/ ~ has_timestamp "DTEND" D)) ->
  main env args input = ([], 1).
Proof.
  intros [->|(D & -> & H)]; [reflexivity|].
  assert (E : extract_date_range (universal_newlines D)
              = Raise (ValueError "Could not find date range in QFX file")).
  { apply date_range_Raise. split; [reflexivity|].
    destruct H as [H|H]; [left|right]; intros H'; apply H.
    - now apply (has_timestamp_read "DTSTART" D eq_refl eq_refl) in H'.
    - now apply (has_timestamp_read "DTEND" D eq_refl eq_refl) in H'. }
  unfold main. now rewrite E.
Qed.

Lemma main_without_date_range_witness :
  main {| mkdir_ok := true; write_ok := true; print_ok := true |}
       {| output_dir := None; output_file := None; no_verify := true |}
       (Some (str "<DTSTART>20240101000000</DTSTART>"
                ++ ["013"%char; "010"%char]))
  = ([], 1).
Proof.
  apply (main_without_date_range
           {| mkdir_ok := true; write_ok := true; print_ok := true |}
           {| output_dir := None; output_file := None; no_verify := true |}).
  right. eexists. split; [reflexivity|]. right.
  apply no_timestamp. vm_compute. reflexivity.
Defined.



(** X14: when the date range of the text read can be read and the text
    converts, the command calls [mkdir] and then, if that succeeds,
    writes the conversion of the text read, and nothing else, whatever
    the verification says.  The directory is the one asked for, or [./]
    followed by the latest year, which is one to four digits; the file
    name is the one asked for, or is made of the two dates; an empty text
    asks for nothing.  The exit status is 0 when the three calls succeed
    and the verification is skipped or the first primary and the first
    secondary institution field of the text both hold [12139], and 1
    otherwise. *)
Theorem main_converts (env : outcomes) (args : arguments)
    (raw : list ascii) (D' : document) (a b : list ascii) :
  extract_date_range (universal_newlines raw) = Ok (a, b) ->
  convert_qfx (universal_newlines raw) = Ok D' ->
  exists year el,
    extract_latest_year (universal_newlines raw) = Ok year
    /\ year <> [] /\ List.length year <= 4
    /\ forallb Re.is_digit year = true
    /\ extract_key_elements (universal_newlines raw) = Ok el
    /\ let dir := match given (output_dir args) with
                  | Some d => d
                  | None => str "./" ++ year
                  end in
       let name := match given (output_file args) with
                   | Some f => f
                   | None => a ++ str "-" ++ b ++ str "_transactions.QFX"
                   end in
       main env args (Some raw)
       = (MakeDirs dir
            :: (if mkdir_ok env then [WriteFile dir name D'] else []),
          if mkdir_ok env && write_ok env && print_ok env
             && (no_verify args
                 || (list_eqb (FID el) (str "12139")
                     && list_eqb (INTU_BID el) (str "12139")))
          then 0 else 1).
Proof.
  intros Hr Hc.
  destruct (latest_year_defined _ a b Hr) as (y & Hy & Hne & Hl & Hd).
  destruct (convert_Ok_extract _ D' Hc) as (el & Hel).
  exists y, el. repeat split; auto.
  unfold main. rewrite Hr, Hy, Hc.
  destruct (mkdir_ok env); [|reflexivity].
  destruct (write_ok env); [|reflexivity].
  destruct (print_ok env); [|reflexivity].
  destruct (no_verify args); [reflexivity|].
  rewrite (verify_converted _ D' el Hc Hel). cbn [negb andb orb].
  now destruct (list_eqb (FID el) (str "12139")
                && list_eqb (INTU_BID el) (str "12139")).
Qed.

Lemma main_converts_witness :
  exists D',
    convert_qfx (universal_newlines (statement ++ ["013"%char; "010"%char]))
    = Ok D'
    /\ exists year el,
         extract_latest_year
           (universal_newlines (statement ++ ["013"%char; "010"%char]))
         = Ok year
         /\ year <> [] /\ List.length year <= 4
         /\ forallb Re.is_digit year = true
         /\ extract_key_elements
              (universal_newlines (statement ++ ["013"%char; "010"%char]))
            = Ok el
         /\ main {| mkdir_ok := true; write_ok := true; print_ok := true |}
                 {| output_dir := Some []; output_file := None;
                    no_verify := false |}
                 (Some (statement ++ ["013"%char; "010"%char]))
            = ([MakeDirs (str "./" ++ year);
                WriteFile (str "./" ++ year)
                  (str "20240101-20240131_transactions.QFX") D'],
               if list_eqb (FID el) (str "12139")
                  && list_eqb (INTU_BID el) (str "12139")
               then 0 else 1).
Proof.
  eexists. split; [vm_compute; reflexivity|].
  apply (main_converts
           {| mkdir_ok := true; write_ok := true; print_ok := true |}
           {| output_dir := Some []; output_file := None;
              no_verify := false |}
           (statement ++ ["013"%char; "010"%char]) _
           (str "20240101") (str "20240131"));
    vm_compute; reflexivity.
Defined.

(** X15: the command exits with status 0 exactly when the input file can
    be read, the text read has the start and the end of the date range,
    [float] reads the text of every amount field, the three calls
    succeed, and the verification is skipped or the leftmost primary and
    the leftmost secondary institution field holding digits both hold
    [12139].  It then has written the conversion of the text read. *)
Theorem main_exit_0 (env : outcomes) (args : arguments)
    (input : option (list ascii)) :
  (snd (main env args input) = 0 <->
   exists raw,
     input = Some raw
     /\ has_timestamp "DTSTART" (universal_newlines raw)
     /\ has_timestamp "DTEND" (universal_newlines raw)
     /\ (forall t, In t (findall TRNAMT_re (universal_newlines raw)) ->
                   exists v, Float.of_string t = Ok v)
     /\ mkdir_ok env = true /\ write_ok env = true /\ print_ok env = true
     /\ (no_verify args = true
         \/ (first_id false (universal_newlines raw) (str "12139")
             /\ first_id true (universal_newlines raw) (str "12139"))))
  /\ (forall effects,
        main env args input = (effects, 0) ->
        exists raw D' dir name,
          input = Some raw
          /\ convert_qfx (universal_newlines raw) = Ok D'
          /\ effects = [MakeDirs dir; WriteFile dir name D']).
Proof.
  split.
  - destruct input as [raw|];
      [|split; [discriminate|intros (raw & H & _); discriminate]].
    assert (Hinj : forall P : list ascii -> Prop,
              (exists raw0, Some raw = Some raw0 /\ P raw0) <-> P raw).
    { intros P. split; [intros (r & E & H); now injection E as <-|].
      intros H. now exists raw. }
    rewrite (Hinj (fun r =>
               has_timestamp "DTSTART" (universal_newlines r)
               /\ has_timestamp "DTEND" (universal_newlines r)
               /\ (forall t, In t (findall TRNAMT_re (universal_newlines r)) ->
                             exists v, Float.of_string t = Ok v)
               /\ mkdir_ok env = true /\ write_ok env = true
               /\ print_ok env = true
               /\ (no_verify args = true
                   \/ (first_id false (universal_newlines r) (str "12139")
                       /\ first_id true (universal_newlines r)
                            (str "12139"))))).
    unfold main. set (D := universal_newlines raw).
    destruct (extract_date_range D) as [[a b]|e] eqn:Er.
    2:{ split; [discriminate|]. intros (Hs & He & _).
        destruct (date_range_defined D Hs He) as (a & b & E). congruence. }
    destruct (latest_year_defined D a b Er) as (y & Hy & _). rewrite Hy.
    pose proof Er as Hts. apply date_range_Ok in Hts.
    destruct Hts as [Hs He].
    apply first_has_timestamp in Hs. apply first_has_timestamp in He.
    destruct (mkdir_ok env); cbn [negb];
      [|split; [discriminate|intros (_ & _ & _ & H & _); discriminate]].
    pose proof (convert_defined D) as Hc. unfold amounts_of in Hc.
    destruct (mapM Float.of_string (findall TRNAMT_re D)) as [vs|e] eqn:Ea.
    2:{ rewrite Hc. split; [discriminate|]. intros (_ & _ & Hall & _).
        apply mapM_Ok in Hall. destruct Hall as (vs & Hvs & _). congruence. }
    destruct Hc as (D' & Hc). rewrite Hc.
    pose proof (mapM_Ok_inv _ _ _ Ea) as Hall.
    destruct (write_ok env); cbn [negb];
      [|split; [discriminate|intros (_ & _ & _ & _ & H & _); discriminate]].
    destruct (print_ok env); cbn [negb];
      [|split; [discriminate
               |intros (_ & _ & _ & _ & _ & H & _); discriminate]].
    destruct (no_verify args).
    { split; [|reflexivity]. intros _. repeat split; auto. }
    destruct (convert_Ok_extract D D' Hc) as (el & Hel).
    rewrite (verify_converted D D' el Hc Hel).
    pose proof (id_is_12139 false D el Hel) as HF.
    pose proof (id_is_12139 true D el Hel) as HI.
    cbn [id_of] in HF, HI.
    destruct (list_eqb (FID el) (str "12139"));
      destruct (list_eqb (INTU_BID el) (str "12139")); cbn [andb snd].
    + split; [|reflexivity]. intros _. repeat split; auto.
      right. split; [now apply HF|now apply HI].
    + split; [discriminate|].
      intros (_ & _ & _ & _ & _ & _ & [H|[_ H]]); [discriminate|].
      apply HI in H. discriminate.
    + split; [discriminate|].
      intros (_ & _ & _ & _ & _ & _ & [H|[H _]]); [discriminate|].
      apply HF in H. discriminate.
    + split; [discriminate|].
      intros (_ & _ & _ & _ & _ & _ & [H|[H _]]); [discriminate|].
      apply HF in H. discriminate.
  - intros effects. unfold main. destruct input as [raw|]; [|discriminate].
    destruct (extract_date_range (universal_newlines raw)) as [[a b]|e];
      [|discriminate].
    destruct (extract_latest_year (universal_newlines raw)) as [y|e];
      [|discriminate].
    destruct (mkdir_ok env); cbn [negb]; [|discriminate].
    destruct (convert_qfx (universal_newlines raw)) as [D'|e] eqn:Ec;
      [|discriminate].
    destruct (write_ok env); cbn [negb]; [|discriminate].
    destruct (print_ok env); cbn [negb]; [|discriminate].
    assert (Hdone : forall eff,
              eff = effects ->
              eff = [MakeDirs
                       match given (output_dir args) with
                       | Some d => d
                       | None => str "./" ++ y
                       end;
                     WriteFile
                       match given (output_dir args) with
                       | Some d => d
                       | None => str "./" ++ y
                       end
                       match given (output_file args) with
                       | Some f => f
                       | None => a ++ str "-" ++ b ++ str "_transactions.QFX"
                       end D'] ->
              exists raw0 D'0 dir name,
                Some raw = Some raw0
                /\ convert_qfx (universal_newlines raw0) = Ok D'0
                /\ effects = [MakeDirs dir; WriteFile dir name D'0]).
    { intros eff <- ->. exists raw, D'. eexists. eexists.
      split; [reflexivity|]. split; [exact Ec|reflexivity]. }
    destruct (no_verify args).
    + intros H. injection H as H. exact (Hdone _ H eq_refl).
    + destruct (verify_conversion (universal_newlines raw) D') as [[|]|e];
        try discriminate.
      intros H. injection H as H. exact (Hdone _ H eq_refl).
Qed.

Lemma main_exit_0_witness :
  snd (main {| mkdir_ok := true; write_ok := true; print_ok := true |}
            {| output_dir := Some (str "out");
               output_file := Some (str "a.qfx"); no_verify := false |}
            (Some (statement ++ ["013"%char; "010"%char]))) = 0
  /\ snd (main {| mkdir_ok := true; write_ok := false; print_ok := true |}
               {| output_dir := None; output_file := None;
                  no_verify := true |}
               (Some statement)) <> 0.
Proof.
  split.
  - apply (proj1 (main_exit_0
                    {| mkdir_ok := true; write_ok := true; print_ok := true |}
                    {| output_dir := Some (str "out");
                       output_file := Some (str "a.qfx");
                       no_verify := false |}
                    (Some (statement ++ ["013"%char; "010"%char])))).
    eexists. split; [reflexivity|].
    split.
    { apply (first_has_timestamp _ _ (str "20240101")).
      apply search_timestamp. vm_compute. reflexivity. }
    split.
    { apply (first_has_timestamp _ _ (str "20240131")).
      apply search_timestamp. vm_compute. reflexivity. }
    split.
    { intros t Ht. vm_compute in Ht.
      destruct Ht as [<-|[<-|[]]]; eexists; vm_compute; reflexivity. }
    repeat (split; [reflexivity|]).
    right. split; apply search_id; vm_compute; reflexivity.
  - intros H.
    apply (proj1 (main_exit_0
                    {| mkdir_ok := true; write_ok := false; print_ok := true |}
                    {| output_dir := None; output_file := None;
                       no_verify := true |}
                    (Some statement))) in H.
    destruct H as (_ & _ & _ & _ & _ & _ & H & _). discriminate H.
Defined.
